(** * lirc_tegra: a shallow embedding of the IR transceiver timing engine

    The definitions below follow [src/lirc_tegra.c] function by function.
    Machine integers are carried as [Z] with the wrap-around of each C type
    written out; the module state (the file's statics) is one record that is
    passed explicitly; everything the driver does to the outside world
    (GPIO writes, busy waits, sleeps, kernel log lines, wake-ups) is
    appended to a trace of events, and everything it reads from the outside
    world is an explicit input: an argument of the function that reads it,
    or, for the microsecond clock of the carrier loop, the list of readings
    still to come. *)

From Stdlib Require Import String ZArith List Bool Lia Sorted.
Import ListNotations.
Local Open Scope Z_scope.

(** ** C integer types (LP64, as on the Jetson Nano's aarch64 kernel) *)

Module CInt.

Definition wrap_unsigned (w x : Z) : Z := x mod 2 ^ w.
Definition wrap_signed (w x : Z) : Z := (x + 2 ^ (w - 1)) mod 2 ^ w - 2 ^ (w - 1).

(** [unsigned int], [int], [unsigned long], [long] *)
Definition to_uint : Z -> Z := wrap_unsigned 32.
Definition to_int : Z -> Z := wrap_signed 32.
Definition to_ulong : Z -> Z := wrap_unsigned 64.
Definition to_long : Z -> Z := wrap_signed 64.

Definition is_uint (x : Z) : Prop := 0 <= x < 2 ^ 32.
Definition is_int (x : Z) : Prop := - 2 ^ 31 <= x < 2 ^ 31.
Definition is_ulong (x : Z) : Prop := 0 <= x < 2 ^ 64.
Definition is_long (x : Z) : Prop := - 2 ^ 63 <= x < 2 ^ 63.

(** arithmetic of [long] operands; [/] truncates towards zero *)
Definition lsub (a b : Z) : Z := to_long (a - b).
Definition lmul (a b : Z) : Z := to_long (a * b).
Definition ladd (a b : Z) : Z := to_long (a + b).
Definition ldiv (a b : Z) : Z := to_long (Z.quot a b).

(** arithmetic of [unsigned long] operands *)
Definition uladd (a b : Z) : Z := to_ulong (a + b).
Definition ulsub (a b : Z) : Z := to_ulong (a - b).
Definition ulmul (a b : Z) : Z := to_ulong (a * b).
Definition uldiv (a b : Z) : Z := a / b.

(** arithmetic of [unsigned int] operands *)
Definition uisub (a b : Z) : Z := to_uint (a - b).

(** a C truth value *)
Definition truthy (x : Z) : bool := negb (x =? 0).

End CInt.
Import CInt.

(** ** Constants *)

Definition RBUF_LEN : Z := 256.
Definition LIRC_TRANSMITTER_LATENCY : Z := 50.
Definition MAX_UDELAY_US : Z := 5000.
Definition LIRC_TEGRA_MAX_TRANSMITTERS : Z := 8.
Definition INVALID : Z := -1.
Definition DEFAULT_GPIO_IN_PIN : Z := 149.
Definition DEFAULT_GPIO_OUT_PIN : Z := 200.

(** errno values of <linux/errno.h> *)
Definition EINVAL : Z := 22.
Definition ENODEV : Z := 19.
Definition ENOSYS : Z := 38.
Definition ENOIOCTLCMD : Z := 515.

(** Modelled from the spec: [PULSE_BIT], [PULSE_MASK] and [LIRC_MODE_PULSE]
    are declared in <media/lirc.h>, which is not under src/.  The receive
    stream contract of the spec puts the PULSE/SPACE tag in the bit just
    above the saturated magnitude; the values are those of the LIRC ABI. *)
Definition PULSE_BIT : Z := 0x01000000.
Definition PULSE_MASK : Z := 0x00FFFFFF.
Definition LIRC_MODE_PULSE : Z := 2.

(** ** Data *)

Record timeval := { tv_sec : Z; tv_usec : Z }.

(** Modelled from the spec: [struct lirc_buffer] and its operations
    ([lirc_buffer_init], [lirc_buffer_full], [lirc_buffer_write] and the
    reader's side) belong to the kernel's lirc_dev, not to this repository.
    Following the spec's Ring Buffer it is a fixed-capacity FIFO of
    fixed-width records, [buf_size] chunks of [buf_chunk_size] bytes each,
    oldest record first, with an overflow flag that a write into the full
    buffer sets and that nothing clears. *)
Record lirc_buffer := {
  buf_chunk_size : Z;
  buf_size : Z;
  buf_fifo : list Z;
  buf_overflow : bool
}.

Definition lirc_buffer_init (chunk_size size : Z) : lirc_buffer :=
  {| buf_chunk_size := chunk_size; buf_size := size; buf_fifo := [];
     buf_overflow := false |}.

Definition lirc_buffer_len (b : lirc_buffer) : Z := Z.of_nat (length (buf_fifo b)).

Definition lirc_buffer_full (b : lirc_buffer) : bool :=
  buf_size b <=? lirc_buffer_len b.

Definition lirc_buffer_empty (b : lirc_buffer) : bool :=
  lirc_buffer_len b =? 0.

(** the record goes behind the stored ones *)
Definition buf_push (l : Z) (b : lirc_buffer) : lirc_buffer :=
  {| buf_chunk_size := buf_chunk_size b; buf_size := buf_size b;
     buf_fifo := buf_fifo b ++ [l]; buf_overflow := buf_overflow b |}.

(** a write into a full buffer stores nothing and sets the overflow flag *)
Definition lirc_buffer_write (b : lirc_buffer) (l : Z) : lirc_buffer :=
  if lirc_buffer_full b
  then {| buf_chunk_size := buf_chunk_size b; buf_size := buf_size b;
          buf_fifo := buf_fifo b; buf_overflow := true |}
  else buf_push l b.

(** the reader takes the oldest record *)
Definition lirc_buffer_read (b : lirc_buffer) : option (Z * lirc_buffer) :=
  match buf_fifo b with
  | [] => None
  | l :: rest =>
      Some (l, {| buf_chunk_size := buf_chunk_size b; buf_size := buf_size b;
                  buf_fifo := rest; buf_overflow := buf_overflow b |})
  end.

(** draining: read until the buffer is empty *)
Fixpoint drain_loop (fuel : nat) (b : lirc_buffer) : list Z :=
  match fuel with
  | O => []
  | S k =>
      match lirc_buffer_read b with
      | None => []
      | Some (l, b') => l :: drain_loop k b'
      end
  end.

Definition drain (b : lirc_buffer) : list Z := drain_loop (length (buf_fifo b)) b.

(** What the driver does to its environment, in program order. *)
Inductive event :=
| GpioSet (pin : Z) (level : bool)      (* gpiochip->set(gpiochip, pin, level) *)
| Udelay (usecs : Z)                    (* udelay(usecs) *)
| Msleep (msecs : Z)                    (* msleep(msecs) *)
| Printk (text : string) (args : list Z)
| WakeUp                                (* wake_up_interruptible(&rbuf.wait_poll) *)
| SpinLock                              (* spin_lock_irqsave(&lock, flags) *)
| SpinUnlock.                           (* spin_unlock_irqrestore(&lock, flags) *)

(** the statics initialised in [init_timing_params] *)
Record carrier := {
  freq : Z;          (* unsigned int *)
  duty_cycle : Z;    (* unsigned int *)
  period : Z;        (* unsigned long *)
  pulse_width : Z;   (* unsigned long *)
  space_width : Z    (* unsigned long *)
}.

(** the function-local statics of [frbwrite] *)
Record frb_static := {
  pulse : Z;         (* int *)
  space : Z;         (* int *)
  ptr : Z            (* unsigned int *)
}.

(** module parameters that nothing changes after load *)
Record params := {
  gpio_in_pin : Z;
  gpio_out_pin : list Z;
  n_transmitters : Z;
  debug : bool;
  softcarrier : bool;
  invert : bool
}.

Record state := {
  cfg : params;
  sense : Z;                 (* -1 = auto, 0 = active high, 1 = active low *)
  tx_mask : Z;               (* unsigned int *)
  irq_num : Z;
  lasttv : timeval;
  rbuf : lirc_buffer;
  car : carrier;
  frb : frb_static;
  trace : list event;        (* effects so far, oldest first *)
  clock : list Z             (* what read_current_us() will return, in order *)
}.

Definition set_sense (v : Z) (s : state) : state :=
  {| cfg := cfg s; sense := v; tx_mask := tx_mask s; irq_num := irq_num s;
     lasttv := lasttv s; rbuf := rbuf s; car := car s; frb := frb s;
     trace := trace s; clock := clock s |}.
Definition set_tx_mask (v : Z) (s : state) : state :=
  {| cfg := cfg s; sense := sense s; tx_mask := v; irq_num := irq_num s;
     lasttv := lasttv s; rbuf := rbuf s; car := car s; frb := frb s;
     trace := trace s; clock := clock s |}.
Definition set_irq_num (v : Z) (s : state) : state :=
  {| cfg := cfg s; sense := sense s; tx_mask := tx_mask s; irq_num := v;
     lasttv := lasttv s; rbuf := rbuf s; car := car s; frb := frb s;
     trace := trace s; clock := clock s |}.
Definition set_lasttv (v : timeval) (s : state) : state :=
  {| cfg := cfg s; sense := sense s; tx_mask := tx_mask s; irq_num := irq_num s;
     lasttv := v; rbuf := rbuf s; car := car s; frb := frb s;
     trace := trace s; clock := clock s |}.
Definition set_rbuf (v : lirc_buffer) (s : state) : state :=
  {| cfg := cfg s; sense := sense s; tx_mask := tx_mask s; irq_num := irq_num s;
     lasttv := lasttv s; rbuf := v; car := car s; frb := frb s;
     trace := trace s; clock := clock s |}.
Definition set_car (v : carrier) (s : state) : state :=
  {| cfg := cfg s; sense := sense s; tx_mask := tx_mask s; irq_num := irq_num s;
     lasttv := lasttv s; rbuf := rbuf s; car := v; frb := frb s;
     trace := trace s; clock := clock s |}.
Definition set_frb (v : frb_static) (s : state) : state :=
  {| cfg := cfg s; sense := sense s; tx_mask := tx_mask s; irq_num := irq_num s;
     lasttv := lasttv s; rbuf := rbuf s; car := car s; frb := v;
     trace := trace s; clock := clock s |}.
Definition set_trace (v : list event) (s : state) : state :=
  {| cfg := cfg s; sense := sense s; tx_mask := tx_mask s; irq_num := irq_num s;
     lasttv := lasttv s; rbuf := rbuf s; car := car s; frb := frb s;
     trace := v; clock := clock s |}.
Definition set_clock (v : list Z) (s : state) : state :=
  {| cfg := cfg s; sense := sense s; tx_mask := tx_mask s; irq_num := irq_num s;
     lasttv := lasttv s; rbuf := rbuf s; car := car s; frb := frb s;
     trace := trace s; clock := v |}.

(** ** Effects *)

Definition emit (e : event) (s : state) : state := set_trace (trace s ++ [e]) s.

Definition gpio_set (pin : Z) (level : bool) : state -> state := emit (GpioSet pin level).
Definition udelay (usecs : Z) : state -> state := emit (Udelay usecs).
Definition msleep (msecs : Z) : state -> state := emit (Msleep msecs).
Definition printk (text : string) (args : list Z) : state -> state :=
  emit (Printk text args).

(** the [dprintk] macro: a log line only when [debug] is set *)
Definition dprintk (text : string) (args : list Z) (s : state) : state :=
  if debug (cfg s) then printk text args s else s.

Definition bool_int (b : bool) : Z := if b then 1 else 0.

(** [gpio_out_pin[i]] *)
Definition out_pin (s : state) (i : nat) : Z := nth i (gpio_out_pin (cfg s)) INVALID.

(** the values of [i] in [for (i = 0; i < n_transmitters; i++)]: with
    [int i] the comparison is signed, with [unsigned i] the bound is
    converted to unsigned *)
Definition tx_range_int (s : state) : list nat :=
  seq 0 (Z.to_nat (n_transmitters (cfg s))).
Definition tx_range_unsigned (s : state) : list nat :=
  seq 0 (Z.to_nat (to_uint (n_transmitters (cfg s)))).

(** ** The code *)

Definition transmitter_enabled (n : nat) (s : state) : bool :=
  truthy (Z.land (tx_mask s) (to_uint (to_int (Z.shiftl 1 (Z.of_nat n))))).

(** the loop over the transmitters that sets every enabled line *)
Definition set_enabled (level : bool) (s : state) : state :=
  fold_left
    (fun acc i =>
       if transmitter_enabled i acc then gpio_set (out_pin acc i) level acc else acc)
    (tx_range_unsigned s) s.

(** the loop over the transmitters that sets every configured line *)
Definition set_all (level : bool) (s : state) : state :=
  fold_left (fun acc i => gpio_set (out_pin acc i) level acc) (tx_range_int s) s.

Fixpoint safe_udelay_loop (fuel : nat) (usecs : Z) (s : state) : state :=
  match fuel with
  | O => udelay usecs s
  | S k =>
      if MAX_UDELAY_US <? usecs
      then safe_udelay_loop k (ulsub usecs MAX_UDELAY_US) (udelay MAX_UDELAY_US s)
      else udelay usecs s
  end.

(** the [while] loop runs at most [usecs / MAX_UDELAY_US] times *)
Definition safe_udelay (usecs : Z) (s : state) : state :=
  safe_udelay_loop (Z.to_nat (usecs / MAX_UDELAY_US)) usecs s.

(** returns [None] when the environment has no reading left *)
Definition read_current_us (s : state) : option (Z * state) :=
  match clock s with
  | [] => None
  | t :: rest => Some (t, set_clock rest s)
  end.

Definition init_timing_params (new_duty_cycle new_freq : Z) (s : state) : Z * state :=
  if 0 <? new_freq then
    if ldiv (lmul (ldiv (lmul 1000 1000000) new_freq) new_duty_cycle) 100
       <=? LIRC_TRANSMITTER_LATENCY
    then (- EINVAL, s)
    else if ldiv (lmul (ldiv (lmul 1000 1000000) new_freq)
                       (uisub 100 new_duty_cycle)) 100
            <=? LIRC_TRANSMITTER_LATENCY
    then (- EINVAL, s)
    else
      let duty_cycle' := new_duty_cycle in
      let freq' := new_freq in
      let period' := to_ulong (ldiv (lmul 1000 1000000) freq') in
      let pulse_width' := uldiv (ulmul period' duty_cycle') 100 in
      let space_width' := ulsub period' pulse_width' in
      let s' := set_car {| freq := freq'; duty_cycle := duty_cycle';
                           period := period'; pulse_width := pulse_width';
                           space_width := space_width' |} s in
      (0, dprintk "in init_timing_params, freq=%d pulse=%ld, space=%ld"
            [freq'; to_long pulse_width'; to_long space_width'] s')
  else
    let s' := set_car {| freq := 0; duty_cycle := to_uint INVALID;
                         period := to_ulong INVALID;
                         pulse_width := to_ulong INVALID;
                         space_width := to_ulong INVALID |} s in
    (0, dprintk "in init_timing_params, freq=%d pulse=%ld, space=%ld"
          [0; to_long (to_ulong INVALID); to_long (to_ulong INVALID)] s').

(** the [while (actual < length)] loop of [send_pulse_softcarrier]; every
    turn reads the clock once, so [fuel] bounds the readings consumed *)
Fixpoint softcarrier_loop (fuel : nat) (length actual target : Z) (flag : bool)
    (actual_us : Z) (s : state) : option (Z * state) :=
  match fuel with
  | O => None
  | S k =>
      if actual <? length then
        let s1 := set_enabled (negb (xorb flag (invert (cfg s)))) s in
        let target' :=
          uladd target (if flag then space_width (car s1) else pulse_width (car s1)) in
        let initial_us := actual_us in
        let target_us := uladd actual_us (uldiv (ulsub target' actual) 1000) in
        let s2 :=
          if 0 <? to_int (ulsub target_us actual_us)
          then udelay (ulsub target_us actual_us) s1
          else s1 in
        match read_current_us s2 with
        | None => None
        | Some (actual_us', s3) =>
            let actual' := uladd actual (ulmul (ulsub actual_us' initial_us) 1000) in
            softcarrier_loop k length actual' target' (negb flag) actual_us' s3
        end
      else Some (to_long (uldiv (ulsub actual length) 1000), s)
  end.

Definition send_pulse_softcarrier (length : Z) (s : state) : option (Z * state) :=
  let length := ulmul length 1000 in
  match read_current_us s with
  | None => None
  | Some (actual_us, s0) =>
      softcarrier_loop (S (List.length (clock s0))) length 0 0 false actual_us s0
  end.

Definition send_pulse (length : Z) (s : state) : option (Z * state) :=
  if length <=? 0 then Some (0, s)
  else if softcarrier (cfg s) && (0 <? freq (car s))
  then send_pulse_softcarrier length s
  else Some (0, safe_udelay length (set_enabled (negb (invert (cfg s))) s)).

Definition send_space (length : Z) (s : state) : state :=
  let s1 := set_enabled (invert (cfg s)) s in
  if length <=? 0 then s1
  else safe_udelay (to_ulong length) s1.

Definition rbwrite (l : Z) (s : state) : state :=
  if lirc_buffer_full (rbuf s) then
    (* no new signals will be accepted *)
    dprintk "Buffer overrun" [] s
  else set_rbuf (lirc_buffer_write (rbuf s) l) s.

Definition frbwrite (l : Z) (s : state) : state :=
  (* simple noise filter *)
  let f := frb s in
  if (0 <? ptr f) && truthy (Z.land l PULSE_BIT) then
    let pulse' := to_int (pulse f + Z.land l PULSE_MASK) in
    if 250 <? pulse' then
      let s1 := rbwrite (space f) s in
      let s2 := rbwrite (Z.lor pulse' PULSE_BIT) s1 in
      set_frb {| pulse := 0; space := space f; ptr := 0 |} s2
    else set_frb {| pulse := pulse'; space := space f; ptr := ptr f |} s
  else if negb (truthy (Z.land l PULSE_BIT)) then
    if ptr f =? 0 then
      if 20000 <? l
      then set_frb {| pulse := pulse f; space := l; ptr := to_uint (ptr f + 1) |} s
      else rbwrite l s
    else
      if 20000 <? l then
        let space1 := to_int (space f + pulse f) in
        let space2 := if PULSE_MASK <? space1 then PULSE_MASK else space1 in
        let space3 := to_int (space2 + l) in
        let space4 := if PULSE_MASK <? space3 then PULSE_MASK else space3 in
        set_frb {| pulse := 0; space := space4; ptr := ptr f |} s
      else
        let s1 := rbwrite (space f) s in
        let s2 := rbwrite (Z.lor (pulse f) PULSE_BIT) s1 in
        let s3 := set_frb {| pulse := 0; space := space f; ptr := 0 |} s2 in
        rbwrite l s3
  else rbwrite l s.

(** [tv] is earlier than [last] *)
Definition tv_before (tv last : timeval) : bool :=
  (tv_sec tv <? tv_sec last)
  || ((tv_sec tv =? tv_sec last) && (tv_usec tv <? tv_usec last)).

Definition tv_args (signal : Z) (s : state) (tv : timeval) : list Z :=
  [signal; sense s; tv_sec tv; tv_sec (lasttv s); tv_usec tv; tv_usec (lasttv s)].

(** the record handed to [frbwrite]: [signal^sense ? data : (data|PULSE_BIT)] *)
Definition tagged (signal sense data : Z) : Z :=
  if truthy (Z.lxor signal sense) then data else Z.lor data PULSE_BIT.

(** The [if / else if / else] of [irq_handler] that computes [data]; the
    state it returns carries the log lines and the corrected [sense].
    [signal] is what [gpiochip->get] returns for the input pin and [tv] what
    [do_gettimeofday] returns. *)
Definition irq_data (signal : Z) (tv : timeval) (s : state) : Z * state :=
  (* calc time since last interrupt in microseconds *)
  let deltv := lsub (tv_sec tv) (tv_sec (lasttv s)) in
  if tv_before tv (lasttv s) then
    let s' := printk "AIEEEE: your clock just jumped backwards" [] s in
    let s' := printk "%d %d %lx %lx %lx %lx" (tv_args signal s tv) s' in
    (PULSE_MASK, s')
  else if 15 <? deltv then
    (* really long time *)
    if negb (truthy (Z.lxor signal (sense s))) then
      (* detecting pulse while this MUST be a space! *)
      let s' := printk "AIEEEE: %d %d %lx %lx %lx %lx" (tv_args signal s tv) s in
      (PULSE_MASK, set_sense (if truthy (sense s) then 0 else 1) s')
    else (PULSE_MASK, s)
  else
    (to_int (ladd (lmul deltv 1000000) (lsub (tv_usec tv) (tv_usec (lasttv s)))), s).

(** the argument of the call [frbwrite(signal^sense ? data : (data|PULSE_BIT))] *)
Definition irq_record (signal : Z) (tv : timeval) (s : state) : Z :=
  let '(data, s1) := irq_data signal tv s in
  tagged signal (sense s1) data.

Definition irq_handler (signal : Z) (tv : timeval) (s : state) : state :=
  if negb (sense s =? -1) then
    let '(_, s1) := irq_data signal tv s in
    let s2 := frbwrite (irq_record signal tv s) s1 in
    let s3 := set_lasttv tv s2 in
    emit WakeUp s3
  else s.

(** the nine probes of the input pin: [get i] is what [gpiochip->get]
    returns at the [i]-th probe *)
Definition probe_votes (get : nat -> Z) (s : state) : Z * Z * state :=
  fold_left
    (fun '(nlow, nhigh, acc) i =>
       let '(nlow', nhigh') :=
         if truthy (get i) then (to_int (nlow + 1), nhigh)
         else (nlow, to_int (nhigh + 1)) in
       (nlow', nhigh', msleep 40 acc))
    (seq 0 9) (0, 0, s).

(** What [init_port] meets of the kernel outside this file: the labels of
    the GPIO chips registered with gpiolib, in the order [gpiochip_find]
    visits them, and the [strcmp] of the kernel. *)
Record gpiolib := {
  chips : list string;
  strcmp : string -> string -> Z
}.

(** [label] is [chip->label]; the [%s] of the log line is filled in with
    it *)
Definition is_right_chip (lib : gpiolib) (label data : string) (s : state)
    : Z * state :=
  let s1 :=
    dprintk (String.append "is_right_chip " (String.append label " %d"))
      [strcmp lib data label] s in
  if strcmp lib data label =? 0 then (1, s1) else (0, s1).

(** [gpiochip_find (data, is_right_chip)] over the chips still to visit:
    gpiolib calls the callback on the registered chips in turn and returns
    the first chip for which it returns non-zero, NULL when there is none *)
Fixpoint gpiochip_find_from (lib : gpiolib) (rest : list string) (data : string)
    (s : state) : option string * state :=
  match rest with
  | [] => (None, s)
  | label :: rest' =>
      let '(r, s1) := is_right_chip lib label data s in
      if truthy r then (Some label, s1)
      else gpiochip_find_from lib rest' data s1
  end.

Definition gpiochip_find (lib : gpiolib) (data : string) (s : state)
    : option string * state :=
  gpiochip_find_from lib (chips lib) data s.

(** [node] tells whether [lirc_tegra_dev->dev.of_node] is set, [to_irq] is
    what [gpiochip->to_irq] returns for the input pin *)
Definition init_port (lib : gpiolib) (node : bool) (to_irq : Z) (get : nat -> Z)
    (s : state) : Z * state :=
  let '(gpiochip, s0) := gpiochip_find lib "tegra-gpio" s in
  let '(gpiochip, s0) :=
    match gpiochip with
    | None => if node then gpiochip_find lib "tegra-gpio" s0 else (gpiochip, s0)
    | Some _ => (gpiochip, s0)
    end in
  match gpiochip with
  | None => (- ENODEV, printk "gpio chip not found!" [] s0)
  | Some _ =>
      let s1 := set_all (invert (cfg s0)) s0 in
      let s2 := set_irq_num to_irq s1 in
      let s3 := dprintk "to_irq %d" [to_irq] s2 in
      (* if pin is high, then this must be an active low receiver. *)
      if sense s3 =? -1 then
        (* wait 1/2 sec for the power supply *)
        let s4 := msleep 500 s3 in
        let '(nlow, nhigh, s5) := probe_votes get s4 in
        let s6 := set_sense (if nhigh <=? nlow then 1 else 0) s5 in
        (0, printk "auto-detected active %s receiver on GPIO pin %d"
              [sense s6; gpio_in_pin (cfg s6)] s6)
      else
        (0, printk "manually using active %s receiver on GPIO pin %d"
              [sense s3; gpio_in_pin (cfg s3)] s3)
  end.

(** the [for (i = 0; i < count; i++)] loop of [lirc_write] over the
    remaining indices, carrying [delta] *)
Fixpoint write_loop (idx : list nat) (wbuf : list Z) (delta : Z) (s : state)
    : option state :=
  match idx with
  | [] => Some s
  | i :: rest =>
      if Nat.odd i then
        write_loop rest wbuf delta (send_space (lsub (nth i wbuf 0) delta) s)
      else
        match send_pulse (to_ulong (nth i wbuf 0)) s with
        | None => None
        | Some (delta', s') => write_loop rest wbuf delta' s'
        end
  end.

(** [n] is the byte count of the request and [user] what [memdup_user]
    yields: an error code, or the copied buffer as [int]s *)
Definition lirc_write (n : Z) (user : Z + list Z) (s : state) : option (Z * state) :=
  let count := to_int (n / 4) in
  if truthy (n mod 4) || (Z.rem count 2 =? 0) then Some (- EINVAL, s)
  else
    match user with
    | inl err => Some (err, s)
    | inr wbuf =>
        let s1 := emit SpinLock s in
        match write_loop (seq 0 (Z.to_nat count)) wbuf 0 s1 with
        | None => None
        | Some s2 =>
            let s3 := set_all (invert (cfg s2)) s2 in
            Some (n, emit SpinUnlock s3)
        end
    end.

Inductive ioctl_cmd :=
| LIRC_GET_SEND_MODE
| LIRC_SET_SEND_MODE
| LIRC_GET_LENGTH
| LIRC_SET_SEND_DUTY_CYCLE
| LIRC_SET_SEND_CARRIER
| LIRC_SET_TRANSMITTER_MASK
| OTHER_CMD (cmd : Z).

(** [user] is what [get_user (value, (__u32 * ) arg)] yields: an error code
    or the [__u32] read; [fop] is what [lirc_dev_fop_ioctl] returns *)
Definition lirc_ioctl (cmd : ioctl_cmd) (user : Z + Z) (fop : Z) (s : state)
    : Z * state :=
  match cmd with
  | LIRC_GET_SEND_MODE => (- ENOIOCTLCMD, dprintk "LIRC_GET_SEND_MODE" [] s)
  | LIRC_SET_SEND_MODE =>
      let s1 := dprintk "LIRC_SET_SEND_MODE" [] s in
      match user with
      | inl result => (result, s1)
      | inr value =>
          (* only LIRC_MODE_PULSE supported *)
          if negb (value =? LIRC_MODE_PULSE) then (- ENOSYS, s1) else (0, s1)
      end
  | LIRC_GET_LENGTH => (- ENOSYS, dprintk "LIRC_GET_LENGTH" [] s)
  | LIRC_SET_SEND_DUTY_CYCLE =>
      let s1 := dprintk "SET_SEND_DUTY_CYCLE" [] s in
      match user with
      | inl result => (result, s1)
      | inr value =>
          if (value <=? 0) || (100 <? value) then (- EINVAL, s1)
          else init_timing_params value (freq (car s1)) s1
      end
  | LIRC_SET_SEND_CARRIER =>
      let s1 := dprintk "SET_SEND_CARRIER" [] s in
      match user with
      | inl result => (result, s1)
      | inr value =>
          if (500000 <? value) || (value <? 0) then (- EINVAL, s1)
          else init_timing_params (duty_cycle (car s1)) value s1
      end
  | LIRC_SET_TRANSMITTER_MASK =>
      match user with
      | inl result => (result, dprintk "SET_TRANSMITTER_MASK %d" [0] s)
      | inr value =>
          let s1 := dprintk "SET_TRANSMITTER_MASK %d" [to_int value] s in
          if negb (Z.land value
                     (to_uint (to_int (to_int (Z.shiftl 1 (n_transmitters (cfg s1))) - 1)))
                   =? value)
          then (n_transmitters (cfg s1), s1)
          else (0, set_tx_mask value s1)
      end
  | OTHER_CMD c =>
      (fop, dprintk "COMMAND handed over to lirc_dev_fop_ioctl: %u" [c] s)
  end.

(** the statics as the file initialises them, with the buffer of
    [lirc_tegra_init] and nothing done yet *)
Definition default_params : params :=
  {| gpio_in_pin := DEFAULT_GPIO_IN_PIN;
     gpio_out_pin := [DEFAULT_GPIO_OUT_PIN; INVALID; INVALID; INVALID;
                      INVALID; INVALID; INVALID; INVALID];
     n_transmitters := 1;
     debug := false;
     softcarrier := true;
     invert := false |}.

Definition initial_state : state :=
  {| cfg := default_params;
     sense := -1;
     tx_mask := 0xFFFFFFFF;
     irq_num := 0;
     lasttv := {| tv_sec := 0; tv_usec := 0 |};
     rbuf := lirc_buffer_init 4 RBUF_LEN;
     car := {| freq := 38000; duty_cycle := 50; period := 0;
               pulse_width := 0; space_width := 0 |};
     frb := {| pulse := 0; space := 0; ptr := 0 |};
     trace := [];
     clock := [] |}.

(** ** Vocabulary of the statements *)

(** the two quantities the guards of [init_timing_params] compare with the
    latency *)
Definition checked_pulse (d f : Z) : Z :=
  ldiv (lmul (ldiv (lmul 1000 1000000) f) d) 100.
Definition checked_space (d f : Z) : Z :=
  ldiv (lmul (ldiv (lmul 1000 1000000) f) (uisub 100 d)) 100.

(** the values the accepting branch stores *)
Definition derived_period (f : Z) : Z := to_ulong (ldiv (lmul 1000 1000000) f).
Definition derived_pulse_width (d f : Z) : Z := uldiv (ulmul (derived_period f) d) 100.
Definition derived_space_width (d f : Z) : Z :=
  ulsub (derived_period f) (derived_pulse_width d f).

(** a DurationRecord as the consumer reads it *)
Definition record_is_pulse (r : Z) : bool := truthy (Z.land r PULSE_BIT).
Definition record_magnitude (r : Z) : Z := Z.land r PULSE_MASK.

(** microseconds from [last] to [tv] *)
Definition delta_us (tv last : timeval) : Z :=
  (tv_sec tv - tv_sec last) * 1000000 + (tv_usec tv - tv_usec last).

(** a timestamp as [do_gettimeofday] normalises it *)
Definition tv_normal (tv : timeval) : Prop := 0 <= tv_usec tv < 1000000.

(** a run of producer writes, oldest first *)
Definition rbwrite_all (ls : list Z) (s : state) : state :=
  fold_left (fun acc l => rbwrite l acc) ls s.

(** the free slots of a buffer *)
Definition room (b : lirc_buffer) : nat :=
  (Z.to_nat (buf_size b) - length (buf_fifo b))%nat.

(** the driver's buffer filled to capacity by the producer, no write
    refused so far *)
Definition full_state : state :=
  rbwrite_all (map Z.of_nat (seq 1 (Z.to_nat RBUF_LEN))) initial_state.

(** the probes, out of nine, at which the input pin read high, and low *)
Definition high_samples (get : nat -> Z) : Z :=
  Z.of_nat (length (filter (fun i => truthy (get i)) (seq 0 9))).
Definition low_samples (get : nat -> Z) : Z :=
  Z.of_nat (length (filter (fun i => negb (truthy (get i))) (seq 0 9))).

(** the GPIO writes that put every enabled line among [idx] at [level] *)
Definition enabled_sets (level : bool) (s : state) (idx : list nat) : list event :=
  flat_map
    (fun i => if transmitter_enabled i s then [GpioSet (out_pin s i) level] else [])
    idx.

(** the GPIO writes that put every configured line among [idx] at [level] *)
Definition all_sets (level : bool) (s : state) (idx : list nat) : list event :=
  map (fun i => GpioSet (out_pin s i) level) idx.

Definition is_wait (e : event) : bool :=
  match e with
  | Udelay _ | Msleep _ => true
  | _ => false
  end.

(** [value] selects a line at or beyond the transmitter count [n] *)
Definition selects_beyond (n value : Z) : Prop :=
  exists i, n <= i /\ Z.testbit value i = true.

(** the carrier is off or not made in software: pulses are a steady level *)
Definition steady_level (s : state) : Prop :=
  softcarrier (cfg s) && (0 <? freq (car s)) = false.

(** the driver after calibration found an active-low receiver *)
Definition active_low_state : state := set_sense 1 initial_state.

(** the same, the last edge stamped at 10 s *)
Definition active_low_at_10s : state :=
  set_lasttv {| tv_sec := 10; tv_usec := 0 |} active_low_state.

(** an input line that reads low at the first six probes and high at the
    last three *)
Definition six_low_three_high (i : nat) : Z := if (i <? 6)%nat then 0 else 1.

(** an input line that reads high at the first five probes and low at the
    last four *)
Definition five_high_four_low (i : nat) : Z := if (i <? 5)%nat then 1 else 0.

(** the registered chip [gpiochip_find] returns for "tegra-gpio": the
    first one whose label compares equal *)
Definition the_chip (lib : gpiolib) : option string :=
  find (fun label => strcmp lib "tegra-gpio" label =? 0) (chips lib).

Definition chip_found (lib : gpiolib) : bool :=
  match the_chip lib with
  | Some _ => true
  | None => false
  end.

(** the chips among [rest] that one search hands to [is_right_chip]: all up
    to and including the first whose label compares equal *)
Fixpoint visited (lib : gpiolib) (rest : list string) : list string :=
  match rest with
  | [] => []
  | label :: rest' =>
      if strcmp lib "tegra-gpio" label =? 0 then [label]
      else label :: visited lib rest'
  end.

(** the log lines of one search with debugging on *)
Definition search_log (lib : gpiolib) (rest : list string) : list event :=
  map (fun label =>
         Printk (String.append "is_right_chip " (String.append label " %d"))
           [strcmp lib "tegra-gpio" label])
    (visited lib rest).

(** the log lines of the searches of [init_port]: none with debugging
    off, those of one search, or of two when the first found no chip and
    the device has a device-tree node *)
Definition find_log (lib : gpiolib) (node : bool) (s : state) : list event :=
  if debug (cfg s) then
    if chip_found lib || negb node then search_log lib (chips lib)
    else search_log lib (chips lib) ++ search_log lib (chips lib)
  else [].

(** a [strcmp]: the difference of the first two bytes that differ *)
Fixpoint byte_strcmp (a b : string) : Z :=
  match a, b with
  | EmptyString, EmptyString => 0
  | EmptyString, String d _ => - Z.of_N (Ascii.N_of_ascii d)
  | String c _, EmptyString => Z.of_N (Ascii.N_of_ascii c)
  | String c a', String d b' =>
      if Ascii.eqb c d then byte_strcmp a' b'
      else Z.of_N (Ascii.N_of_ascii c) - Z.of_N (Ascii.N_of_ascii d)
  end.

(** a machine whose gpiolib has the PMIC's chip and the Tegra's *)
Definition tegra_lib : gpiolib :=
  {| chips := ["max77620-gpio"%string; "tegra-gpio"%string]; strcmp := byte_strcmp |}.

(** a machine without the Tegra's GPIO chip *)
Definition other_lib : gpiolib :=
  {| chips := ["max77620-gpio"%string]; strcmp := byte_strcmp |}.

(** the votes the probe loop collects over the probes [idx] *)
Definition votes_for_low (get : nat -> Z) (idx : list nat) : Z :=
  Z.of_nat (length (filter (fun i => truthy (get i)) idx)).
Definition votes_for_high (get : nat -> Z) (idx : list nat) : Z :=
  Z.of_nat (length (filter (fun i => negb (truthy (get i))) idx)).

(** two transmitters configured *)
Definition two_transmitters : state :=
  {| cfg := {| gpio_in_pin := DEFAULT_GPIO_IN_PIN;
               gpio_out_pin := [DEFAULT_GPIO_OUT_PIN; 38; INVALID; INVALID;
                                INVALID; INVALID; INVALID; INVALID];
               n_transmitters := 2;
               debug := false;
               softcarrier := true;
               invert := false |};
     sense := sense initial_state;
     tx_mask := tx_mask initial_state;
     irq_num := irq_num initial_state;
     lasttv := lasttv initial_state;
     rbuf := rbuf initial_state;
     car := car initial_state;
     frb := frb initial_state;
     trace := [];
     clock := [] |}.

(** the driver with the software carrier switched off *)
Definition steady_state : state :=
  {| cfg := {| gpio_in_pin := DEFAULT_GPIO_IN_PIN;
               gpio_out_pin := gpio_out_pin default_params;
               n_transmitters := 1;
               debug := false;
               softcarrier := false;
               invert := false |};
     sense := sense initial_state;
     tx_mask := tx_mask initial_state;
     irq_num := irq_num initial_state;
     lasttv := lasttv initial_state;
     rbuf := rbuf initial_state;
     car := car initial_state;
     frb := frb initial_state;
     trace := [];
     clock := [] |}.

(** readings that are [unsigned long] values and lie fewer than 2^64
    nanoseconds after [base]: the carrier loop counts the time since its
    first reading in nanoseconds, in an [unsigned long] *)
Definition spans (base : Z) (c : list Z) : Prop :=
  Forall (fun t => 0 <= t < 2 ^ 64 /\ 1000 * (t - base) < 2 ^ 64) c.

(** a clock that advances: the readings are [unsigned long] values that
    increase strictly, and fewer than 2^64 nanoseconds (584 years) pass
    from the first to the last *)
Definition ticking (c : list Z) : Prop :=
  StronglySorted Z.lt c /\ spans (hd 0 c) c.

(** an upper bound on the clock readings the entries [idx] of a request
    consume: a pulse of [d] microseconds reads the clock at most [d + 1]
    times, a space never *)
Fixpoint readings_needed (idx : list nat) (wbuf : list Z) : Z :=
  match idx with
  | [] => 0
  | i :: rest =>
      (if Nat.odd i then 0 else nth i wbuf 0 + 1) + readings_needed rest wbuf
  end.

(** the environment supplies an advancing clock with enough readings for
    the request of [n] bytes, whose entries are non-negative *)
Definition clock_covers (n : Z) (wbuf : list Z) (s : state) : Prop :=
  let idx := seq 0 (Z.to_nat (to_int (n / 4))) in
  ticking (clock s)
  /\ Forall (fun i => 0 <= nth i wbuf 0 < 2 ^ 31) idx
  /\ readings_needed idx wbuf <= Z.of_nat (length (clock s)).

(** the driver at its defaults (software carrier, 38 kHz, duty cycle 50)
    after [init_timing_params], with a clock that reads 100, 113, 126, ... *)
Definition carrier_state : state :=
  set_clock (map (fun k => 100 + 13 * Z.of_nat k) (seq 0 8))
    (snd (init_timing_params 50 38000 initial_state)).

(** the same driver on a wall clock: microseconds since 1970 as read on
    30 October 2026, 13 microseconds apart *)
Definition wall_clock_state : state :=
  set_clock (map (fun k => 1793318400000000 + 13 * Z.of_nat k) (seq 0 8))
    (snd (init_timing_params 50 38000 initial_state)).

(** The trace of a pulse made of half-cycles: every half-cycle drives the
    enabled lines, to the active level first (when [flag] is false), to the
    idle level next, and so on in turn, and then spends its waits in
    [segs]. *)
Fixpoint carrier_trace (s : state) (flag : bool) (segs : list (list event))
    : list event :=
  match segs with
  | [] => []
  | waits :: rest =>
      enabled_sets (negb (xorb flag (invert (cfg s)))) s (tx_range_unsigned s)
      ++ waits ++ carrier_trace s (negb flag) rest
  end.

(** [t] is what sending the pulse entry [len] does: nothing for a zero
    entry, else at least one half-cycle, the first one active, with nothing
    but waits between the writes to the enabled lines *)
Definition pulse_trace (s : state) (len : Z) (t : list event) : Prop :=
  if len =? 0 then t = []
  else
    exists waits segs,
      Forall (fun w => forallb is_wait w = true) (waits :: segs)
      /\ t = carrier_trace s false (waits :: segs).

(** [t] is what sending a space does: the enabled lines are driven idle,
    then there are only waits *)
Definition space_trace (s : state) (t : list event) : Prop :=
  exists waits,
    forallb is_wait waits = true
    /\ t = enabled_sets (invert (cfg s)) s (tx_range_unsigned s) ++ waits.

(** [t] is the transmission of the entries [idx] of [wbuf], in order: the
    entries at even indices as pulses, those at odd indices as spaces *)
Fixpoint transmission (s : state) (idx : list nat) (wbuf : list Z) (t : list event)
    : Prop :=
  match idx with
  | [] => t = []
  | i :: rest =>
      exists t1 t2,
        t = t1 ++ t2
        /\ (if Nat.odd i then space_trace s t1 else pulse_trace s (nth i wbuf 0) t1)
        /\ transmission s rest wbuf t2
  end.

(** ** More of the code: opening the device *)

Definition EBUSY : Z := 16.

(** [tv] is what [do_gettimeofday] returns and [request_irq] the result of
    the call of that name *)
Definition set_use_inc (tv : timeval) (request_irq : Z) (s : state) : Z * state :=
  (* initialize timestamp *)
  let s1 := set_lasttv tv s in
  if request_irq =? - EBUSY then
    (- EBUSY, printk "IRQ %d is busy" [irq_num s1] s1)
  else if request_irq =? - EINVAL then
    (- EINVAL, printk "Bad irq number or handler" [] s1)
  else
    let s2 := dprintk "Interrupt %d obtained" [irq_num s1] s1 in
    (* initialize pulse/space widths *)
    let '(_, s3) := init_timing_params (duty_cycle (car s2)) (freq (car s2)) s2 in
    (0, s3).

(** ** Vocabulary of the further statements *)

(** the microseconds a trace spends in [udelay] *)
Fixpoint udelay_total (t : list event) : Z :=
  match t with
  | [] => 0
  | Udelay u :: rest => u + udelay_total rest
  | _ :: rest => udelay_total rest
  end.

(** the entries [idx] of a request, added up *)
Fixpoint entries_total (idx : list nat) (wbuf : list Z) : Z :=
  match idx with
  | [] => 0
  | i :: rest => nth i wbuf 0 + entries_total rest wbuf
  end.

(** a record as the decoder builds it: a magnitude up to [PULSE_MASK],
    with or without the pulse bit *)
Definition record_wf (r : Z) : Prop := 0 <= r <= Z.lor PULSE_MASK PULSE_BIT.

(** the statics of the Noise Filter as [frbwrite] keeps them: unarmed with
    no pulse pending, or armed on a long space with a short pulse total *)
Definition filter_ok (f : frb_static) : Prop :=
  (ptr f = 0 /\ pulse f = 0)
  \/ (ptr f = 1 /\ 20000 < space f <= PULSE_MASK /\ 0 <= pulse f <= 250).

(** the time the Noise Filter holds back *)
Definition filter_pending (f : frb_static) : Z :=
  if ptr f =? 0 then 0 else space f + pulse f.

(** the magnitudes of a list of records, added up *)
Fixpoint magnitude_total (rs : list Z) : Z :=
  match rs with
  | [] => 0
  | r :: rest => record_magnitude r + magnitude_total rest
  end.

(** carrier parameters as an accepted update leaves them, within the
    ranges of the control operations *)
Definition carrier_valid (c : carrier) : Prop :=
  1 <= duty_cycle c <= 100
  /\ 0 < freq c <= 500000
  /\ period c = 1000000000 / freq c
  /\ pulse_width c = period c * duty_cycle c / 100
  /\ pulse_width c + space_width c = period c
  /\ LIRC_TRANSMITTER_LATENCY < pulse_width c
  /\ LIRC_TRANSMITTER_LATENCY < space_width c.

(** the request switches the carrier off *)
Definition carrier_off_request (cmd : ioctl_cmd) (user : Z + Z) : bool :=
  match cmd, user with
  | LIRC_SET_SEND_CARRIER, inr value => value =? 0
  | _, _ => false
  end.

Definition is_printk (e : event) : bool :=
  match e with
  | Printk _ _ => true
  | _ => false
  end.

(** a timestamp whose seconds are far from the ends of [long] *)
Definition tv_in_range (tv : timeval) : Prop :=
  0 <= tv_sec tv < 2 ^ 62 /\ 0 <= tv_usec tv < 1000000.

(** the buffer [b'] is [b] with at most [k] records appended: same
    capacity, same flag, nothing removed or reordered, and no more than the
    capacity stored if no more was stored before *)
Definition buffer_extends (k : nat) (b b' : lirc_buffer) : Prop :=
  buf_size b' = buf_size b
  /\ buf_chunk_size b' = buf_chunk_size b
  /\ buf_overflow b' = buf_overflow b
  /\ (exists added,
        buf_fifo b' = buf_fifo b ++ added /\ (length added <= k)%nat)
  /\ (lirc_buffer_len b <= buf_size b -> lirc_buffer_len b' <= buf_size b').

(** [s'] differs from [s] at most in the carrier parameters, the transmit
    mask and log lines appended to the trace, none when debugging is off *)
Definition control_frame (s s' : state) : Prop :=
  exists c m logs,
    s' = set_trace (trace s ++ logs) (set_tx_mask m (set_car c s))
    /\ forallb is_printk logs = true
    /\ (debug (cfg s) = false -> logs = []).

(** ** More of the code: loading and unloading the module *)

Definition ENOMEM : Z := 12.
Definition EIO : Z := 5.

(** The capability bits of <media/lirc.h>, which is not under src/: the
    code below takes them as a parameter. *)
Record lirc_can := {
  LIRC_CAN_SET_SEND_DUTY_CYCLE : Z;
  LIRC_CAN_SET_SEND_CARRIER : Z;
  LIRC_CAN_SEND_PULSE : Z;
  LIRC_CAN_SET_TRANSMITTER_MASK : Z;
  LIRC_CAN_REC_MODE2 : Z
}.

(** the values of the LIRC ABI *)
Definition lirc_h : lirc_can :=
  {| LIRC_CAN_SET_SEND_DUTY_CYCLE := 0x00000200;
     LIRC_CAN_SET_SEND_CARRIER := 0x00000100;
     LIRC_CAN_SEND_PULSE := 0x00000002;
     LIRC_CAN_SET_TRANSMITTER_MASK := 0x00000400;
     LIRC_CAN_REC_MODE2 := 0x00040000 |}.

(** The calls into the platform and lirc_dev layers that took effect, in
    program order. *)
Inductive platform_event :=
| BufferInit            (* lirc_buffer_init succeeded *)
| BufferFree            (* lirc_buffer_free *)
| DriverRegister        (* platform_driver_register succeeded *)
| DriverUnregister      (* platform_driver_unregister *)
| NodePut               (* of_node_put *)
| DeviceAlloc           (* platform_device_alloc succeeded *)
| DeviceAdd             (* platform_device_add succeeded *)
| DevicePut             (* platform_device_put *)
| DeviceUnregister      (* platform_device_unregister *)
| LircRegister (minor : Z)    (* lirc_register_driver succeeded *)
| LircUnregister (minor : Z)  (* lirc_unregister_driver *)
| GpioFree (pin : Z).         (* gpio_free *)

(** what this file knows of the platform: whether [lirc_tegra_dev] has a
    device-tree node, and the calls so far *)
Record platform := {
  of_node : bool;
  calls : list platform_event
}.

(** the fields of the static [driver] that the module code assigns *)
Record lirc_driver := {
  features : Z;
  minor : Z
}.

(** what the kernel answers during [lirc_tegra_init] *)
Record init_env := {
  buffer_init_result : Z;        (* lirc_buffer_init *)
  driver_register_result : Z;    (* platform_driver_register *)
  node_found : bool;             (* of_find_compatible_node is not NULL *)
  device_alloc_ok : bool;        (* platform_device_alloc is not NULL *)
  device_add_result : Z          (* platform_device_add *)
}.

Definition call (e : platform_event) (p : platform) : platform :=
  {| of_node := of_node p; calls := calls p ++ [e] |}.

Definition lirc_tegra_init (env : init_env) (s : state) (p : platform)
    : Z * state * platform :=
  (* Init read buffer. *)
  if buffer_init_result env <? 0 then (- ENOMEM, s, p)
  else
    let s1 := set_rbuf (lirc_buffer_init 4 RBUF_LEN) s in
    let p1 := call BufferInit p in
    if truthy (driver_register_result env) then
      let s2 := printk "lirc register returned %d" [driver_register_result env] s1 in
      (* exit_buffer_free *)
      (driver_register_result env, s2, call BufferFree p1)
    else
      let p2 := call DriverRegister p1 in
      if node_found env then
        (* DT-enabled *)
        (0, s1, call NodePut {| of_node := true; calls := calls p2 |})
      else
        let p3 := {| of_node := false; calls := calls p2 |} in
        if negb (device_alloc_ok env) then
          (* exit_driver_unregister, exit_buffer_free *)
          (- ENOMEM, s1, call BufferFree (call DriverUnregister p3))
        else
          let p4 := call DeviceAlloc p3 in
          if truthy (device_add_result env) then
            (* exit_device_put, exit_driver_unregister, exit_buffer_free *)
            (device_add_result env, s1,
             call BufferFree (call DriverUnregister (call DevicePut p4)))
          else (0, s1, call DeviceAdd p4).

Definition lirc_tegra_exit (p : platform) : platform :=
  let p1 := if negb (of_node p) then call DeviceUnregister p else p in
  call BufferFree (call DriverUnregister p1).

(** [driver.features] as [lirc_tegra_init_module] builds it *)
Definition driver_features (can : lirc_can) (s : state) : Z :=
  let f := 0 in
  let f :=
    if softcarrier (cfg s)
    then Z.lor (Z.lor f (LIRC_CAN_SET_SEND_DUTY_CYCLE can)) (LIRC_CAN_SET_SEND_CARRIER can)
    else f in
  let f := if 0 <? n_transmitters (cfg s) then Z.lor f (LIRC_CAN_SEND_PULSE can) else f in
  let f :=
    if 1 <? n_transmitters (cfg s)
    then Z.lor f (LIRC_CAN_SET_TRANSMITTER_MASK can) else f in
  let f :=
    if negb (gpio_in_pin (cfg s) =? INVALID)
    then Z.lor f (LIRC_CAN_REC_MODE2 can) else f in
  f.

(** the [dprintk] of every configured output pin *)
Definition log_out_pins (s : state) : state :=
  fold_left
    (fun acc i => dprintk "gpio_out_pin[%d] = %d" [Z.of_nat i; out_pin acc i] acc)
    (tx_range_int s) s.

(** [env], [lib], [to_irq] and [get] are the answers to
    [lirc_tegra_init] and [init_port]; [register_result] is what
    [lirc_register_driver] returns *)
Definition lirc_tegra_init_module (can : lirc_can) (env : init_env)
    (lib : gpiolib) (to_irq : Z) (get : nat -> Z) (register_result : Z)
    (s : state) (p : platform) (d : lirc_driver)
    : Z * state * platform * lirc_driver :=
  let '(result, s1, p1) := lirc_tegra_init env s p in
  if truthy result then (result, s1, p1, d)
  else
    let '(result, s2) := init_port lib (of_node p1) to_irq get s1 in
    if result <? 0 then
      (* exit_tegra *)
      (result, s2, lirc_tegra_exit p1, d)
    else
      let d1 := {| features := driver_features can s2; minor := register_result |} in
      if minor d1 <? 0 then
        let s3 := printk "device registration failed with %d" [result] s2 in
        (* exit_tegra *)
        (- EIO, s3, lirc_tegra_exit p1, d1)
      else
        let p2 := call (LircRegister (minor d1)) p1 in
        let s3 := printk "driver registered!" [] s2 in
        let s4 := dprintk "driver.features = %d" [features d1] s3 in
        let s5 := dprintk "softcarrier = %d" [bool_int (softcarrier (cfg s4))] s4 in
        let s6 := dprintk "gpio_in_pin = %d" [gpio_in_pin (cfg s5)] s5 in
        (0, log_out_pins s6, p2, d1).

Definition lirc_tegra_exit_module (s : state) (p : platform) (d : lirc_driver)
    : state * platform :=
  let p1 := call (LircUnregister (minor d)) p in
  let p2 := fold_left (fun acc i => call (GpioFree (out_pin s i)) acc) (tx_range_int s) p1 in
  let p3 := call (GpioFree (gpio_in_pin (cfg s))) p2 in
  (printk "cleaned up module" [] s, lirc_tegra_exit p3).

(** ** Vocabulary for the module code *)

(** how many buffers, platform drivers, platform devices and lirc
    registrations a run of calls leaves held: acquisitions less releases *)
Fixpoint held (cs : list platform_event) : Z * Z * Z * Z :=
  match cs with
  | [] => (0, 0, 0, 0)
  | e :: rest =>
      let '(b, dr, dev, reg) := held rest in
      match e with
      | BufferInit => (b + 1, dr, dev, reg)
      | BufferFree => (b - 1, dr, dev, reg)
      | DriverRegister => (b, dr + 1, dev, reg)
      | DriverUnregister => (b, dr - 1, dev, reg)
      | DeviceAlloc => (b, dr, dev + 1, reg)
      | DevicePut | DeviceUnregister => (b, dr, dev - 1, reg)
      | LircRegister _ => (b, dr, dev, reg + 1)
      | LircUnregister _ => (b, dr, dev, reg - 1)
      | NodePut | DeviceAdd | GpioFree _ => (b, dr, dev, reg)
      end
  end.

(** a platform on which nothing was done yet *)
Definition fresh : platform := {| of_node := false; calls := [] |}.

(** the static [driver] as the file initialises it *)
Definition initial_driver : lirc_driver := {| features := 0; minor := -1 |}.

(** no two of the five capability values share a bit, and none is zero *)
Definition can_distinct (can : lirc_can) : Prop :=
  let duty := LIRC_CAN_SET_SEND_DUTY_CYCLE can in
  let carrier := LIRC_CAN_SET_SEND_CARRIER can in
  let send := LIRC_CAN_SEND_PULSE can in
  let mask := LIRC_CAN_SET_TRANSMITTER_MASK can in
  let rec := LIRC_CAN_REC_MODE2 can in
  (duty <> 0 /\ carrier <> 0 /\ send <> 0 /\ mask <> 0 /\ rec <> 0)
  /\ (Z.land duty carrier = 0 /\ Z.land duty send = 0 /\ Z.land duty mask = 0
      /\ Z.land duty rec = 0)
  /\ (Z.land carrier send = 0 /\ Z.land carrier mask = 0 /\ Z.land carrier rec = 0)
  /\ (Z.land send mask = 0 /\ Z.land send rec = 0)
  /\ Z.land mask rec = 0.

(** the capability [bit] is advertised in [f] *)
Definition advertises (f bit : Z) : bool := truthy (Z.land f bit).

(** every answer of the kernel is a success, on a machine with or without a
    device-tree node *)
Definition all_fine (node : bool) : init_env :=
  {| buffer_init_result := 0; driver_register_result := 0; node_found := node;
     device_alloc_ok := true; device_add_result := 0 |}.

(** two counts of held resources, added up *)
Definition held_plus (x y : Z * Z * Z * Z) : Z * Z * Z * Z :=
  let '(b, dr, dev, reg) := x in
  let '(b', dr', dev', reg') := y in
  (b + b', dr + dr', dev + dev', reg + reg').

(** * Properties *)

(** ** Machine integers *)

Section Wrap.

Lemma to_long_id (x : Z) : is_long x -> to_long x = x.
Proof.
  unfold is_long, to_long, wrap_signed. intros H.
  change (2 ^ (64 - 1)) with 9223372036854775808 in *.
  change (2 ^ 63) with 9223372036854775808 in *.
  change (2 ^ 64) with 18446744073709551616.
  rewrite Z.mod_small; lia.
Qed.

Lemma to_int_id (x : Z) : is_int x -> to_int x = x.
Proof.
  unfold is_int, to_int, wrap_signed. intros H.
  change (2 ^ (32 - 1)) with 2147483648 in *.
  change (2 ^ 31) with 2147483648 in *.
  change (2 ^ 32) with 4294967296.
  rewrite Z.mod_small; lia.
Qed.

Lemma to_ulong_id (x : Z) : is_ulong x -> to_ulong x = x.
Proof. unfold is_ulong, to_ulong, wrap_unsigned. intros H. now apply Z.mod_small. Qed.

Lemma to_uint_id (x : Z) : is_uint x -> to_uint x = x.
Proof. unfold is_uint, to_uint, wrap_unsigned. intros H. now apply Z.mod_small. Qed.

Lemma to_uint_range (x : Z) : is_uint (to_uint x).
Proof. unfold is_uint, to_uint, wrap_unsigned. apply Z.mod_pos_bound. reflexivity. Qed.

Lemma to_ulong_range (x : Z) : is_ulong (to_ulong x).
Proof. unfold is_ulong, to_ulong, wrap_unsigned. apply Z.mod_pos_bound. reflexivity. Qed.

Lemma to_int_even (x : Z) : Z.even (to_int x) = Z.even x.
Proof.
  unfold to_int, wrap_signed.
  change (2 ^ (32 - 1)) with 2147483648. change (2 ^ 32) with (2 * 2147483648).
  pose proof (Z.div_mod (x + 2147483648) (2 * 2147483648) ltac:(lia)) as E.
  replace ((x + 2147483648) mod (2 * 2147483648) - 2147483648)
    with (x + 2 * (- 2147483648 * ((x + 2147483648) / (2 * 2147483648)))) by lia.
  now rewrite Z.even_add_mul_2.
Qed.

End Wrap.

(** ** Carrier Timing Engine *)

Section Carrier.

Lemma base_period (f : Z) :
  is_uint f -> 0 < f ->
  ldiv (lmul 1000 1000000) f = 1000000000 / f /\ 0 <= 1000000000 / f <= 1000000000.
Proof.
  intros Hf Hpos.
  assert (B : 0 <= 1000000000 / f <= 1000000000).
  { split; [apply Z.div_pos; lia|].
    apply Z.div_le_upper_bound; nia. }
  split; [|exact B].
  unfold ldiv, lmul. change (to_long (1000 * 1000000)) with 1000000000.
  rewrite Z.quot_div_nonneg by lia.
  apply to_long_id. unfold is_long.
  change (2 ^ 63) with 9223372036854775808. lia.
Qed.

Lemma derived_period_eq (f : Z) :
  is_uint f -> 0 < f -> derived_period f = 1000000000 / f.
Proof.
  intros Hf Hpos. unfold derived_period.
  destruct (base_period f Hf Hpos) as [-> B].
  apply to_ulong_id. unfold is_ulong.
  change (2 ^ 64) with 18446744073709551616. lia.
Qed.

(** a product of a period and an [unsigned int] fits both [long] and
    [unsigned long] *)
Lemma period_times_fits (p d : Z) :
  0 <= p <= 1000000000 -> is_uint d ->
  lmul p d = p * d /\ ulmul p d = p * d /\ 0 <= p * d < 2 ^ 62.
Proof.
  unfold is_uint. change (2 ^ 32) with 4294967296.
  change (2 ^ 62) with 4611686018427387904. intros Hp Hd.
  assert (B : 0 <= p * d < 4611686018427387904) by nia.
  repeat split; try lia.
  - apply to_long_id. unfold is_long. change (2 ^ 63) with 9223372036854775808. lia.
  - apply to_ulong_id. unfold is_ulong. change (2 ^ 64) with 18446744073709551616. lia.
Qed.

Lemma ldiv_100 (x : Z) : 0 <= x < 2 ^ 62 -> ldiv x 100 = x / 100.
Proof.
  change (2 ^ 62) with 4611686018427387904. intros Hx. unfold ldiv.
  rewrite Z.quot_div_nonneg by lia.
  assert (0 <= x / 100 <= x).
  { split; [apply Z.div_pos; lia|]. apply Z.div_le_upper_bound; lia. }
  apply to_long_id. unfold is_long. change (2 ^ 63) with 9223372036854775808. lia.
Qed.

Lemma checked_pulse_eq (d f : Z) :
  is_uint d -> is_uint f -> 0 < f ->
  checked_pulse d f = (1000000000 / f) * d / 100.
Proof.
  intros Hd Hf Hpos. unfold checked_pulse.
  destruct (base_period f Hf Hpos) as [-> B].
  destruct (period_times_fits _ _ B Hd) as (-> & _ & R).
  now apply ldiv_100.
Qed.

Lemma checked_space_eq (d f : Z) :
  is_uint d -> is_uint f -> 0 < f ->
  checked_space d f = (1000000000 / f) * to_uint (100 - d) / 100.
Proof.
  intros Hd Hf Hpos. unfold checked_space, uisub.
  destruct (base_period f Hf Hpos) as [-> B].
  destruct (period_times_fits _ _ B (to_uint_range (100 - d))) as (-> & _ & R).
  now apply ldiv_100.
Qed.

Lemma derived_pulse_width_eq (d f : Z) :
  is_uint d -> is_uint f -> 0 < f ->
  derived_pulse_width d f = (1000000000 / f) * d / 100.
Proof.
  intros Hd Hf Hpos. unfold derived_pulse_width, uldiv.
  rewrite derived_period_eq by assumption.
  destruct (base_period f Hf Hpos) as [_ B].
  now destruct (period_times_fits _ _ B Hd) as (_ & -> & _).
Qed.

(** what [init_timing_params] does, in terms of its two guards *)
Lemma init_timing_params_cases (d f : Z) (s : state) :
  0 < f ->
  init_timing_params d f s =
    if (checked_pulse d f <=? LIRC_TRANSMITTER_LATENCY)
       || (checked_space d f <=? LIRC_TRANSMITTER_LATENCY)
    then (- EINVAL, s)
    else
      let c := {| freq := f; duty_cycle := d; period := derived_period f;
                  pulse_width := derived_pulse_width d f;
                  space_width := derived_space_width d f |} in
      (0, dprintk "in init_timing_params, freq=%d pulse=%ld, space=%ld"
            [f; to_long (derived_pulse_width d f); to_long (derived_space_width d f)]
            (set_car c s)).
Proof.
  intros Hpos. unfold init_timing_params.
  destruct (Z.ltb_spec 0 f) as [_|]; [|lia].
  fold (checked_pulse d f). fold (checked_space d f).
  destruct (checked_pulse d f <=? LIRC_TRANSMITTER_LATENCY); [reflexivity|].
  destruct (checked_space d f <=? LIRC_TRANSMITTER_LATENCY); reflexivity.
Qed.

Lemma car_dprintk (t : string) (a : list Z) (s : state) : car (dprintk t a s) = car s.
Proof. unfold dprintk, printk, emit. now destruct (debug (cfg s)). Qed.

End Carrier.

Section CarrierClaims.

Lemma derived_space_width_small_duty (d f : Z) :
  is_uint d -> is_uint f -> 0 < f -> d <= 100 ->
  derived_space_width d f = 1000000000 / f - (1000000000 / f) * d / 100
  /\ checked_space d f <= derived_space_width d f.
Proof.
  intros Hd Hf Hpos Hle.
  rewrite checked_space_eq by assumption.
  unfold derived_space_width, ulsub.
  rewrite derived_pulse_width_eq, derived_period_eq by assumption.
  destruct (base_period f Hf Hpos) as [_ B].
  set (p := 1000000000 / f) in *.
  assert (U : to_uint (100 - d) = 100 - d).
  { apply to_uint_id. unfold is_uint in *. change (2 ^ 32) with 4294967296 in *. lia. }
  rewrite U.
  assert (Q : 0 <= p * d / 100 <= p).
  { unfold is_uint in Hd. split; [apply Z.div_pos; nia|].
    apply Z.div_le_upper_bound; nia. }
  rewrite to_ulong_id
    by (unfold is_ulong; change (2 ^ 64) with 18446744073709551616; lia).
  split; [reflexivity|].
  replace (p * (100 - d)) with (100 * p - p * d) by ring.
  assert (0 <= p * d) by (unfold is_uint in Hd; nia).
  generalize dependent (p * d). intros x Q Hx.
  Z.div_mod_to_equations. lia.
Qed.

Lemma derived_space_width_wraps (d f : Z) :
  is_uint d -> is_uint f -> 0 < f -> 100 < d -> f <= 500000 ->
  2 ^ 63 < derived_space_width d f.
Proof.
  intros Hd Hf Hpos Hgt Hlow.
  unfold derived_space_width, ulsub.
  rewrite derived_pulse_width_eq, derived_period_eq by assumption.
  destruct (base_period f Hf Hpos) as [_ B].
  assert (P : 2000 <= 1000000000 / f) by (apply Z.div_le_lower_bound; lia).
  set (p := 1000000000 / f) in *.
  destruct (period_times_fits _ _ B Hd) as (_ & _ & R).
  assert (L : 101 * p <= p * d) by nia.
  unfold to_ulong, wrap_unsigned.
  change (2 ^ 62) with 4611686018427387904 in R.
  change (2 ^ 63) with 9223372036854775808.
  change (2 ^ 64) with 18446744073709551616.
  generalize dependent (p * d). intros x R L.
  Z.div_mod_to_equations. lia.
Qed.

(** C6: for every (duty_cycle, frequency) pair with frequency > 0 and a
    duty cycle of the contract, 1 to 100 (the theorem takes any pair with
    duty_cycle at most 100 or frequency at most 500000, which covers the
    contract and every pair the control operations and [set_use_inc] pass
    on), if either derived half-width (pulse_width or space_width) fails to
    exceed the minimum transmitter latency, [init_timing_params] returns
    -EINVAL and leaves the whole driver state, so all of freq, duty_cycle,
    period, pulse_width and space_width, unchanged. *)
Theorem init_timing_params_rejects_short_half_width (d f : Z) (s : state) :
  is_uint d -> is_uint f -> 0 < f ->
  d <= 100 \/ f <= 500000 ->
  derived_pulse_width d f <= LIRC_TRANSMITTER_LATENCY
  \/ derived_space_width d f <= LIRC_TRANSMITTER_LATENCY ->
  init_timing_params d f s = (- EINVAL, s).
Proof.
  intros Hd Hf Hpos Hdom Hshort.
  rewrite init_timing_params_cases by assumption.
  assert (G : checked_pulse d f <= LIRC_TRANSMITTER_LATENCY
              \/ checked_space d f <= LIRC_TRANSMITTER_LATENCY).
  { destruct Hshort as [Hp|Hs].
    - left. rewrite checked_pulse_eq by assumption.
      now rewrite derived_pulse_width_eq in Hp by assumption.
    - right. destruct (Z.le_gt_cases d 100) as [Hle|Hgt].
      + destruct (derived_space_width_small_duty d f Hd Hf Hpos Hle) as [_ C]. lia.
      + destruct Hdom as [?|Hlow]; [lia|].
        pose proof (derived_space_width_wraps d f Hd Hf Hpos Hgt Hlow) as W.
        unfold LIRC_TRANSMITTER_LATENCY in Hs.
        change (2 ^ 63) with 9223372036854775808 in W. lia. }
  destruct G as [G|G]; apply Z.leb_le in G; rewrite G;
    [reflexivity | now rewrite orb_true_r].
Qed.

(** C6 at duty cycle 50 and 12 MHz in the initial state: the period is 83,
    both half-widths are 41 or 42 *)
Lemma init_timing_params_rejects_short_half_width_witness :
  init_timing_params 50 12000000 initial_state = (- EINVAL, initial_state).
Proof.
  apply init_timing_params_rejects_short_half_width.
  - unfold is_uint. vm_compute. split; [discriminate | reflexivity].
  - unfold is_uint. vm_compute. split; [discriminate | reflexivity].
  - reflexivity.
  - left. vm_compute. discriminate.
  - left. vm_compute. discriminate.
Defined.

(** The bound on the pair cannot be dropped: outside the contract, at duty
    cycle 101 and 16666666 Hz, which no caller in the file passes, the
    period is 60, the derived space_width is 0, and [init_timing_params]
    returns 0 and stores the new parameters, as its second guard computes
    100 - duty_cycle in unsigned arithmetic. *)
Lemma init_timing_params_accepts_zero_space_width :
  is_uint 101 /\ is_uint 16666666
  /\ derived_space_width 101 16666666 <= LIRC_TRANSMITTER_LATENCY
  /\ fst (init_timing_params 101 16666666 initial_state) = 0
  /\ space_width (car (snd (init_timing_params 101 16666666 initial_state))) = 0
  /\ init_timing_params 101 16666666 initial_state <> (- EINVAL, initial_state).
Proof.
  repeat split; try (vm_compute; discriminate); try reflexivity.
Qed.

(** C7, as amended: for every (duty_cycle, frequency) pair with frequency > 0
    for which both guarded quantities, period * duty_cycle / 100 and
    period * (100 - duty_cycle) / 100 (rounded down, 100 - duty_cycle in
    unsigned int arithmetic), exceed the minimum transmitter latency,
    [init_timing_params] returns 0 and stores the pair with
    period = 1e9 / frequency, pulse_width = period * duty_cycle / 100 and
    pulse_width + space_width == period (in unsigned long arithmetic, and
    as plain integers when duty_cycle is at most 100). *)
Theorem init_timing_params_accepts_checked_widths (d f : Z) (s : state) :
  is_uint d -> is_uint f -> 0 < f ->
  LIRC_TRANSMITTER_LATENCY < checked_pulse d f ->
  LIRC_TRANSMITTER_LATENCY < checked_space d f ->
  let r := init_timing_params d f s in
  let c := car (snd r) in
  fst r = 0
  /\ freq c = f /\ duty_cycle c = d
  /\ period c = 1000000000 / f
  /\ pulse_width c = period c * d / 100
  /\ space_width c = ulsub (period c) (pulse_width c)
  /\ uladd (pulse_width c) (space_width c) = period c
  /\ (d <= 100 -> pulse_width c + space_width c = period c).
Proof.
  intros Hd Hf Hpos Hp Hs r c. subst c r.
  rewrite init_timing_params_cases by assumption.
  apply Z.leb_gt in Hp, Hs. rewrite Hp, Hs. cbn [orb fst snd].
  rewrite car_dprintk. cbn [car set_car freq duty_cycle period pulse_width space_width].
  rewrite derived_period_eq by assumption.
  assert (E : derived_pulse_width d f = 1000000000 / f * d / 100)
    by now apply derived_pulse_width_eq.
  assert (F : derived_space_width d f
              = ulsub (1000000000 / f) (1000000000 / f * d / 100)).
  { unfold derived_space_width. now rewrite E, derived_period_eq. }
  rewrite E, F.
  destruct (base_period f Hf Hpos) as [_ B].
  repeat split.
  - unfold uladd, ulsub, to_ulong, wrap_unsigned.
    rewrite Zplus_mod_idemp_r.
    replace (1000000000 / f * d / 100 + (1000000000 / f - 1000000000 / f * d / 100))
      with (1000000000 / f) by ring.
    apply Z.mod_small. change (2 ^ 64) with 18446744073709551616. lia.
  - intros Hle.
    destruct (derived_space_width_small_duty d f Hd Hf Hpos Hle) as [S _].
    rewrite F in S. rewrite S. ring.
Qed.

(** the amended C7 at the defaults, duty cycle 50 and 38 kHz *)
Lemma init_timing_params_accepts_checked_widths_witness :
  fst (init_timing_params 50 38000 initial_state) = 0
  /\ period (car (snd (init_timing_params 50 38000 initial_state))) = 26315
  /\ pulse_width (car (snd (init_timing_params 50 38000 initial_state))) = 13157
  /\ space_width (car (snd (init_timing_params 50 38000 initial_state))) = 13158.
Proof.
  assert (U50 : is_uint 50) by (unfold is_uint; vm_compute; split; [discriminate | reflexivity]).
  assert (U38 : is_uint 38000) by (unfold is_uint; vm_compute; split; [discriminate | reflexivity]).
  destruct (init_timing_params_accepts_checked_widths 50 38000 initial_state
              U50 U38 eq_refl eq_refl eq_refl)
    as (R & _ & _ & P & W & S & _).
  split; [exact R|]. split; [exact P|]. split.
  - rewrite W, P. reflexivity.
  - rewrite S, W, P. reflexivity.
Defined.

(** C7, as stated, fails: at duty cycle 99 and 198019 Hz the period is 5050,
    the derived pulse_width is 4999 and the derived space_width is 51, both
    above the latency of 50, yet the second guard computes
    5050 * 1 / 100 = 50 and [init_timing_params] returns -EINVAL. *)
Lemma init_timing_params_rejects_space_width_51 :
  is_uint 99 /\ is_uint 198019
  /\ LIRC_TRANSMITTER_LATENCY < derived_pulse_width 99 198019
  /\ LIRC_TRANSMITTER_LATENCY < derived_space_width 99 198019
  /\ derived_space_width 99 198019 = 51
  /\ checked_space 99 198019 = 50
  /\ init_timing_params 99 198019 initial_state = (- EINVAL, initial_state).
Proof.
  repeat split; try (vm_compute; discriminate); reflexivity.
Qed.

End CarrierClaims.

(** ** State bookkeeping *)

Section Frames.

Lemma set_trace_same (s : state) : set_trace (trace s) s = s.
Proof. now destruct s. Qed.

Lemma dprintk_trace (t : string) (a : list Z) (s : state) :
  trace (dprintk t a s) = trace s ++ (if debug (cfg s) then [Printk t a] else []).
Proof.
  unfold dprintk, printk, emit. destruct (debug (cfg s)); cbn.
  - reflexivity.
  - now rewrite app_nil_r.
Qed.

Lemma dprintk_frame (t : string) (a : list Z) (s : state) :
  dprintk t a s = set_trace (trace (dprintk t a s)) s.
Proof.
  unfold dprintk, printk, emit. destruct (debug (cfg s)).
  - now destruct s.
  - now rewrite set_trace_same.
Qed.

Lemma dprintk_quiet (t : string) (a : list Z) (s : state) :
  debug (cfg s) = false -> dprintk t a s = s.
Proof. unfold dprintk. now intros ->. Qed.

Lemma rbuf_dprintk (t : string) (a : list Z) (s : state) : rbuf (dprintk t a s) = rbuf s.
Proof. unfold dprintk, printk, emit. now destruct (debug (cfg s)). Qed.

Lemma cfg_dprintk (t : string) (a : list Z) (s : state) : cfg (dprintk t a s) = cfg s.
Proof. unfold dprintk, printk, emit. now destruct (debug (cfg s)). Qed.

Lemma sense_dprintk (t : string) (a : list Z) (s : state) : sense (dprintk t a s) = sense s.
Proof. unfold dprintk, printk, emit. now destruct (debug (cfg s)). Qed.

Lemma sense_rbwrite (l : Z) (s : state) : sense (rbwrite l s) = sense s.
Proof.
  unfold rbwrite. destruct (lirc_buffer_full (rbuf s)).
  - apply sense_dprintk.
  - reflexivity.
Qed.

Lemma sense_frbwrite (l : Z) (s : state) : sense (frbwrite l s) = sense s.
Proof.
  unfold frbwrite. cbv zeta.
  repeat match goal with
         | |- context [if ?c then _ else _] => destruct c
         end;
    repeat (rewrite ?sense_rbwrite; cbn [sense set_frb]); reflexivity.
Qed.

End Frames.

(** ** Ring Buffer *)

Section RingBuffer.

Lemma drain_loop_all (b : lirc_buffer) (fuel : nat) :
  (length (buf_fifo b) <= fuel)%nat -> drain_loop fuel b = buf_fifo b.
Proof.
  revert b. induction fuel as [|k IH]; intros [c n q o]; cbn [buf_fifo].
  - destruct q; cbn; [reflexivity | lia].
  - destruct q as [|l q]; cbn; [reflexivity|]. intros H.
    f_equal.
    apply (IH {| buf_chunk_size := c; buf_size := n; buf_fifo := q; buf_overflow := o |}).
    cbn. lia.
Qed.

Lemma drain_fifo (b : lirc_buffer) : drain b = buf_fifo b.
Proof. unfold drain. now apply drain_loop_all. Qed.

Lemma rbwrite_full (l : Z) (s : state) :
  lirc_buffer_full (rbuf s) = true -> rbwrite l s = dprintk "Buffer overrun" [] s.
Proof. unfold rbwrite. now intros ->. Qed.

Lemma rbwrite_room (l : Z) (s : state) :
  lirc_buffer_full (rbuf s) = false ->
  rbwrite l s = set_rbuf (buf_push l (rbuf s)) s.
Proof. unfold rbwrite, lirc_buffer_write. now intros ->. Qed.

Lemma full_no_room (b : lirc_buffer) : lirc_buffer_full b = true <-> room b = 0%nat.
Proof.
  unfold lirc_buffer_full, lirc_buffer_len, room. rewrite Z.leb_le. lia.
Qed.

(** a run of writes stores as many of the oldest records as there is room
    for, behind what the buffer already holds *)
Lemma rbwrite_all_fifo (ls : list Z) (s : state) :
  buf_fifo (rbuf (rbwrite_all ls s)) = buf_fifo (rbuf s) ++ firstn (room (rbuf s)) ls
  /\ buf_size (rbuf (rbwrite_all ls s)) = buf_size (rbuf s).
Proof.
  revert s. induction ls as [|l ls IH]; intros s.
  - cbn. now rewrite firstn_nil, app_nil_r.
  - unfold rbwrite_all. cbn [fold_left]. fold (rbwrite_all ls (rbwrite l s)).
    destruct (IH (rbwrite l s)) as [F S]. rewrite F, S. clear IH F S.
    destruct (lirc_buffer_full (rbuf s)) eqn:E.
    + rewrite rbwrite_full, rbuf_dprintk by assumption.
      apply full_no_room in E. rewrite E. cbn. now rewrite app_nil_r.
    + rewrite rbwrite_room by assumption. cbn [rbuf set_rbuf buf_fifo buf_size].
      assert (R : room (rbuf s) <> 0%nat).
      { intros R. apply full_no_room in R. congruence. }
      unfold room, buf_push in *. cbn [buf_fifo buf_size]. rewrite length_app.
      cbn [length].
      destruct (Z.to_nat (buf_size (rbuf s)) - length (buf_fifo (rbuf s)))%nat
        as [|k] eqn:K; [congruence|].
      replace (Z.to_nat (buf_size (rbuf s)) - (length (buf_fifo (rbuf s)) + 1))%nat
        with k by lia.
      cbn [firstn]. now rewrite <- app_assoc.
Qed.

(** the producer never reaches the write that would set the flag *)
Lemma rbwrite_overflow_flag (l : Z) (s : state) :
  buf_overflow (rbuf (rbwrite l s)) = buf_overflow (rbuf s).
Proof.
  destruct (lirc_buffer_full (rbuf s)) eqn:E.
  - now rewrite rbwrite_full, rbuf_dprintk.
  - now rewrite rbwrite_room.
Qed.

Lemma rbwrite_all_overflow_flag (ls : list Z) (s : state) :
  buf_overflow (rbuf (rbwrite_all ls s)) = buf_overflow (rbuf s).
Proof.
  revert s. induction ls as [|l ls IH]; intros s; [reflexivity|].
  unfold rbwrite_all. cbn [fold_left]. fold (rbwrite_all ls (rbwrite l s)).
  now rewrite IH, rbwrite_overflow_flag.
Qed.

End RingBuffer.

Section RingBufferClaims.

(** C4, as amended: a write into the full Ring Buffer is silently dropped:
    it returns at once, the stored contents and everything else in the
    driver state are unchanged, and the overflow flag is NOT set, since
    [rbwrite] returns before it reaches the buffer's write (the only mark is
    a "Buffer overrun" log line when debugging is on; with debugging off the
    state is exactly what it was).  Writing N+1 records into an empty
    capacity-N buffer refuses the last one, leaves the flag as it was, and
    draining yields exactly the first N records in FIFO order. *)
Theorem rbwrite_full_drops_newest :
  (forall (l : Z) (s : state),
      lirc_buffer_full (rbuf s) = true ->
      rbuf (rbwrite l s) = rbuf s
      /\ buf_overflow (rbuf (rbwrite l s)) = buf_overflow (rbuf s)
      /\ rbwrite l s = set_trace (trace (rbwrite l s)) s
      /\ trace (rbwrite l s)
         = trace s ++ (if debug (cfg s) then [Printk "Buffer overrun" []] else [])
      /\ (debug (cfg s) = false -> rbwrite l s = s))
  /\ (forall (N : nat) (ls : list Z) (s : state),
      buf_fifo (rbuf s) = [] -> buf_size (rbuf s) = Z.of_nat N -> length ls = S N ->
      lirc_buffer_full (rbuf (rbwrite_all (firstn N ls) s)) = true
      /\ rbwrite_all ls s = rbwrite (last ls 0) (rbwrite_all (firstn N ls) s)
      /\ buf_overflow (rbuf (rbwrite_all ls s)) = buf_overflow (rbuf s)
      /\ drain (rbuf (rbwrite_all ls s)) = firstn N ls).
Proof.
  split.
  - intros l s F. rewrite rbwrite_full by assumption.
    rewrite rbuf_dprintk, dprintk_trace.
    repeat split.
    + rewrite <- dprintk_trace. apply dprintk_frame.
    + apply dprintk_quiet.
  - intros N ls s E C L.
    assert (R : room (rbuf s) = N) by (unfold room; rewrite E, C; cbn; lia).
    split; [|split; [|split]].
    + destruct (rbwrite_all_fifo (firstn N ls) s) as [F S].
      unfold lirc_buffer_full, lirc_buffer_len. rewrite F, S, E, C, R.
      cbn [app]. rewrite firstn_firstn, Nat.min_id, length_firstn. apply Z.leb_le. lia.
    + rewrite <- (firstn_skipn N ls) at 1.
      unfold rbwrite_all at 1. rewrite fold_left_app.
      fold (rbwrite_all (firstn N ls) s).
      assert (K : skipn N ls = [last ls 0]).
      { assert (Hk : length (skipn N ls) = 1%nat) by (rewrite length_skipn; lia).
        destruct (skipn N ls) as [|x [|y t]] eqn:Sk; try discriminate.
        f_equal. rewrite <- (firstn_skipn N ls), Sk. now rewrite last_last. }
      rewrite K. reflexivity.
    + apply rbwrite_all_overflow_flag.
    + rewrite drain_fifo. destruct (rbwrite_all_fifo ls s) as [F _].
      now rewrite F, E, R.
Qed.

(** the amended C4 on the driver's own buffer: filled by 256 writes it
    refuses the 257th, and 257 writes into the empty buffer drain as the
    first 256 *)
Lemma rbwrite_full_drops_newest_witness :
  rbwrite 257 full_state = full_state
  /\ drain (rbuf (rbwrite_all (map Z.of_nat (seq 1 257)) initial_state))
     = map Z.of_nat (seq 1 256).
Proof.
  destruct rbwrite_full_drops_newest as [Drop Fifo]. split.
  - refine (proj2 (proj2 (proj2 (proj2 (Drop 257 full_state _)))) _).
    + vm_compute. reflexivity.
    + reflexivity.
  - refine (eq_trans
              (proj2 (proj2 (proj2
                 (Fifo 256%nat (map Z.of_nat (seq 1 257)) initial_state _ _ _))))
              _).
    + reflexivity.
    + reflexivity.
    + vm_compute. reflexivity.
    + vm_compute. reflexivity.
Defined.

(** C4, as stated, fails: the driver's buffer, filled to capacity with no
    write refused so far, has its overflow flag clear, and after the
    refused 257th write the flag is still clear: the state is exactly what
    it was, so nothing a consumer can observe, no flag of any kind, has
    been set by the overflow. *)
Lemma rbwrite_full_sets_no_flag :
  lirc_buffer_full (rbuf full_state) = true
  /\ buf_overflow (rbuf full_state) = false
  /\ buf_overflow (rbuf (rbwrite 257 full_state)) = false
  /\ rbwrite 257 full_state = full_state
  /\ ~ (exists flag : state -> bool,
          flag full_state = false /\ flag (rbwrite 257 full_state) = true).
Proof.
  assert (E : rbwrite 257 full_state = full_state) by (vm_compute; reflexivity).
  split; [vm_compute; reflexivity|]. split; [vm_compute; reflexivity|].
  split; [vm_compute; reflexivity|]. split; [exact E|].
  intros (flag & Clear & Set'). rewrite E in Set'. congruence.
Qed.

End RingBufferClaims.

(** ** Noise Filter *)

Section NoiseFilter.

(** an unarmed filter arms on a long space and writes nothing *)
Lemma frbwrite_arm (l : Z) (s : state) :
  ptr (frb s) = 0 -> Z.land l PULSE_BIT = 0 -> 20000 < l ->
  frbwrite l s = set_frb {| pulse := pulse (frb s); space := l; ptr := 1 |} s.
Proof.
  intros P B L. unfold frbwrite. cbv zeta. rewrite P, B. cbn [Z.ltb Z.compare andb].
  change (truthy 0) with false. cbn [negb Z.eqb].
  apply Z.ltb_lt in L. now rewrite L.
Qed.

(** an armed filter adds a short pulse to the pending total and writes
    nothing *)
Lemma frbwrite_accumulate (l : Z) (s : state) :
  0 < ptr (frb s) -> Z.land l PULSE_BIT <> 0 ->
  to_int (pulse (frb s) + Z.land l PULSE_MASK) <= 250 ->
  frbwrite l s =
    set_frb {| pulse := to_int (pulse (frb s) + Z.land l PULSE_MASK);
               space := space (frb s); ptr := ptr (frb s) |} s.
Proof.
  intros P B L. unfold frbwrite. cbv zeta.
  apply Z.ltb_lt in P. rewrite P.
  unfold truthy. apply Z.eqb_neq in B. rewrite B. cbn [negb andb].
  destruct (Z.ltb_spec 250 (to_int (pulse (frb s) + Z.land l PULSE_MASK))); [lia|].
  reflexivity.
Qed.

(** an armed filter flushes the pending pair on a short space, then passes
    the space on *)
Lemma frbwrite_flush (l : Z) (s : state) :
  0 < ptr (frb s) -> Z.land l PULSE_BIT = 0 -> l <= 20000 ->
  frbwrite l s =
    rbwrite l
      (set_frb {| pulse := 0; space := space (frb s); ptr := 0 |}
         (rbwrite (Z.lor (pulse (frb s)) PULSE_BIT) (rbwrite (space (frb s)) s))).
Proof.
  intros P B L. unfold frbwrite. cbv zeta. rewrite B.
  change (truthy 0) with false. rewrite andb_false_r. cbn [negb].
  destruct (Z.eqb_spec (ptr (frb s)) 0); [lia|].
  destruct (Z.ltb_spec 20000 l); [lia|]. reflexivity.
Qed.

(** C8: from the reset state and with room for three records downstream,
    feeding SPACE 25000, PULSE 100, SPACE 1000 writes nothing after the
    first input, nothing after the second, and after the third exactly
    SPACE 25000, PULSE 100 with the pulse bit set, SPACE 1000, in that
    order, behind what the buffer held. *)
Theorem frbwrite_space_pulse_space (s : state) :
  frb s = {| pulse := 0; space := 0; ptr := 0 |} ->
  (3 <= room (rbuf s))%nat ->
  let s1 := frbwrite 25000 s in
  let s2 := frbwrite (Z.lor 100 PULSE_BIT) s1 in
  let s3 := frbwrite 1000 s2 in
  rbuf s1 = rbuf s /\ trace s1 = trace s
  /\ rbuf s2 = rbuf s /\ trace s2 = trace s
  /\ buf_fifo (rbuf s3) = buf_fifo (rbuf s) ++ [25000; Z.lor 100 PULSE_BIT; 1000]
  /\ trace s3 = trace s
  /\ ptr (frb s3) = 0 /\ pulse (frb s3) = 0.
Proof.
  intros R Hroom s1 s2 s3.
  assert (E1 : s1 = set_frb {| pulse := 0; space := 25000; ptr := 1 |} s).
  { subst s1. rewrite frbwrite_arm; rewrite ?R; cbn; reflexivity || lia. }
  assert (E2 : s2 = set_frb {| pulse := 100; space := 25000; ptr := 1 |} s).
  { subst s2. rewrite E1, frbwrite_accumulate; cbn; reflexivity || lia. }
  assert (E3 : s3 = rbwrite 1000
                      (set_frb {| pulse := 0; space := 25000; ptr := 0 |}
                         (rbwrite (Z.lor 100 PULSE_BIT) (rbwrite 25000 s2)))).
  { subst s3. rewrite E2, frbwrite_flush; cbn; reflexivity || lia. }
  assert (F3 : buf_fifo (rbuf s3) = buf_fifo (rbuf s) ++ [25000; Z.lor 100 PULSE_BIT; 1000]
               /\ trace s3 = trace s /\ frb s3 = {| pulse := 0; space := 25000; ptr := 0 |}).
  { rewrite E3, E2. clear E1 E2 E3 s1 s2 s3.
    assert (N1 : lirc_buffer_full (rbuf s) = false).
    { destruct (lirc_buffer_full (rbuf s)) eqn:E; [|reflexivity].
      apply full_no_room in E. lia. }
    rewrite (rbwrite_room 25000) by exact N1. unfold buf_push.
    cbn [rbuf set_rbuf set_frb buf_fifo buf_size buf_chunk_size].
    unfold room in Hroom.
    unfold rbwrite, lirc_buffer_write, buf_push, lirc_buffer_full, lirc_buffer_len,
      set_frb, set_rbuf.
    cbn [rbuf buf_fifo buf_size buf_chunk_size cfg trace frb].
    rewrite !length_app. cbn [length].
    destruct (Z.leb_spec (buf_size (rbuf s))
                (Z.of_nat (length (buf_fifo (rbuf s)) + 1))); [lia|].
    cbn [rbuf buf_fifo buf_size buf_chunk_size cfg trace frb].
    rewrite !length_app. cbn [length].
    destruct (Z.leb_spec (buf_size (rbuf s))
                (Z.of_nat (length (buf_fifo (rbuf s)) + 1 + 1))); [lia|].
    cbn [rbuf buf_fifo buf_size buf_chunk_size cfg trace frb].
    rewrite <- !app_assoc. cbn [app]. repeat split. }
  destruct F3 as (F & T & Fr).
  rewrite E1, E2. cbn [rbuf trace set_frb]. rewrite F, T, Fr. cbn [ptr pulse].
  repeat split.
Qed.

(** C8 on the driver's initial state, whose buffer is empty *)
Lemma frbwrite_space_pulse_space_witness :
  buf_fifo (rbuf (frbwrite 25000 initial_state)) = []
  /\ buf_fifo (rbuf (frbwrite (Z.lor 100 PULSE_BIT) (frbwrite 25000 initial_state))) = []
  /\ buf_fifo (rbuf (frbwrite 1000
                       (frbwrite (Z.lor 100 PULSE_BIT) (frbwrite 25000 initial_state))))
     = [25000; 16777316; 1000].
Proof.
  assert (R : (3 <= room (rbuf initial_state))%nat) by (vm_compute; lia).
  destruct (frbwrite_space_pulse_space initial_state eq_refl R)
    as (B1 & _ & B2 & _ & F & _).
  split; [now rewrite B1|]. split; [now rewrite B2|]. exact F.
Defined.

End NoiseFilter.

(** ** Receive Decoder *)

Section Records.

Lemma land_mask_small (x : Z) : 0 <= x <= PULSE_MASK -> Z.land x PULSE_MASK = x.
Proof.
  intros H. change PULSE_MASK with (Z.ones 24) in *.
  rewrite Z.land_ones by lia. apply Z.mod_small.
  rewrite Z.ones_equiv in H. lia.
Qed.

Lemma land_bit_small (x : Z) : 0 <= x <= PULSE_MASK -> Z.land x PULSE_BIT = 0.
Proof.
  intros H. rewrite <- (land_mask_small x H), <- Z.land_assoc. apply Z.land_0_r.
Qed.

Lemma lor_bit_is_pulse (x : Z) : Z.land (Z.lor x PULSE_BIT) PULSE_BIT = PULSE_BIT.
Proof.
  apply Z.bits_inj'. intros n _. rewrite Z.land_spec, Z.lor_spec.
  now destruct (Z.testbit x n), (Z.testbit PULSE_BIT n).
Qed.

Lemma lor_bit_magnitude (x : Z) :
  Z.land (Z.lor x PULSE_BIT) PULSE_MASK = Z.land x PULSE_MASK.
Proof.
  rewrite Z.land_lor_distr_l. change (Z.land PULSE_BIT PULSE_MASK) with 0.
  apply Z.lor_0_r.
Qed.

(** the tag and the magnitude of the record built from an untagged [data] *)
Lemma tagged_record (signal sns data : Z) :
  0 <= data <= PULSE_MASK ->
  record_magnitude (tagged signal sns data) = data
  /\ record_is_pulse (tagged signal sns data) = negb (truthy (Z.lxor signal sns)).
Proof.
  intros H. unfold record_magnitude, record_is_pulse, tagged.
  destruct (truthy (Z.lxor signal sns)); cbn [negb].
  - now rewrite land_mask_small, land_bit_small.
  - now rewrite lor_bit_magnitude, lor_bit_is_pulse, land_mask_small.
Qed.

End Records.

Section Decoder.

Lemma sense_cases (s : state) : sense s <> -1 -> negb (sense s =? -1) = true.
Proof. intros H. now apply negb_true_iff, Z.eqb_neq. Qed.

(** the third branch of [irq_data]: an ordinary inter-edge interval *)
Lemma irq_data_interval (signal : Z) (tv : timeval) (s : state) :
  tv_normal tv -> tv_normal (lasttv s) ->
  tv_before tv (lasttv s) = false ->
  delta_us tv (lasttv s) <= 15000000 ->
  irq_data signal tv s = (delta_us tv (lasttv s), s)
  /\ 0 <= delta_us tv (lasttv s).
Proof.
  unfold tv_normal, delta_us, irq_data. intros N L B D. cbv zeta.
  rewrite B. unfold tv_before in B. apply orb_false_iff in B. destruct B as [B1 B2].
  apply Z.ltb_ge in B1.
  assert (B3 : tv_sec tv = tv_sec (lasttv s) -> tv_usec (lasttv s) <= tv_usec tv).
  { intros E. rewrite E, Z.eqb_refl in B2. cbn in B2. now apply Z.ltb_ge in B2. }
  clear B2.
  assert (S15 : 0 <= tv_sec tv - tv_sec (lasttv s) <= 15) by lia.
  assert (E1 : lsub (tv_sec tv) (tv_sec (lasttv s)) = tv_sec tv - tv_sec (lasttv s)).
  { apply to_long_id. unfold is_long. change (2 ^ 63) with 9223372036854775808. lia. }
  rewrite E1.
  destruct (Z.ltb_spec 15 (tv_sec tv - tv_sec (lasttv s))); [lia|].
  assert (E2 : lmul (tv_sec tv - tv_sec (lasttv s)) 1000000
               = (tv_sec tv - tv_sec (lasttv s)) * 1000000).
  { apply to_long_id. unfold is_long. change (2 ^ 63) with 9223372036854775808. lia. }
  assert (E3 : lsub (tv_usec tv) (tv_usec (lasttv s)) = tv_usec tv - tv_usec (lasttv s)).
  { apply to_long_id. unfold is_long. change (2 ^ 63) with 9223372036854775808. lia. }
  rewrite E2, E3. unfold ladd.
  rewrite to_long_id
    by (unfold is_long; change (2 ^ 63) with 9223372036854775808; lia).
  rewrite to_int_id by (unfold is_int; change (2 ^ 31) with 2147483648; lia).
  split; [reflexivity|].
  destruct (Z.eq_dec (tv_sec tv) (tv_sec (lasttv s))) as [E|E].
  - specialize (B3 E). lia.
  - lia.
Qed.

(** C3, as amended: for every edge handled with a calibrated sense, no clock
    regression and an inter-edge delta of at most 15,000,000 microseconds,
    the record handed to the Noise Filter has magnitude delta and is tagged
    SPACE exactly when the sampled line level XOR the sense polarity bit is
    non-zero, and PULSE otherwise. *)
Theorem irq_handler_interval_record (signal : Z) (tv : timeval) (s : state) :
  sense s <> -1 ->
  tv_normal tv -> tv_normal (lasttv s) ->
  tv_before tv (lasttv s) = false ->
  delta_us tv (lasttv s) <= 15000000 ->
  let r := irq_record signal tv s in
  irq_handler signal tv s = emit WakeUp (set_lasttv tv (frbwrite r s))
  /\ record_magnitude r = delta_us tv (lasttv s)
  /\ record_is_pulse r = negb (truthy (Z.lxor signal (sense s))).
Proof.
  intros Hs N L B D r. subst r.
  destruct (irq_data_interval signal tv s N L B D) as [E P].
  unfold irq_handler, irq_record. rewrite E, (sense_cases s Hs).
  split; [reflexivity|].
  apply tagged_record. unfold PULSE_MASK. lia.
Qed.

(** the amended C3 on an active-low receiver: the line goes low 500
    microseconds after the last edge, which closes a space *)
Lemma irq_handler_interval_record_witness :
  record_magnitude (irq_record 0 {| tv_sec := 0; tv_usec := 500 |} active_low_state) = 500
  /\ record_is_pulse (irq_record 0 {| tv_sec := 0; tv_usec := 500 |} active_low_state)
     = false.
Proof.
  refine (proj2 (irq_handler_interval_record 0 {| tv_sec := 0; tv_usec := 500 |}
                   active_low_state _ _ _ _ _)).
  - discriminate.
  - unfold tv_normal. cbn. lia.
  - unfold tv_normal. cbn. lia.
  - reflexivity.
  - vm_compute. discriminate.
Defined.

(** C3, as stated, fails: on an active-low receiver (sense 1) an edge that
    samples the line low has level XOR sense = 1, yet the record for the 500
    microseconds since the last edge carries no pulse bit: it is a SPACE, it
    is what reaches the buffer, and the handler's result differs from what
    the PULSE-tagged record would give. *)
Lemma irq_handler_xor_true_is_space :
  truthy (Z.lxor 0 (sense active_low_state)) = true
  /\ irq_record 0 {| tv_sec := 0; tv_usec := 500 |} active_low_state = 500
  /\ record_is_pulse (irq_record 0 {| tv_sec := 0; tv_usec := 500 |} active_low_state)
     = false
  /\ buf_fifo (rbuf (irq_handler 0 {| tv_sec := 0; tv_usec := 500 |} active_low_state))
     = [500]
  /\ irq_handler 0 {| tv_sec := 0; tv_usec := 500 |} active_low_state
     <> emit WakeUp (set_lasttv {| tv_sec := 0; tv_usec := 500 |}
                       (frbwrite (Z.lor 500 PULSE_BIT) active_low_state)).
Proof.
  repeat split. vm_compute. discriminate.
Qed.

(** C5, as amended: for every edge handled with a calibrated sense whose
    timestamp is earlier than the stored last timestamp, the record handed
    to the Noise Filter has the maximum magnitude and is tagged, as any
    other record, SPACE when the sampled level XOR the sense polarity bit is
    non-zero and PULSE otherwise; the anomaly is logged and the sense
    polarity is not modified. *)
Theorem irq_handler_clock_regression (signal : Z) (tv : timeval) (s : state) :
  sense s <> -1 ->
  tv_before tv (lasttv s) = true ->
  let r := irq_record signal tv s in
  let logged :=
    printk "%d %d %lx %lx %lx %lx" (tv_args signal s tv)
      (printk "AIEEEE: your clock just jumped backwards" [] s) in
  irq_handler signal tv s = emit WakeUp (set_lasttv tv (frbwrite r logged))
  /\ record_magnitude r = PULSE_MASK
  /\ record_is_pulse r = negb (truthy (Z.lxor signal (sense s)))
  /\ sense (irq_handler signal tv s) = sense s.
Proof.
  intros Hs B r logged. subst r logged.
  unfold irq_handler, irq_record, irq_data. rewrite B, (sense_cases s Hs).
  cbn [sense printk emit set_trace].
  split; [reflexivity|].
  split; [|split].
  - apply tagged_record. unfold PULSE_MASK. lia.
  - apply tagged_record. unfold PULSE_MASK. lia.
  - cbn [sense emit set_trace set_lasttv]. now rewrite sense_frbwrite.
Qed.

(** the amended C5 on an active-low receiver whose clock falls back from
    10 s to 5 s while the line reads high *)
Lemma irq_handler_clock_regression_witness :
  record_magnitude (irq_record 1 {| tv_sec := 5; tv_usec := 0 |} active_low_at_10s)
  = PULSE_MASK
  /\ record_is_pulse (irq_record 1 {| tv_sec := 5; tv_usec := 0 |} active_low_at_10s)
     = true
  /\ sense (irq_handler 1 {| tv_sec := 5; tv_usec := 0 |} active_low_at_10s) = 1.
Proof.
  refine (proj2 (irq_handler_clock_regression 1 {| tv_sec := 5; tv_usec := 0 |}
                   active_low_at_10s _ _)).
  - discriminate.
  - reflexivity.
Defined.

(** C5, as stated, fails: on an active-low receiver whose clock falls back
    from 10 s to 5 s while the line reads low, the record has the maximum
    magnitude but no pulse bit: it is a SPACE, it arms the Noise Filter
    as a long space, and the handler's result differs from what the
    PULSE-tagged record would give. *)
Lemma irq_handler_clock_regression_is_space :
  tv_before {| tv_sec := 5; tv_usec := 0 |} (lasttv active_low_at_10s) = true
  /\ irq_record 0 {| tv_sec := 5; tv_usec := 0 |} active_low_at_10s = PULSE_MASK
  /\ record_is_pulse (irq_record 0 {| tv_sec := 5; tv_usec := 0 |} active_low_at_10s)
     = false
  /\ frb (irq_handler 0 {| tv_sec := 5; tv_usec := 0 |} active_low_at_10s)
     = {| pulse := 0; space := PULSE_MASK; ptr := 1 |}
  /\ irq_handler 0 {| tv_sec := 5; tv_usec := 0 |} active_low_at_10s
     <> emit WakeUp
          (set_lasttv {| tv_sec := 5; tv_usec := 0 |}
             (frbwrite (Z.lor PULSE_MASK PULSE_BIT)
                (printk "%d %d %lx %lx %lx %lx"
                   (tv_args 0 active_low_at_10s {| tv_sec := 5; tv_usec := 0 |})
                   (printk "AIEEEE: your clock just jumped backwards" []
                      active_low_at_10s)))).
Proof.
  repeat split. vm_compute. discriminate.
Qed.

End Decoder.

(** ** Output lines *)

Section Lines.

Lemma set_trace_twice (a b : list event) (s : state) :
  set_trace a (set_trace b s) = set_trace a s.
Proof. reflexivity. Qed.

Lemma emit_frame (e : event) (s : state) : emit e s = set_trace (trace s ++ [e]) s.
Proof. reflexivity. Qed.

Lemma enabled_sets_frame (level : bool) (t : list event) (s : state) (idx : list nat) :
  enabled_sets level (set_trace t s) idx = enabled_sets level s idx.
Proof. reflexivity. Qed.

Lemma all_sets_frame (level : bool) (t : list event) (s : state) (idx : list nat) :
  all_sets level (set_trace t s) idx = all_sets level s idx.
Proof. reflexivity. Qed.

Lemma set_enabled_fold (level : bool) (idx : list nat) (acc : state) :
  fold_left
    (fun a i => if transmitter_enabled i a then gpio_set (out_pin a i) level a else a)
    idx acc
  = set_trace (trace acc ++ enabled_sets level acc idx) acc.
Proof.
  revert acc. induction idx as [|i idx IH]; intros acc; cbn [fold_left enabled_sets flat_map].
  - now rewrite app_nil_r, set_trace_same.
  - rewrite IH. fold (enabled_sets level acc idx).
    destruct (transmitter_enabled i acc); cbn [app].
    + unfold gpio_set. rewrite emit_frame, enabled_sets_frame, set_trace_twice.
      cbn [trace set_trace]. now rewrite <- app_assoc.
    + reflexivity.
Qed.

Lemma set_enabled_trace (level : bool) (s : state) :
  set_enabled level s
  = set_trace (trace s ++ enabled_sets level s (tx_range_unsigned s)) s.
Proof. apply set_enabled_fold. Qed.

Lemma set_all_fold (level : bool) (idx : list nat) (acc : state) :
  fold_left (fun a i => gpio_set (out_pin a i) level a) idx acc
  = set_trace (trace acc ++ all_sets level acc idx) acc.
Proof.
  revert acc. induction idx as [|i idx IH]; intros acc; cbn [fold_left all_sets map].
  - now rewrite app_nil_r, set_trace_same.
  - rewrite IH. fold (all_sets level acc idx).
    unfold gpio_set. rewrite emit_frame, all_sets_frame, set_trace_twice.
    cbn [trace set_trace]. now rewrite <- app_assoc.
Qed.

Lemma set_all_trace (level : bool) (s : state) :
  set_all level s = set_trace (trace s ++ all_sets level s (tx_range_int s)) s.
Proof. apply set_all_fold. Qed.

(** a busy wait appends waits, at least one, and touches nothing else *)
Lemma safe_udelay_loop_waits (fuel : nat) (usecs : Z) (s : state) :
  exists waits,
    safe_udelay_loop fuel usecs s = set_trace (trace s ++ waits) s
    /\ forallb is_wait waits = true /\ waits <> [].
Proof.
  revert usecs s. induction fuel as [|k IH]; intros usecs s; cbn [safe_udelay_loop].
  - exists [Udelay usecs]. repeat split. discriminate.
  - destruct (MAX_UDELAY_US <? usecs).
    + destruct (IH (ulsub usecs MAX_UDELAY_US) (udelay MAX_UDELAY_US s))
        as (w & E & W & _).
      exists (Udelay MAX_UDELAY_US :: w). rewrite E. unfold udelay.
      rewrite emit_frame, set_trace_twice. cbn [trace set_trace].
      rewrite <- app_assoc. repeat split; [exact W | discriminate].
    + exists [Udelay usecs]. repeat split. discriminate.
Qed.

Lemma safe_udelay_waits (usecs : Z) (s : state) :
  exists waits,
    safe_udelay usecs s = set_trace (trace s ++ waits) s
    /\ forallb is_wait waits = true /\ waits <> [].
Proof. apply safe_udelay_loop_waits. Qed.

Lemma enabled_sets_filter (level : bool) (s : state) (idx : list nat) :
  enabled_sets level s idx
  = map (fun i => GpioSet (out_pin s i) level)
      (filter (fun i => transmitter_enabled i s) idx).
Proof.
  induction idx as [|i idx IH]; cbn [enabled_sets flat_map filter]; [reflexivity|].
  fold (enabled_sets level s idx). rewrite IH.
  now destruct (transmitter_enabled i s).
Qed.

Lemma send_space_frame (length : Z) (s : state) :
  exists t, send_space length s = set_trace t s.
Proof.
  unfold send_space. cbv zeta. rewrite set_enabled_trace.
  destruct (length <=? 0).
  - eexists. reflexivity.
  - match goal with
    | |- context [safe_udelay ?u ?t] =>
        destruct (safe_udelay_waits u t) as (w & E & _)
    end.
    rewrite E, set_trace_twice. eexists. reflexivity.
Qed.

End Lines.

Section Transmitter.


End Transmitter.

(** ** Sense Calibrator *)

Section Calibrator.

Lemma probe_fold (get : nat -> Z) (idx : list nat) (nlow nhigh : Z) (acc : state) :
  0 <= nlow -> 0 <= nhigh ->
  nlow + Z.of_nat (length idx) < 2 ^ 31 ->
  nhigh + Z.of_nat (length idx) < 2 ^ 31 ->
  exists acc',
    fold_left
      (fun '(nlow, nhigh, acc) i =>
         let '(nlow', nhigh') :=
           if truthy (get i) then (to_int (nlow + 1), nhigh)
           else (nlow, to_int (nhigh + 1)) in
         (nlow', nhigh', msleep 40 acc))
      idx (nlow, nhigh, acc)
    = (nlow + votes_for_low get idx, nhigh + votes_for_high get idx, acc')
    /\ sense acc' = sense acc /\ cfg acc' = cfg acc.
Proof.
  revert nlow nhigh acc.
  induction idx as [|i idx IH]; intros nlow nhigh acc Hl Hh Bl Bh.
  - exists acc. unfold votes_for_low, votes_for_high. cbn. now rewrite !Z.add_0_r.
  - cbn [fold_left]. cbn [length] in Bl, Bh.
    unfold votes_for_low, votes_for_high. cbn [filter].
    change (2 ^ 31) with 2147483648 in *.
    destruct (truthy (get i)); cbn [negb length].
    + rewrite (to_int_id (nlow + 1))
        by (unfold is_int; change (2 ^ 31) with 2147483648; lia).
      destruct (IH (nlow + 1) nhigh (msleep 40 acc)) as (acc' & E & S & C); try lia.
      exists acc'. rewrite E. unfold votes_for_low, votes_for_high.
      repeat split; try assumption. f_equal. f_equal; lia.
    + rewrite (to_int_id (nhigh + 1))
        by (unfold is_int; change (2 ^ 31) with 2147483648; lia).
      destruct (IH nlow (nhigh + 1) (msleep 40 acc)) as (acc' & E & S & C); try lia.
      exists acc'. rewrite E. unfold votes_for_low, votes_for_high.
      repeat split; try assumption. f_equal. f_equal; lia.
Qed.

Lemma probe_votes_counts (get : nat -> Z) (s : state) :
  exists s',
    probe_votes get s = (high_samples get, low_samples get, s')
    /\ sense s' = sense s /\ cfg s' = cfg s.
Proof.
  unfold probe_votes.
  destruct (probe_fold get (seq 0 9) 0 0 s) as (s' & E & S & C);
    try lia; try (cbn; lia).
  exists s'. rewrite E. now repeat split.
Qed.

Lemma samples_total (get : nat -> Z) : high_samples get + low_samples get = 9.
Proof.
  unfold high_samples, low_samples.
  pose proof (filter_length (fun i => truthy (get i)) (seq 0 9)) as L.
  rewrite length_seq in L. lia.
Qed.

Lemma dprintk_append (t : string) (a : list Z) (s : state) :
  dprintk t a s
  = set_trace (trace s ++ (if debug (cfg s) then [Printk t a] else [])) s.
Proof. now rewrite (dprintk_frame t a s), dprintk_trace. Qed.

(** one search returns the first chip whose label compares equal and
    appends its log lines, when debugging is on *)
Lemma gpiochip_find_from_search (lib : gpiolib) (rest : list string) :
  forall s,
    gpiochip_find_from lib rest "tegra-gpio" s
    = (find (fun label => strcmp lib "tegra-gpio" label =? 0) rest,
       set_trace (trace s ++ (if debug (cfg s) then search_log lib rest else [])) s).
Proof.
  unfold search_log.
  induction rest as [|label rest IH]; intros s;
    cbn [gpiochip_find_from find visited map].
  - destruct (debug (cfg s)); now rewrite app_nil_r, set_trace_same.
  - unfold is_right_chip. cbv zeta.
    destruct (strcmp lib "tegra-gpio" label =? 0).
    + change (truthy 1) with true. cbv iota. now rewrite dprintk_append.
    + change (truthy 0) with false. cbv iota. rewrite IH, dprintk_append.
      cbn [cfg trace set_trace map]. rewrite set_trace_twice.
      destruct (debug (cfg s)); cbn [app];
        rewrite <- ?app_assoc, ?app_nil_r; reflexivity.
Qed.

Lemma gpiochip_find_search (lib : gpiolib) (s : state) :
  gpiochip_find lib "tegra-gpio" s
  = (the_chip lib,
     set_trace (trace s ++ (if debug (cfg s) then search_log lib (chips lib) else [])) s).
Proof. apply gpiochip_find_from_search. Qed.

Lemma find_log_printk (lib : gpiolib) (node : bool) (s : state) :
  forallb is_printk (find_log lib node s) = true
  /\ (debug (cfg s) = false -> find_log lib node s = []).
Proof.
  assert (P : forall rest, forallb is_printk (search_log lib rest) = true).
  { intros rest. unfold search_log. induction (visited lib rest) as [|l v IH];
      [reflexivity | exact IH]. }
  unfold find_log. split.
  - destruct (debug (cfg s)); [|reflexivity].
    destruct (chip_found lib || negb node); [apply P|].
    rewrite forallb_app, P. reflexivity.
  - now intros ->.
Qed.

(** without the chip [init_port] gives up after its searches *)
Lemma init_port_missing (lib : gpiolib) (node : bool) (to_irq : Z) (get : nat -> Z)
    (s : state) :
  chip_found lib = false ->
  init_port lib node to_irq get s
  = (- ENODEV,
     set_trace (trace s ++ find_log lib node s ++ [Printk "gpio chip not found!" []]) s).
Proof.
  unfold find_log, chip_found, init_port. intros F.
  rewrite gpiochip_find_search. destruct (the_chip lib) eqn:T; [discriminate|].
  destruct node; cbn [orb negb].
  - rewrite gpiochip_find_search, T. unfold printk. rewrite emit_frame.
    cbn [cfg trace set_trace]. rewrite !set_trace_twice.
    destruct (debug (cfg s)); rewrite <- ?app_assoc; reflexivity.
  - unfold printk. rewrite emit_frame.
    cbn [cfg trace set_trace]. rewrite !set_trace_twice.
    destruct (debug (cfg s)); rewrite <- ?app_assoc; reflexivity.
Qed.

(** with the chip the first search finds it, and [init_port] goes on from
    the state that search leaves *)
Lemma init_port_found (lib : gpiolib) (node : bool) (to_irq : Z) (get : nat -> Z)
    (s : state) :
  chip_found lib = true ->
  init_port lib node to_irq get s
  = (let s0 := set_trace (trace s ++ find_log lib node s) s in
     let s1 := set_all (invert (cfg s0)) s0 in
     let s2 := set_irq_num to_irq s1 in
     let s3 := dprintk "to_irq %d" [to_irq] s2 in
     if sense s3 =? -1 then
       let s4 := msleep 500 s3 in
       let '(nlow, nhigh, s5) := probe_votes get s4 in
       let s6 := set_sense (if nhigh <=? nlow then 1 else 0) s5 in
       (0, printk "auto-detected active %s receiver on GPIO pin %d"
             [sense s6; gpio_in_pin (cfg s6)] s6)
     else
       (0, printk "manually using active %s receiver on GPIO pin %d"
             [sense s3; gpio_in_pin (cfg s3)] s3)).
Proof.
  unfold find_log, init_port. intros F. rewrite F. cbn [orb].
  unfold chip_found in F. rewrite gpiochip_find_search.
  destruct (the_chip lib) eqn:T; [|discriminate]. reflexivity.
Qed.

(** C2, as amended: in auto mode (sense = -1), once the GPIO chip is found,
    the calibrator sets sense = 1 (ActiveLow) when the count of HIGH samples
    among the 9 probes is at least the count of low samples, and sense = 0
    (ActiveHigh) otherwise: a high sample is a vote for an active-low
    receiver.  The counts add up to 9, so they are never equal: five or
    more high samples give ActiveLow, five or more low samples give
    ActiveHigh. *)
Theorem init_port_majority_vote (lib : gpiolib) (node : bool) (to_irq : Z)
    (get : nat -> Z) (s : state) :
  chip_found lib = true ->
  sense s = -1 ->
  let r := init_port lib node to_irq get s in
  fst r = 0
  /\ high_samples get + low_samples get = 9
  /\ sense (snd r) = (if low_samples get <=? high_samples get then 1 else 0)
  /\ sense (snd r) = (if 5 <=? high_samples get then 1 else 0).
Proof.
  intros Found Auto r. subst r. rewrite init_port_found by exact Found. cbv zeta.
  rewrite set_all_trace.
  rewrite sense_dprintk. cbn [sense set_irq_num set_trace]. rewrite Auto. cbn [Z.eqb].
  match goal with
  | |- context [probe_votes get ?t] =>
      destruct (probe_votes_counts get t) as (s' & E & _ & _)
  end.
  rewrite E. cbn [fst snd sense printk emit set_trace set_sense].
  pose proof (samples_total get) as T.
  repeat split; try assumption.
  destruct (Z.leb_spec (low_samples get) (high_samples get)),
    (Z.leb_spec 5 (high_samples get)); reflexivity || lia.
Qed.

(** the amended C2 on a line that reads high at five probes of nine *)
Lemma init_port_majority_vote_witness :
  sense (snd (init_port tegra_lib false 0 five_high_four_low initial_state)) = 1.
Proof.
  exact (proj1 (proj2 (proj2 (init_port_majority_vote tegra_lib false 0
                                five_high_four_low initial_state eq_refl eq_refl)))).
Defined.

(** C2, as stated, fails: a line that reads low at 6 of the 9 probes has
    more low samples than high samples, and the calibrator resolves it to
    ActiveHigh (sense = 0), not to ActiveLow. *)
Lemma init_port_six_low_is_active_high :
  low_samples six_low_three_high = 6
  /\ high_samples six_low_three_high = 3
  /\ fst (init_port tegra_lib false 0 six_low_three_high initial_state) = 0
  /\ sense (snd (init_port tegra_lib false 0 six_low_three_high initial_state)) = 0.
Proof.
  repeat split.
Qed.

End Calibrator.

(** ** Control operations *)

Section Control.

Lemma transmitter_mask (n : Z) :
  0 <= n <= LIRC_TEGRA_MAX_TRANSMITTERS ->
  to_uint (to_int (to_int (Z.shiftl 1 n) - 1)) = Z.ones n.
Proof.
  unfold LIRC_TEGRA_MAX_TRANSMITTERS. intros H.
  rewrite Z.shiftl_1_l, Z.ones_equiv.
  assert (P : 1 <= 2 ^ n <= 2 ^ 8).
  { split.
    - change 1 with (2 ^ 0). apply Z.pow_le_mono_r; lia.
    - apply Z.pow_le_mono_r; lia. }
  change (2 ^ 8) with 256 in P.
  rewrite (to_int_id (2 ^ n)) by (unfold is_int; change (2 ^ 31) with 2147483648; lia).
  rewrite to_int_id by (unfold is_int; change (2 ^ 31) with 2147483648; lia).
  rewrite to_uint_id by (unfold is_uint; change (2 ^ 32) with 4294967296; lia).
  lia.
Qed.

Lemma land_ones_beyond (n value : Z) :
  0 <= n -> selects_beyond n value -> Z.land value (Z.ones n) <> value.
Proof.
  intros Hn (i & Hi & B) E.
  assert (F : Z.testbit (Z.land value (Z.ones n)) i = false).
  { rewrite Z.land_spec, Z.ones_spec_high by lia. apply andb_false_r. }
  rewrite E in F. congruence.
Qed.

Lemma land_ones_within (n value : Z) :
  0 <= n -> (forall i, n <= i -> Z.testbit value i = false) ->
  Z.land value (Z.ones n) = value.
Proof.
  intros Hn W. apply Z.bits_inj'. intros i Hi. rewrite Z.land_spec.
  destruct (Z.lt_ge_cases i n) as [L|G].
  - rewrite Z.ones_spec_low by lia. apply andb_true_r.
  - rewrite Z.ones_spec_high, (W i G) by lia. reflexivity.
Qed.

(** C9: with the transmitter count within the driver's bound, a value read
    from the caller that selects a line at or beyond the transmitter count
    makes LIRC_SET_TRANSMITTER_MASK return the transmitter count with
    tx_mask (and all state but the debug log) unchanged; a value that
    selects only configured lines is stored in tx_mask and the operation
    returns 0. *)
Theorem lirc_ioctl_set_transmitter_mask (value fop : Z) (s : state) :
  is_uint value ->
  0 <= n_transmitters (cfg s) <= LIRC_TEGRA_MAX_TRANSMITTERS ->
  let r := lirc_ioctl LIRC_SET_TRANSMITTER_MASK (inr value) fop s in
  (selects_beyond (n_transmitters (cfg s)) value ->
   fst r = n_transmitters (cfg s)
   /\ tx_mask (snd r) = tx_mask s
   /\ snd r = dprintk "SET_TRANSMITTER_MASK %d" [to_int value] s)
  /\ ((forall i, n_transmitters (cfg s) <= i -> Z.testbit value i = false) ->
      fst r = 0
      /\ tx_mask (snd r) = value
      /\ snd r = set_tx_mask value (dprintk "SET_TRANSMITTER_MASK %d" [to_int value] s)).
Proof.
  intros U N r. subst r. unfold lirc_ioctl. cbv zeta.
  assert (C : cfg (dprintk "SET_TRANSMITTER_MASK %d" [to_int value] s) = cfg s).
  { unfold dprintk, printk, emit. now destruct (debug (cfg s)). }
  assert (M : tx_mask (dprintk "SET_TRANSMITTER_MASK %d" [to_int value] s) = tx_mask s).
  { unfold dprintk, printk, emit. now destruct (debug (cfg s)). }
  rewrite C, transmitter_mask by assumption.
  split.
  - intros B. apply land_ones_beyond in B; [|lia].
    apply Z.eqb_neq in B. rewrite B. cbn [negb fst snd]. now rewrite M.
  - intros W. apply land_ones_within in W; [|lia].
    rewrite W, Z.eqb_refl. cbn [negb fst snd]. repeat split.
Qed.

(** C9 with two transmitters: mask 4 selects the third line and is refused,
    mask 2 selects the second line and is stored *)
Lemma lirc_ioctl_set_transmitter_mask_witness :
  lirc_ioctl LIRC_SET_TRANSMITTER_MASK (inr 4) 0 two_transmitters
  = (2, two_transmitters)
  /\ fst (lirc_ioctl LIRC_SET_TRANSMITTER_MASK (inr 2) 0 two_transmitters) = 0
  /\ tx_mask (snd (lirc_ioctl LIRC_SET_TRANSMITTER_MASK (inr 2) 0 two_transmitters)) = 2.
Proof.
  assert (U4 : is_uint 4) by (unfold is_uint; vm_compute; split; [discriminate | reflexivity]).
  assert (U2 : is_uint 2) by (unfold is_uint; vm_compute; split; [discriminate | reflexivity]).
  assert (N : 0 <= n_transmitters (cfg two_transmitters) <= LIRC_TEGRA_MAX_TRANSMITTERS)
    by (vm_compute; split; discriminate).
  split.
  - destruct (proj1 (lirc_ioctl_set_transmitter_mask 4 0 two_transmitters U4 N))
      as (R & _ & S).
    + exists 2. split; [cbn; lia | reflexivity].
    + apply injective_projections; [exact R | exact S].
  - destruct (proj2 (lirc_ioctl_set_transmitter_mask 2 0 two_transmitters U2 N))
      as (R & M & _).
    + intros i Hi. cbn in Hi.
      change 2 with (2 ^ 1). rewrite Z.pow2_bits_eqb by lia.
      apply Z.eqb_neq. lia.
    + split; [exact R | exact M].
Defined.

End Control.

(** ** Software carrier *)

Section SoftCarrier.

Lemma state_eta (s : state) : set_clock (clock s) (set_trace (trace s) s) = s.
Proof. now destruct s. Qed.

Lemma set_clock_same (t : list event) (s : state) :
  set_clock (clock s) (set_trace t s) = set_trace t s.
Proof. now destruct s. Qed.

Lemma read_current_us_next (t0 : Z) (c : list Z) (s : state) :
  clock s = t0 :: c -> read_current_us s = Some (t0, set_clock c s).
Proof. unfold read_current_us. now intros ->. Qed.

Lemma spans_earlier (b b' : Z) (c : list Z) : b <= b' -> spans b c -> spans b' c.
Proof.
  intros Hb. unfold spans. apply Forall_impl. intros t [R S]. split; [exact R | lia].
Qed.

Lemma ticking_tail (t0 : Z) (c : list Z) :
  ticking (t0 :: c) ->
  0 <= t0 < 2 ^ 64 /\ Forall (fun t => t0 < t) c /\ StronglySorted Z.lt c
  /\ spans t0 c /\ ticking c.
Proof.
  intros [S B]. apply StronglySorted_inv in S. destruct S as [S F].
  unfold spans in B. cbn [hd] in B.
  inversion B as [|x l [Bx _] Bl]; subst.
  split; [exact Bx|]. split; [exact F|]. split; [exact S|]. split; [exact Bl|].
  split; [exact S|].
  destruct c as [|t1 c]; [constructor|]. cbn [hd].
  inversion F as [|x l Ht1 _]; subst.
  apply (spans_earlier t0); [lia | exact Bl].
Qed.

(** with an advancing clock and a reading left for every 1000 ns still to
    go, the carrier loop returns; it consumes [used], at most one reading
    per 1000 ns, and leaves everything but the trace and the clock alone;
    [base] is the reading at which the pulse began *)
Lemma softcarrier_loop_returns (base : Z) (c : list Z) :
  forall (fuel : nat) (len actual target : Z) (flag : bool) (actual_us : Z) (s : state),
    clock s = c -> (length c < fuel)%nat ->
    base <= actual_us -> 0 <= actual <= 1000 * (actual_us - base) ->
    Forall (fun t => actual_us < t) c -> StronglySorted Z.lt c -> spans base c ->
    len <= actual + 1000 * Z.of_nat (length c) ->
    exists r t used c',
      softcarrier_loop fuel len actual target flag actual_us s
      = Some (r, set_clock c' (set_trace t s))
      /\ c = used ++ c'
      /\ 1000 * Z.of_nat (length used) <= Z.max 0 (len - actual + 999).
Proof.
  induction c as [|t0 c IH];
    intros fuel len actual target flag actual_us s Hc Hf Hus Hact Hlt Hsort Hspan Hlen.
  - destruct fuel as [|k]; [cbn in Hf; lia|]. cbn [softcarrier_loop].
    cbn [length] in Hlen. destruct (Z.ltb_spec actual len); [lia|].
    eexists _, (trace s), [], []. split; [|split; [reflexivity | cbn [length]; lia]].
    rewrite <- Hc, state_eta. reflexivity.
  - destruct fuel as [|k]; [cbn in Hf; lia|]. cbn [softcarrier_loop].
    destruct (Z.ltb_spec actual len) as [Hgo|Hstop].
    + cbv zeta.
      match goal with
      | |- context [read_current_us ?x] =>
          assert (Hx : exists t2, x = set_trace t2 s)
      end.
      { rewrite set_enabled_trace.
        match goal with
        | |- context [if ?b then _ else _] => destruct b
        end; eexists; reflexivity. }
      destruct Hx as (t2 & ->).
      rewrite (read_current_us_next t0 c) by exact Hc.
      apply StronglySorted_inv in Hsort. destruct Hsort as [Hsort' Hlt'].
      inversion Hlt as [|x l Hx0 Hxl]; subst x l.
      unfold spans in Hspan. inversion Hspan as [|x l [Hr Hs] Hspan']; subst x l.
      change (2 ^ 64) with 18446744073709551616 in *.
      assert (E : uladd actual (ulmul (ulsub t0 actual_us) 1000)
                  = actual + 1000 * (t0 - actual_us)).
      { unfold uladd, ulmul, ulsub.
        rewrite (to_ulong_id (t0 - actual_us))
          by (unfold is_ulong; change (2 ^ 64) with 18446744073709551616; lia).
        rewrite (to_ulong_id ((t0 - actual_us) * 1000))
          by (unfold is_ulong; change (2 ^ 64) with 18446744073709551616; lia).
        rewrite to_ulong_id
          by (unfold is_ulong; change (2 ^ 64) with 18446744073709551616; lia).
        lia. }
      rewrite E.
      match goal with
      | |- context [softcarrier_loop k len _ ?tg ?fl t0 ?s3] =>
          destruct (IH k len (actual + 1000 * (t0 - actual_us)) tg fl t0 s3)
            as (r & t & used & c' & R & U & N)
      end; try assumption; try reflexivity; try lia.
      { cbn [length] in Hf. lia. }
      { cbn [length] in Hlen. lia. }
      exists r, t, (t0 :: used), c'. rewrite R. repeat split.
      * now rewrite U.
      * cbn [length]. lia.
    + eexists _, (trace s), [], (t0 :: c).
      split; [|split; [reflexivity | cbn [length]; lia]].
      rewrite <- Hc, state_eta. reflexivity.
Qed.

(** a pulse of [len] microseconds, [0 <= len < 2^31], returns when the
    clock advances and has [len + 1] readings left; it consumes at most
    that many *)
Lemma send_pulse_returns (len : Z) (s : state) :
  0 <= len < 2 ^ 31 -> ticking (clock s) ->
  len + 1 <= Z.of_nat (length (clock s)) ->
  exists r t used c',
    send_pulse len s = Some (r, set_clock c' (set_trace t s))
    /\ clock s = used ++ c'
    /\ Z.of_nat (length used) <= len + 1.
Proof.
  intros Hlen Htick Hroom. unfold send_pulse.
  change (2 ^ 31) with 2147483648 in Hlen.
  destruct (len <=? 0).
  { exists 0, (trace s), [], (clock s). rewrite state_eta.
    split; [reflexivity|]. split; [reflexivity | cbn [length]; lia]. }
  destruct (softcarrier (cfg s) && (0 <? freq (car s))).
  - unfold send_pulse_softcarrier. cbv zeta.
    destruct (clock s) as [|t0 c] eqn:Hc; [cbn in Hroom; lia|].
    rewrite (read_current_us_next t0 c) by exact Hc.
    destruct (ticking_tail _ _ Htick) as (Ht0 & Hlt & Hsort & Hspan & _).
    assert (L : ulmul len 1000 = 1000 * len).
    { unfold ulmul. rewrite to_ulong_id; [lia|].
      unfold is_ulong. change (2 ^ 64) with 18446744073709551616. lia. }
    rewrite L.
    assert (H1 : (length c < S (length (clock (set_clock c s))))%nat) by (cbn; lia).
    assert (H2 : t0 <= t0) by lia.
    assert (H3 : 0 <= 0 <= 1000 * (t0 - t0)) by lia.
    assert (H4 : 1000 * len <= 0 + 1000 * Z.of_nat (length c))
      by (cbn [length] in Hroom; lia).
    destruct (softcarrier_loop_returns t0 c (S (length (clock (set_clock c s))))
                (1000 * len) 0 0 false t0 (set_clock c s) eq_refl H1 H2 H3 Hlt Hsort
                Hspan H4)
      as (r & t & used & c' & R & U & N).
    exists r, t, (t0 :: used), c'. rewrite R. repeat split.
    + now rewrite U.
    + cbn [length]. lia.
  - rewrite set_enabled_trace.
    match goal with
    | |- context [safe_udelay ?u ?x] =>
        destruct (safe_udelay_waits u x) as (w & E & _)
    end.
    rewrite E, set_trace_twice. cbn [trace set_trace].
    eexists 0, _, [], (clock s). split; [|split; [reflexivity | cbn [length]; lia]].
    now rewrite set_clock_same.
Qed.

Lemma ticking_suffix (used c : list Z) : ticking (used ++ c) -> ticking c.
Proof.
  induction used as [|t0 used IH]; [trivial|].
  cbn [app]. intros H. apply IH. now apply ticking_tail in H.
Qed.

Lemma write_loop_returns (idx : list nat) (wbuf : list Z) :
  forall (delta : Z) (s : state),
    ticking (clock s) ->
    Forall (fun i => 0 <= nth i wbuf 0 < 2 ^ 31) idx ->
    readings_needed idx wbuf <= Z.of_nat (length (clock s)) ->
    exists s', write_loop idx wbuf delta s = Some s'.
Proof.
  induction idx as [|i idx IH]; intros delta s Htick Hplain Hneed;
    cbn [write_loop readings_needed] in *.
  - now exists s.
  - inversion Hplain as [|x l Hi Hrest]; subst x l.
    destruct (Nat.odd i).
    + destruct (send_space_frame (lsub (nth i wbuf 0) delta) s) as (t & ->).
      apply IH; [exact Htick | exact Hrest | cbn [clock set_trace]; lia].
    + assert (P : to_ulong (nth i wbuf 0) = nth i wbuf 0).
      { apply to_ulong_id. unfold is_ulong.
        change (2 ^ 31) with 2147483648 in Hi.
        change (2 ^ 64) with 18446744073709551616. lia. }
      rewrite P.
      assert (Q : 0 <= readings_needed idx wbuf).
      { clear - Hrest. induction idx as [|j idx IHj]; cbn [readings_needed]; [lia|].
        inversion Hrest as [|x l Hj Hr]; subst x l. specialize (IHj Hr).
        destruct (Nat.odd j); lia. }
      destruct (send_pulse_returns (nth i wbuf 0) s Hi Htick)
        as (r & t & used & c' & -> & U & N); [lia|].
      apply IH; cbn [clock set_clock set_trace].
      * rewrite U in Htick. now apply ticking_suffix in Htick.
      * exact Hrest.
      * rewrite U, length_app in Hneed. lia.
Qed.

End SoftCarrier.

(** ** Transmit requests *)

Section Write.

Lemma rem2_even (x : Z) : (Z.rem x 2 =? 0) = Z.even x.
Proof.
  destruct (Z.even x) eqn:E.
  - apply Z.eqb_eq. apply Z.even_spec in E. destruct E as [k ->].
    rewrite Z.mul_comm. now apply Z.rem_mul.
  - apply Z.eqb_neq. intros R.
    assert (D : (2 | x)) by (apply Z.rem_divide; [lia | exact R]).
    destruct D as [k ->]. rewrite Z.mul_comm, Z.even_mul in E. discriminate.
Qed.

(** with the carrier off or not made in software a pulse is a level held
    for the duration: it always returns, with no overshoot *)
Lemma send_pulse_steady (length : Z) (s : state) :
  steady_level s ->
  exists t, send_pulse length s = Some (0, set_trace t s).
Proof.
  unfold steady_level, send_pulse. intros ->.
  destruct (length <=? 0).
  - exists (trace s). now rewrite set_trace_same.
  - rewrite set_enabled_trace.
    match goal with
    | |- context [safe_udelay ?u ?t] =>
        destruct (safe_udelay_waits u t) as (w & E & _)
    end.
    rewrite E, set_trace_twice. eexists. reflexivity.
Qed.

Lemma write_loop_steady (idx : list nat) (wbuf : list Z) (delta : Z) (s : state) :
  steady_level s ->
  exists t, write_loop idx wbuf delta s = Some (set_trace t s).
Proof.
  revert delta s. induction idx as [|i idx IH]; intros delta s St; cbn [write_loop].
  - exists (trace s). now rewrite set_trace_same.
  - destruct (Nat.odd i).
    + destruct (send_space_frame (lsub (nth i wbuf 0) delta) s) as (t & ->).
      destruct (IH delta (set_trace t s) St) as (t' & ->).
      exists t'. reflexivity.
    + destruct (send_pulse_steady (to_ulong (nth i wbuf 0)) s St) as (t & ->).
      destruct (IH 0 (set_trace t s) St) as (t' & ->).
      exists t'. reflexivity.
Qed.

Lemma enabled_sets_same (level : bool) (s s0 : state) (idx : list nat) :
  cfg s = cfg s0 -> tx_mask s = tx_mask s0 ->
  enabled_sets level s idx = enabled_sets level s0 idx.
Proof.
  intros C M. unfold enabled_sets, transmitter_enabled, out_pin. now rewrite C, M.
Qed.

Lemma carrier_trace_same (s s0 : state) (segs : list (list event)) :
  cfg s = cfg s0 -> tx_mask s = tx_mask s0 ->
  forall flag, carrier_trace s flag segs = carrier_trace s0 flag segs.
Proof.
  intros C M. induction segs as [|w segs IH]; intros flag; cbn [carrier_trace].
  - reflexivity.
  - rewrite IH, (enabled_sets_same _ s s0) by assumption.
    unfold tx_range_unsigned. now rewrite C.
Qed.

(** whenever the carrier loop returns, it has made half-cycles, at least
    one if it was entered, and touched only the trace and the clock *)
Lemma softcarrier_loop_trace (fuel : nat) :
  forall (len actual target : Z) (flag : bool) (actual_us : Z) (s : state)
         (r : Z) (s' : state),
    softcarrier_loop fuel len actual target flag actual_us s = Some (r, s') ->
    exists segs c',
      s' = set_clock c' (set_trace (trace s ++ carrier_trace s flag segs) s)
      /\ Forall (fun w => forallb is_wait w = true) segs
      /\ (actual < len -> segs <> []).
Proof.
  induction fuel as [|k IH]; intros len actual target flag actual_us s r s' R;
    cbn [softcarrier_loop] in R; [discriminate|].
  destruct (Z.ltb_spec actual len) as [Hgo|Hstop].
  - cbv zeta in R. rewrite set_enabled_trace in R.
    match type of R with
    | context [read_current_us ?x] =>
        assert (Hx : exists w, forallb is_wait w = true
                               /\ x = set_trace
                                        (trace s
                                         ++ enabled_sets
                                              (negb (xorb flag (invert (cfg s)))) s
                                              (tx_range_unsigned s) ++ w) s)
    end.
    { match goal with
      | |- context [if 0 <? to_int ?e then _ else _] => destruct (0 <? to_int e)
      end.
      - refine (ex_intro _ [Udelay _] (conj eq_refl _)).
        unfold udelay. rewrite emit_frame, set_trace_twice. cbn [trace set_trace].
        now rewrite <- app_assoc.
      - exists []. split; [reflexivity|]. now rewrite app_nil_r. }
    destruct Hx as (w & W & E). rewrite E in R. clear E.
    unfold read_current_us in R. cbn [clock set_trace] in R.
    destruct (clock s) as [|t1 c]; [discriminate|].
    apply IH in R. destruct R as (segs & c' & -> & F & _).
    exists (w :: segs), c'. split; [|split; [now constructor | discriminate]].
    cbn [carrier_trace trace set_trace set_clock].
    rewrite (carrier_trace_same _ s) by reflexivity.
    rewrite <- !app_assoc. reflexivity.
  - injection R as _ <-. exists [], (clock s).
    cbn [carrier_trace]. rewrite app_nil_r, state_eta.
    split; [reflexivity|]. split; [constructor | lia].
Qed.

(** an [int] that is not zero is a non-zero pulse length, in microseconds
    and in nanoseconds *)
Lemma int_pulse_length (x : Z) :
  is_int x -> x <> 0 -> 0 < to_ulong x /\ 0 < ulmul (to_ulong x) 1000.
Proof.
  unfold is_int, ulmul, to_ulong, wrap_unsigned.
  change (2 ^ 31) with 2147483648. change (2 ^ 64) with 18446744073709551616.
  intros Hx Nz. rewrite Zmult_mod_idemp_l. split.
  - Z.div_mod_to_equations. lia.
  - Z.div_mod_to_equations. lia.
Qed.

(** whenever a pulse returns, its trace is that of the entry *)
Lemma send_pulse_trace (x : Z) (s : state) (r : Z) (s' : state) :
  is_int x ->
  send_pulse (to_ulong x) s = Some (r, s') ->
  exists t c',
    s' = set_clock c' (set_trace (trace s ++ t) s) /\ pulse_trace s x t.
Proof.
  intros Hx R. unfold send_pulse in R. unfold pulse_trace.
  destruct (Z.eqb_spec x 0) as [->|Nz].
  { change (to_ulong 0 <=? 0) with true in R. injection R as _ <-.
    exists [], (clock s). now rewrite app_nil_r, state_eta. }
  destruct (int_pulse_length x Hx Nz) as [P1 P2].
  destruct (Z.leb_spec (to_ulong x) 0); [lia|].
  destruct (softcarrier (cfg s) && (0 <? freq (car s))).
  - unfold send_pulse_softcarrier in R. cbv zeta in R.
    unfold read_current_us in R. destruct (clock s) as [|t0 c]; [discriminate|].
    apply softcarrier_loop_trace in R. destruct R as (segs & c' & -> & F & N).
    destruct segs as [|w segs]; [now contradiction (N P2)|].
    exists (carrier_trace s false (w :: segs)), c'. split.
    + rewrite (carrier_trace_same _ s) by reflexivity. reflexivity.
    + exists w, segs. now split.
  - injection R as _ <-. rewrite set_enabled_trace.
    match goal with
    | |- context [safe_udelay ?u ?x] =>
        destruct (safe_udelay_waits u x) as (w & E & W & _)
    end.
    rewrite E, set_trace_twice. cbn [trace set_trace].
    eexists _, (clock s). split.
    + rewrite set_clock_same, <- app_assoc. reflexivity.
    + exists w, []. split; [repeat constructor; exact W|].
      cbn [carrier_trace xorb]. now rewrite app_nil_r.
Qed.

Lemma send_space_trace (length : Z) (s : state) :
  exists t, send_space length s = set_trace (trace s ++ t) s /\ space_trace s t.
Proof.
  unfold send_space, space_trace. cbv zeta. rewrite set_enabled_trace.
  destruct (length <=? 0).
  - eexists. split; [reflexivity|]. exists []. now rewrite app_nil_r.
  - match goal with
    | |- context [safe_udelay ?u ?t] =>
        destruct (safe_udelay_waits u t) as (w & E & W & _)
    end.
    rewrite E, set_trace_twice. cbn [trace set_trace]. rewrite <- app_assoc.
    eexists. split; [reflexivity|]. now exists w.
Qed.

Lemma pulse_trace_same (s s0 : state) (len : Z) (t : list event) :
  cfg s = cfg s0 -> tx_mask s = tx_mask s0 -> pulse_trace s len t -> pulse_trace s0 len t.
Proof.
  intros C M. unfold pulse_trace. destruct (len =? 0); [trivial|].
  intros (w & segs & F & ->). exists w, segs. split; [exact F|].
  now apply carrier_trace_same.
Qed.

Lemma space_trace_same (s s0 : state) (t : list event) :
  cfg s = cfg s0 -> tx_mask s = tx_mask s0 -> space_trace s t -> space_trace s0 t.
Proof.
  intros C M (w & W & ->). exists w. split; [exact W|].
  rewrite (enabled_sets_same _ s s0) by assumption.
  unfold tx_range_unsigned. now rewrite C.
Qed.

(** whenever the loop over the entries returns, its trace is the
    transmission of the entries; [s0] is the state the request began in *)
Lemma write_loop_trace (s0 : state) (wbuf : list Z) (idx : list nat) :
  Forall is_int wbuf ->
  forall (delta : Z) (s s' : state),
    cfg s = cfg s0 -> tx_mask s = tx_mask s0 ->
    write_loop idx wbuf delta s = Some s' ->
    exists t c',
      s' = set_clock c' (set_trace (trace s ++ t) s) /\ transmission s0 idx wbuf t.
Proof.
  intros Hint. induction idx as [|i idx IH]; intros delta s s' C M R;
    cbn [write_loop transmission] in *.
  - injection R as <-. exists [], (clock s). now rewrite app_nil_r, state_eta.
  - destruct (Nat.odd i).
    + destruct (send_space_trace (lsub (nth i wbuf 0) delta) s) as (t1 & E & Sp).
      rewrite E in R. apply IH in R; [|exact C | exact M].
      destruct R as (t2 & c' & -> & T).
      exists (t1 ++ t2), c'. cbn [trace set_trace]. rewrite <- app_assoc.
      split; [reflexivity|]. exists t1, t2.
      split; [reflexivity|]. split; [|exact T].
      now apply (space_trace_same s s0).
    + destruct (send_pulse (to_ulong (nth i wbuf 0)) s) as [[delta' s1]|] eqn:P;
        [|discriminate].
      apply send_pulse_trace in P.
      2:{ destruct (Nat.lt_ge_cases i (length wbuf)) as [L|L].
          - rewrite Forall_forall in Hint. apply Hint. now apply nth_In.
          - rewrite nth_overflow by exact L. unfold is_int.
            change (2 ^ 31) with 2147483648. lia. }
      destruct P as (t1 & c1 & -> & Pu).
      apply IH in R; [|exact C | exact M].
      destruct R as (t2 & c' & -> & T).
      exists (t1 ++ t2), c'. cbn [trace set_trace set_clock]. rewrite <- app_assoc.
      split; [reflexivity|]. exists t1, t2.
      split; [reflexivity|]. split; [|exact T].
      now apply (pulse_trace_same s s0).
Qed.

(** the length check of [lirc_write] *)
Lemma lirc_write_guard (n : Z) :
  truthy (n mod 4) || (Z.rem (to_int (n / 4)) 2 =? 0)
  = negb (n mod 4 =? 0) || Z.even (n / 4).
Proof. now rewrite rem2_even, to_int_even. Qed.

(** C1, as amended: a transmit request whose byte length is a whole number
    of duration words and whose duration array has an EVEN number of entries
    (as one whose length is not a whole number of words) is rejected by
    [lirc_write] with -EINVAL and changes no state, so no output line; a
    request with an odd number of entries passes the length check: a failed
    copy returns the copy's error, and a copied request is transmitted:
    whenever the call returns, it returns the byte count, and between
    taking and releasing the lock it has sent the entries in order, those
    at even indices as pulses (nothing for a zero entry, else the enabled
    lines driven active, then idle and active in turn, with only waits in
    between) and those at odd indices as spaces (the enabled lines driven
    idle, then only waits), and then driven every configured line idle.
    The call does return when pulses are sent as a steady level, and, with
    the software carrier, when the entries are not negative and the clock
    advances and has readings enough. *)
Theorem lirc_write_length_check (n : Z) (user : Z + list Z) (s : state) :
  0 <= n ->
  (n mod 4 <> 0 \/ Z.even (n / 4) = true -> lirc_write n user s = Some (- EINVAL, s))
  /\ (n mod 4 = 0 -> Z.odd (n / 4) = true ->
      match user with
      | inl err => lirc_write n user s = Some (err, s)
      | inr wbuf =>
          Forall is_int wbuf ->
          (forall r s', lirc_write n user s = Some (r, s') ->
             r = n /\ r <> - EINVAL
             /\ exists t c',
                  s' = set_clock c'
                         (set_trace
                            (trace s ++ SpinLock :: t
                             ++ all_sets (invert (cfg s)) s (tx_range_int s)
                             ++ [SpinUnlock]) s)
                  /\ transmission s (seq 0 (Z.to_nat (to_int (n / 4)))) wbuf t)
          /\ (steady_level s \/ clock_covers n wbuf s ->
              exists s', lirc_write n user s = Some (n, s'))
      end).
Proof.
  intros Hn. unfold lirc_write. cbv zeta. rewrite lirc_write_guard. split.
  - intros [M|E].
    + apply Z.eqb_neq in M. now rewrite M.
    + rewrite E. now rewrite orb_true_r.
  - intros M O. rewrite <- Z.negb_odd, O, M. cbn [Z.eqb negb orb].
    destruct user as [err|wbuf]; [reflexivity|].
    intros Hint. split.
    + intros r s' R.
      destruct (write_loop _ wbuf 0 (emit SpinLock s)) as [s2|] eqn:W; [|discriminate].
      injection R as <- <-. split; [reflexivity|]. split; [unfold EINVAL; lia|].
      apply (write_loop_trace s wbuf _ Hint) in W; [|reflexivity | reflexivity].
      destruct W as (t & c' & -> & T). exists t, c'. split; [|exact T].
      rewrite set_all_trace. unfold emit.
      cbn [trace set_trace set_clock cfg]. rewrite <- !app_assoc. reflexivity.
    + intros [St|(Tick & Plain & Need)].
      * destruct (write_loop_steady (seq 0 (Z.to_nat (to_int (n / 4)))) wbuf 0
                    (emit SpinLock s) St) as (t & ->).
        eexists. reflexivity.
      * destruct (write_loop_returns (seq 0 (Z.to_nat (to_int (n / 4)))) wbuf 0
                    (emit SpinLock s) Tick Plain Need) as (s2 & ->).
        eexists. reflexivity.
Qed.

(** the amended C1: with the software carrier off two entries are refused
    and one entry of 12000 microseconds is sent; with the software carrier
    at 38 kHz and a wall clock that advances 13 microseconds a reading, one
    entry of 5 microseconds is sent *)
Lemma lirc_write_length_check_witness :
  lirc_write 8 (inr [1000; 500]) steady_state = Some (- EINVAL, steady_state)
  /\ (exists s', lirc_write 4 (inr [12000]) steady_state = Some (4, s'))
  /\ (exists s', lirc_write 4 (inr [5]) wall_clock_state = Some (4, s')).
Proof.
  assert (I : forall x, - 2147483648 <= x < 2147483648 -> Forall is_int [x]).
  { intros x Hx. constructor; [|constructor]. unfold is_int.
    change (2 ^ 31) with 2147483648. exact Hx. }
  split; [|split].
  - refine (proj1 (lirc_write_length_check 8 (inr [1000; 500]) steady_state _) _).
    + lia.
    + right. reflexivity.
  - refine (proj2 (proj2 (lirc_write_length_check 4 (inr [12000]) steady_state _)
                     _ _ _) _).
    + lia.
    + reflexivity.
    + reflexivity.
    + apply I. lia.
    + left. reflexivity.
  - refine (proj2 (proj2 (lirc_write_length_check 4 (inr [5]) wall_clock_state _)
                     _ _ _) _).
    + lia.
    + reflexivity.
    + reflexivity.
    + apply I. lia.
    + right. unfold clock_covers, ticking, spans.
      change (to_int (4 / 4)) with 1. change (Z.to_nat 1) with 1%nat.
      cbn. change (2 ^ 64) with 18446744073709551616.
      change (2 ^ 31) with 2147483648.
      split; [|split].
      * repeat (first [lia | constructor]).
      * repeat (first [lia | constructor]).
      * lia.
Defined.

(** C1, as stated, fails both ways: a request of one entry (odd) is not
    rejected, it drives the output line active for the pulse and back to
    idle and returns its byte count; a request of two entries (even) is
    rejected with -EINVAL on account of its length. *)
Lemma lirc_write_odd_accepted_even_rejected :
  lirc_write 4 (inr [12000]) steady_state
  = Some (4, set_trace [SpinLock; GpioSet 200 true; Udelay 5000; Udelay 5000;
                        Udelay 2000; GpioSet 200 false; SpinUnlock] steady_state)
  /\ lirc_write 8 (inr [1000; 500]) steady_state = Some (- EINVAL, steady_state).
Proof.
  split; vm_compute; reflexivity.
Qed.

End Write.

(** * Further properties of the code *)

(** ** Busy waits and steady pulses *)

Section Delays.

Lemma udelay_total_app (a b : list event) :
  udelay_total (a ++ b) = udelay_total a + udelay_total b.
Proof.
  induction a as [|e a IH]; [reflexivity|].
  cbn [app udelay_total]. destruct e; lia.
Qed.

Lemma udelay_total_repeat (u : Z) (k : nat) :
  udelay_total (repeat (Udelay u) k) = u * Z.of_nat k.
Proof. induction k as [|k IH]; cbn [repeat udelay_total]; lia. Qed.

Lemma udelay_total_sets (level : bool) (s : state) (idx : list nat) :
  udelay_total (map (fun i => GpioSet (out_pin s i) level) idx) = 0.
Proof. induction idx as [|i idx IH]; [reflexivity | exact IH]. Qed.

(** [k] full waits and the rest, given fuel for [k] turns *)
Lemma safe_udelay_loop_chunks (k : nat) :
  forall (fuel : nat) (usecs : Z) (s : state),
    (k <= fuel)%nat ->
    MAX_UDELAY_US * Z.of_nat k < usecs <= MAX_UDELAY_US * (Z.of_nat k + 1)
    \/ (k = 0%nat /\ usecs <= MAX_UDELAY_US) ->
    usecs < 2 ^ 64 ->
    safe_udelay_loop fuel usecs s
    = set_trace
        (trace s ++ repeat (Udelay MAX_UDELAY_US) k
         ++ [Udelay (usecs - MAX_UDELAY_US * Z.of_nat k)]) s.
Proof.
  unfold MAX_UDELAY_US. change (2 ^ 64) with 18446744073709551616.
  induction k as [|k IH]; intros fuel usecs s Hf Hb Hu.
  - assert (Hs : usecs <= 5000) by lia.
    replace (usecs - 5000 * Z.of_nat 0) with usecs by lia.
    destruct fuel as [|fuel]; cbn [safe_udelay_loop repeat app]; [reflexivity|].
    unfold MAX_UDELAY_US. destruct (Z.ltb_spec 5000 usecs); [lia | reflexivity].
  - destruct fuel as [|fuel]; [lia|]. cbn [safe_udelay_loop]. unfold MAX_UDELAY_US.
    destruct (Z.ltb_spec 5000 usecs); [|lia].
    assert (E : ulsub usecs 5000 = usecs - 5000).
    { apply to_ulong_id. unfold is_ulong.
      change (2 ^ 64) with 18446744073709551616. lia. }
    rewrite E, (IH fuel (usecs - 5000) (udelay 5000 s)) by lia.
    unfold udelay. rewrite emit_frame. cbn [trace set_trace].
    rewrite <- app_assoc. cbn [app repeat].
    replace (usecs - 5000 - 5000 * Z.of_nat k) with (usecs - 5000 * Z.of_nat (S k))
      by lia.
    reflexivity.
Qed.

Lemma safe_udelay_chunks_aux (usecs : Z) (s : state) :
  0 <= usecs < 2 ^ 64 ->
  exists (k : nat) (r : Z),
    safe_udelay usecs s
    = set_trace (trace s ++ repeat (Udelay MAX_UDELAY_US) k ++ [Udelay r]) s
    /\ usecs = MAX_UDELAY_US * Z.of_nat k + r
    /\ 0 <= r <= MAX_UDELAY_US.
Proof.
  intros [H0 H1]. unfold safe_udelay.
  destruct (Z.le_gt_cases usecs MAX_UDELAY_US) as [Hs|Hl].
  - exists 0%nat, usecs. split; [|unfold MAX_UDELAY_US in *; lia].
    rewrite (safe_udelay_loop_chunks 0)
      by first [lia | right; split; [reflexivity | lia]].
    replace (usecs - MAX_UDELAY_US * Z.of_nat 0) with usecs by (cbn; lia).
    reflexivity.
  - unfold MAX_UDELAY_US in *.
    set (k := Z.to_nat ((usecs - 1) / 5000)).
    assert (K : Z.of_nat k = (usecs - 1) / 5000).
    { subst k. apply Z2Nat.id. apply Z.div_pos; lia. }
    assert (D : 5000 * ((usecs - 1) / 5000) <= usecs - 1
                < 5000 * ((usecs - 1) / 5000) + 5000).
    { pose proof (Z.div_mod (usecs - 1) 5000 ltac:(lia)).
      pose proof (Z.mod_pos_bound (usecs - 1) 5000 ltac:(lia)). lia. }
    exists k, (usecs - 5000 * Z.of_nat k). split; [|lia].
    apply safe_udelay_loop_chunks; unfold MAX_UDELAY_US; try lia.
    apply Nat2Z.inj_le. rewrite K, Z2Nat.id by (apply Z.div_pos; lia).
    apply Z.div_le_mono; lia.
Qed.

(** X1: [safe_udelay] waits exactly the requested time, cut into full
    waits of MAX_UDELAY_US and one last wait of at most MAX_UDELAY_US, and
    changes nothing but the trace. *)
Theorem safe_udelay_chunks (usecs : Z) (s : state) :
  0 <= usecs < 2 ^ 64 ->
  exists (k : nat) (r : Z),
    safe_udelay usecs s
    = set_trace (trace s ++ repeat (Udelay MAX_UDELAY_US) k ++ [Udelay r]) s
    /\ usecs = MAX_UDELAY_US * Z.of_nat k + r
    /\ 0 <= r <= MAX_UDELAY_US
    /\ udelay_total (trace (safe_udelay usecs s)) = udelay_total (trace s) + usecs.
Proof.
  intros H. destruct (safe_udelay_chunks_aux usecs s H) as (k & r & E & S & R).
  exists k, r. repeat split; try assumption; try lia.
  rewrite E. cbn [trace set_trace].
  rewrite !udelay_total_app, udelay_total_repeat. cbn [udelay_total]. lia.
Qed.

(** X1 at 12000 microseconds: two full waits and 2000 *)
Lemma safe_udelay_chunks_witness :
  exists (k : nat) (r : Z),
    safe_udelay 12000 initial_state
    = set_trace (trace initial_state ++ repeat (Udelay MAX_UDELAY_US) k ++ [Udelay r])
        initial_state
    /\ 12000 = MAX_UDELAY_US * Z.of_nat k + r
    /\ 0 <= r <= MAX_UDELAY_US
    /\ udelay_total (trace (safe_udelay 12000 initial_state))
       = udelay_total (trace initial_state) + 12000.
Proof.
  apply safe_udelay_chunks. change (2 ^ 64) with 18446744073709551616. lia.
Defined.

End Delays.

(** ** The transmit mask *)

Section Mask.

Lemma to_uint_to_int (x : Z) : to_uint (to_int x) = to_uint x.
Proof.
  unfold to_uint, to_int, wrap_unsigned, wrap_signed.
  change (2 ^ (32 - 1)) with 2147483648. change (2 ^ 32) with 4294967296.
  rewrite Zminus_mod_idemp_l. f_equal. lia.
Qed.

Lemma land_pow2_truthy (a n : Z) :
  0 <= n -> truthy (Z.land a (2 ^ n)) = Z.testbit a n.
Proof.
  intros Hn. unfold truthy. destruct (Z.testbit a n) eqn:B.
  - apply negb_true_iff, Z.eqb_neq. intros E.
    assert (T : Z.testbit (Z.land a (2 ^ n)) n = true).
    { rewrite Z.land_spec, B, Z.pow2_bits_true by lia. reflexivity. }
    rewrite E, Z.bits_0 in T. discriminate.
  - apply negb_false_iff, Z.eqb_eq. apply Z.bits_inj'. intros m Hm.
    rewrite Z.land_spec, Z.bits_0, Z.pow2_bits_eqb by lia.
    destruct (Z.eqb_spec n m) as [->|]; [now rewrite B | apply andb_false_r].
Qed.

Lemma transmitter_enabled_bit (n : nat) (s : state) :
  (n < 32)%nat -> transmitter_enabled n s = Z.testbit (tx_mask s) (Z.of_nat n).
Proof.
  intros Hn. unfold transmitter_enabled.
  rewrite to_uint_to_int, Z.shiftl_1_l.
  assert (P : 0 < 2 ^ Z.of_nat n <= 2 ^ 31).
  { split; [apply Z.pow_pos_nonneg; lia | apply Z.pow_le_mono_r; lia]. }
  change (2 ^ 31) with 2147483648 in P.
  rewrite to_uint_id by (unfold is_uint; change (2 ^ 32) with 4294967296; lia).
  apply land_pow2_truthy. lia.
Qed.

(** X2: for a line number below 32, [transmitter_enabled] is the bit of
    that number in tx_mask; so with the initial mask 0xFFFFFFFF every line is
    enabled, and after LIRC_SET_TRANSMITTER_MASK has stored a value the
    enabled lines are exactly the bits set in that value. *)
Theorem transmitter_enabled_is_mask_bit (n : nat) (value fop : Z) (s : state) :
  (n < 32)%nat ->
  transmitter_enabled n s = Z.testbit (tx_mask s) (Z.of_nat n)
  /\ transmitter_enabled n initial_state = true
  /\ (fst (lirc_ioctl LIRC_SET_TRANSMITTER_MASK (inr value) fop s) = 0 ->
      n_transmitters (cfg s) <> 0 ->
      transmitter_enabled n (snd (lirc_ioctl LIRC_SET_TRANSMITTER_MASK (inr value) fop s))
      = Z.testbit value (Z.of_nat n)).
Proof.
  intros Hn. split; [now apply transmitter_enabled_bit|]. split.
  - rewrite transmitter_enabled_bit by assumption.
    change (tx_mask initial_state) with (Z.ones 32).
    apply Z.ones_spec_low. lia.
  - intros R N. rewrite transmitter_enabled_bit by assumption. f_equal.
    unfold lirc_ioctl in *. cbv zeta in *.
    match goal with
    | |- context [if ?b then _ else _] => destruct b eqn:B
    end; cbn [fst snd] in *.
    + rewrite cfg_dprintk in R. contradiction.
    + reflexivity.
Qed.

(** X2 on the second line after mask 2 was stored with two transmitters *)
Lemma transmitter_enabled_is_mask_bit_witness :
  transmitter_enabled 1
    (snd (lirc_ioctl LIRC_SET_TRANSMITTER_MASK (inr 2) 0 two_transmitters))
  = true.
Proof.
  refine (proj2 (proj2 (transmitter_enabled_is_mask_bit 1 2 0 two_transmitters _)) _ _).
  - lia.
  - reflexivity.
  - discriminate.
Defined.

End Mask.

(** ** Steady-level transmission *)

Section Steady.

Lemma waits_repeat (u r : Z) (k : nat) :
  forallb is_wait (repeat (Udelay u) k ++ [Udelay r]) = true.
Proof. induction k as [|k IH]; [reflexivity | exact IH]. Qed.

(** a busy wait as a list of waits that add up *)
Lemma safe_udelay_total (usecs : Z) (s : state) :
  0 <= usecs < 2 ^ 64 ->
  exists waits,
    safe_udelay usecs s = set_trace (trace s ++ waits) s
    /\ forallb is_wait waits = true
    /\ udelay_total waits = usecs.
Proof.
  intros H. destruct (safe_udelay_chunks_aux usecs s H) as (k & r & E & S & R).
  exists (repeat (Udelay MAX_UDELAY_US) k ++ [Udelay r]).
  split; [exact E|]. split; [apply waits_repeat|].
  rewrite udelay_total_app, udelay_total_repeat. cbn [udelay_total]. lia.
Qed.

Lemma send_pulse_steady_trace (len : Z) (s : state) :
  steady_level s -> 0 <= len < 2 ^ 64 ->
  exists waits,
    send_pulse len s
    = Some (0, set_trace
                 (trace s
                  ++ (if len =? 0 then []
                      else map (fun i => GpioSet (out_pin s i) (negb (invert (cfg s))))
                             (filter (fun i => transmitter_enabled i s)
                                (tx_range_unsigned s))
                           ++ waits)) s)
    /\ forallb is_wait waits = true
    /\ udelay_total waits = len.
Proof.
  unfold steady_level, send_pulse. intros -> H.
  destruct (Z.leb_spec len 0) as [Z0|P].
  - assert (len = 0) by lia. subst len. exists []. cbn [Z.eqb].
    now rewrite app_nil_r, set_trace_same.
  - destruct (Z.eqb_spec len 0); [lia|].
    rewrite set_enabled_trace, enabled_sets_filter.
    match goal with
    | |- context [safe_udelay len ?x] =>
        destruct (safe_udelay_total len x H) as (w & E & W & T)
    end.
    exists w. rewrite E, set_trace_twice. cbn [trace set_trace].
    now rewrite <- app_assoc.
Qed.

(** X3: with the carrier off or not made in software, [send_pulse] drives
    every enabled line to the active level (the opposite of invert), then
    waits exactly the requested time and returns no overshoot; a pulse of
    length zero returns at once and touches no line. *)
Theorem send_pulse_steady_level (len : Z) (s : state) :
  steady_level s -> 0 <= len < 2 ^ 64 ->
  exists waits,
    send_pulse len s
    = Some (0, set_trace
                 (trace s
                  ++ (if len =? 0 then []
                      else map (fun i => GpioSet (out_pin s i) (negb (invert (cfg s))))
                             (filter (fun i => transmitter_enabled i s)
                                (tx_range_unsigned s))
                           ++ waits)) s)
    /\ forallb is_wait waits = true
    /\ udelay_total waits = len.
Proof. apply send_pulse_steady_trace. Qed.

(** X3 on a pulse of 12000 microseconds with the software carrier off *)
Lemma send_pulse_steady_level_witness :
  exists waits,
    send_pulse 12000 steady_state
    = Some (0, set_trace (GpioSet 200 true :: waits) steady_state)
    /\ forallb is_wait waits = true
    /\ udelay_total waits = 12000.
Proof.
  destruct (send_pulse_steady_level 12000 steady_state) as (w & E & W & T).
  - reflexivity.
  - change (2 ^ 64) with 18446744073709551616. lia.
  - exists w. split; [exact E | split; assumption].
Defined.

Lemma send_space_total (len : Z) (s : state) :
  0 <= len < 2 ^ 63 ->
  exists t, send_space len s = set_trace (trace s ++ t) s /\ udelay_total t = len.
Proof.
  intros H. unfold send_space. cbv zeta.
  rewrite set_enabled_trace, enabled_sets_filter.
  destruct (Z.leb_spec len 0).
  - eexists. split; [reflexivity|]. rewrite udelay_total_sets. lia.
  - assert (U : to_ulong len = len).
    { apply to_ulong_id. unfold is_ulong. change (2 ^ 63) with 9223372036854775808 in H.
      change (2 ^ 64) with 18446744073709551616. lia. }
    rewrite U.
    match goal with
    | |- context [safe_udelay len ?x] =>
        destruct (safe_udelay_total len x) as (w & E & _ & T)
    end.
    { change (2 ^ 63) with 9223372036854775808 in H.
      change (2 ^ 64) with 18446744073709551616. lia. }
    rewrite E, set_trace_twice. cbn [trace set_trace]. rewrite <- app_assoc.
    eexists. split; [reflexivity|].
    rewrite udelay_total_app, udelay_total_sets. lia.
Qed.

Lemma write_loop_steady_total (idx : list nat) (wbuf : list Z) :
  forall s : state,
    steady_level s ->
    Forall (fun i => 0 <= nth i wbuf 0 < 2 ^ 31) idx ->
    exists t,
      write_loop idx wbuf 0 s = Some (set_trace (trace s ++ t) s)
      /\ udelay_total t = entries_total idx wbuf.
Proof.
  induction idx as [|i idx IH]; intros s St Hp; cbn [write_loop entries_total].
  - exists []. now rewrite app_nil_r, set_trace_same.
  - inversion Hp as [|x l Hi Hrest]; subst x l.
    change (2 ^ 31) with 2147483648 in Hi.
    destruct (Nat.odd i).
    + assert (L : lsub (nth i wbuf 0) 0 = nth i wbuf 0).
      { unfold lsub. rewrite Z.sub_0_r. apply to_long_id. unfold is_long.
        change (2 ^ 63) with 9223372036854775808. lia. }
      rewrite L.
      destruct (send_space_total (nth i wbuf 0) s) as (t & -> & T).
      { change (2 ^ 63) with 9223372036854775808. lia. }
      destruct (IH (set_trace (trace s ++ t) s) St Hrest) as (t' & -> & T').
      exists (t ++ t'). cbn [trace set_trace]. rewrite set_trace_twice, <- app_assoc.
      split; [reflexivity|]. rewrite udelay_total_app. lia.
    + assert (U : to_ulong (nth i wbuf 0) = nth i wbuf 0).
      { apply to_ulong_id. unfold is_ulong.
        change (2 ^ 64) with 18446744073709551616. lia. }
      rewrite U.
      destruct (send_pulse_steady_trace (nth i wbuf 0) s St) as (w & -> & _ & T).
      { change (2 ^ 64) with 18446744073709551616. lia. }
      match goal with
      | |- context [set_trace (trace s ++ ?x) s] => set (t := x) in *
      end.
      assert (Tt : udelay_total t = nth i wbuf 0).
      { subst t. destruct (Z.eqb_spec (nth i wbuf 0) 0) as [->|]; [reflexivity|].
        rewrite udelay_total_app, udelay_total_sets. lia. }
      destruct (IH (set_trace (trace s ++ t) s) St Hrest) as (t' & -> & T').
      exists (t ++ t'). cbn [trace set_trace]. rewrite set_trace_twice, <- app_assoc.
      split; [reflexivity|]. rewrite udelay_total_app. lia.
Qed.

(** X4: with pulses sent as a steady level, a request of an odd number of
    non-negative entries takes the lock, spends in busy waits exactly the
    sum of its entries (no overshoot is carried), then drives every
    configured line to the idle level, releases the lock and returns the
    byte count; nothing but the trace changes. *)
Theorem lirc_write_steady_total (n : Z) (wbuf : list Z) (s : state) :
  steady_level s ->
  0 <= n -> n / 4 < 2 ^ 31 -> n mod 4 = 0 -> Z.odd (n / 4) = true ->
  Forall (fun i => 0 <= nth i wbuf 0 < 2 ^ 31) (seq 0 (Z.to_nat (n / 4))) ->
  exists t,
    lirc_write n (inr wbuf) s
    = Some (n, set_trace
                 (trace s ++ SpinLock :: t
                  ++ map (fun i => GpioSet (out_pin s i) (invert (cfg s)))
                       (tx_range_int s)
                  ++ [SpinUnlock]) s)
    /\ udelay_total t = entries_total (seq 0 (Z.to_nat (n / 4))) wbuf.
Proof.
  intros St Hn Hc M O Hp. unfold lirc_write. cbv zeta.
  rewrite lirc_write_guard, <- Z.negb_odd, O, M. cbn [Z.eqb negb orb].
  assert (C : to_int (n / 4) = n / 4).
  { apply to_int_id. unfold is_int. split; [|exact Hc].
    assert (0 <= n / 4) by (apply Z.div_pos; lia).
    change (2 ^ 31) with 2147483648. lia. }
  rewrite C.
  destruct (write_loop_steady_total (seq 0 (Z.to_nat (n / 4))) wbuf
              (emit SpinLock s) St Hp) as (t & -> & T).
  exists t. split; [|exact T].
  rewrite set_all_trace. unfold all_sets. rewrite emit_frame.
  cbn [trace set_trace cfg]. unfold tx_range_int. cbn [cfg set_trace].
  do 2 f_equal. unfold emit, set_trace. cbn.
  rewrite <- !app_assoc. reflexivity.
Qed.

(** X4 on the request 1000, 500, 1000 with the software carrier off *)
Lemma lirc_write_steady_total_witness :
  exists t,
    lirc_write 12 (inr [1000; 500; 1000]) steady_state
    = Some (12, set_trace (SpinLock :: t ++ [GpioSet 200 false; SpinUnlock])
                  steady_state)
    /\ udelay_total t = 2500.
Proof.
  destruct (lirc_write_steady_total 12 [1000; 500; 1000] steady_state)
    as (t & E & T).
  - reflexivity.
  - lia.
  - change (2 ^ 31) with 2147483648. change (12 / 4) with 3. lia.
  - reflexivity.
  - reflexivity.
  - change (12 / 4) with 3. change (2 ^ 31) with 2147483648.
    repeat (constructor; [cbn; lia|]). constructor.
  - exists t. split; [exact E | exact T].
Defined.

End Steady.

(** ** Software carrier: the deadline *)

Section Deadline.

(** the carrier loop, started [actual_us - t0] microseconds into a pulse of
    [L] microseconds, stops at the first reading at or past [t0 + L] and
    returns how far past it is *)
Lemma softcarrier_loop_deadline (c : list Z) :
  forall (fuel : nat) (L actual target : Z) (flag : bool) (actual_us : Z)
         (s : state) (t0 : Z),
    clock s = c -> (length c < fuel)%nat ->
    0 <= t0 <= actual_us -> 1000 * (actual_us - t0) < 2 ^ 64 ->
    actual = 1000 * (actual_us - t0) ->
    Forall (fun t => actual_us < t) c -> StronglySorted Z.lt c -> spans t0 c ->
    0 <= L < 2 ^ 50 -> L <= actual_us - t0 + Z.of_nat (length c) ->
    exists t pre tf c',
      softcarrier_loop fuel (1000 * L) actual target flag actual_us s
      = Some (tf - t0 - L, set_clock c' (set_trace (trace s ++ t) s))
      /\ actual_us :: c = pre ++ tf :: c'
      /\ Forall (fun x => x < t0 + L) pre
      /\ t0 + L <= tf.
Proof.
  change (2 ^ 50) with 1125899906842624. change (2 ^ 64) with 18446744073709551616.
  induction c as [|t1 c IH];
    intros fuel L actual target flag actual_us s t0 Hc Hf Ht0 Hus Hact Hlt Hsort Hspan
           HL Hen.
  - destruct fuel as [|k]; [cbn in Hf; lia|]. cbn [softcarrier_loop].
    cbn [length] in Hen. destruct (Z.ltb_spec actual (1000 * L)); [lia|].
    exists [], [], actual_us, []. split; [|split; [reflexivity | split; [constructor | lia]]].
    rewrite app_nil_r, <- Hc, state_eta. do 2 f_equal.
    unfold uldiv, ulsub. rewrite to_ulong_id
      by (unfold is_ulong; change (2 ^ 64) with 18446744073709551616; lia).
    replace (actual - 1000 * L) with ((actual_us - t0 - L) * 1000) by lia.
    rewrite Z.div_mul by lia. apply to_long_id. unfold is_long.
    change (2 ^ 63) with 9223372036854775808. lia.
  - destruct fuel as [|k]; [cbn in Hf; lia|]. cbn [softcarrier_loop].
    destruct (Z.ltb_spec actual (1000 * L)) as [Hgo|Hstop].
    + cbv zeta.
      match goal with
      | |- context [read_current_us ?x] =>
          assert (Hx : exists t2, x = set_trace (trace s ++ t2) s)
      end.
      { rewrite set_enabled_trace.
        match goal with
        | |- context [if ?b then _ else _] => destruct b
        end.
        - unfold udelay. rewrite emit_frame, set_trace_twice. cbn [trace set_trace].
          rewrite <- app_assoc. eexists. reflexivity.
        - eexists. reflexivity. }
      destruct Hx as (t2 & ->).
      rewrite (read_current_us_next t1 c) by exact Hc.
      apply StronglySorted_inv in Hsort. destruct Hsort as [Hsort' Hlt'].
      inversion Hlt as [|x l Hx0 Hxl]; subst x l.
      unfold spans in Hspan. inversion Hspan as [|x l [Hr Hs] Hspan']; subst x l.
      change (2 ^ 64) with 18446744073709551616 in *.
      assert (E : uladd actual (ulmul (ulsub t1 actual_us) 1000) = 1000 * (t1 - t0)).
      { unfold uladd, ulmul, ulsub.
        rewrite (to_ulong_id (t1 - actual_us))
          by (unfold is_ulong; change (2 ^ 64) with 18446744073709551616; lia).
        rewrite (to_ulong_id ((t1 - actual_us) * 1000))
          by (unfold is_ulong; change (2 ^ 64) with 18446744073709551616; lia).
        rewrite to_ulong_id
          by (unfold is_ulong; change (2 ^ 64) with 18446744073709551616; lia).
        lia. }
      rewrite E.
      match goal with
      | |- context [softcarrier_loop k _ _ ?tg ?fl t1 ?s3] =>
          destruct (IH k L (1000 * (t1 - t0)) tg fl t1 s3 t0)
            as (t & pre & tf & c' & R & U & P & D)
      end; try assumption; try reflexivity; try lia.
      { cbn [length] in Hf. lia. }
      { cbn [length] in Hen. lia. }
      exists (t2 ++ t), (actual_us :: pre), tf, c'. rewrite R.
      cbn [trace set_trace set_clock]. rewrite <- app_assoc.
      split; [reflexivity|]. split; [cbn [app]; now rewrite U|].
      split; [constructor; [lia | exact P] | exact D].
    + exists [], [], actual_us, (t1 :: c).
      split; [|split; [reflexivity | split; [constructor | lia]]].
      rewrite app_nil_r, <- Hc, state_eta. do 2 f_equal.
      unfold uldiv, ulsub. rewrite to_ulong_id
        by (unfold is_ulong; change (2 ^ 64) with 18446744073709551616; lia).
      replace (actual - 1000 * L) with ((actual_us - t0 - L) * 1000) by lia.
      rewrite Z.div_mul by lia. apply to_long_id. unfold is_long.
      change (2 ^ 63) with 9223372036854775808. lia.
Qed.

Lemma send_pulse_softcarrier_overshoot (L t0 : Z) (c : list Z) (s : state) :
  clock s = t0 :: c -> ticking (t0 :: c) ->
  0 <= L < 2 ^ 31 -> L <= Z.of_nat (length c) ->
  exists t pre tf c',
    send_pulse_softcarrier L s
    = Some (tf - t0 - L, set_clock c' (set_trace (trace s ++ t) s))
    /\ t0 :: c = pre ++ tf :: c'
    /\ Forall (fun x => x < t0 + L) pre
    /\ t0 + L <= tf
    /\ 0 <= tf - t0 - L.
Proof.
  intros Hc Htick HL Hen. unfold send_pulse_softcarrier. cbv zeta.
  rewrite (read_current_us_next t0 c) by exact Hc.
  destruct (ticking_tail _ _ Htick) as (Ht0 & Hlt & Hsort & Hspan & _).
  change (2 ^ 31) with 2147483648 in HL.
  assert (M : ulmul L 1000 = 1000 * L).
  { unfold ulmul. rewrite to_ulong_id; [lia|].
    unfold is_ulong. change (2 ^ 64) with 18446744073709551616. lia. }
  rewrite M.
  assert (H1 : (length c < S (length (clock (set_clock c s))))%nat) by (cbn; lia).
  assert (H2 : 0 <= t0 <= t0) by lia.
  assert (H3 : 1000 * (t0 - t0) < 2 ^ 64) by (rewrite Z.sub_diag; reflexivity).
  assert (H4 : 0 = 1000 * (t0 - t0)) by lia.
  assert (H5 : 0 <= L < 2 ^ 50) by (change (2 ^ 50) with 1125899906842624; lia).
  assert (H6 : L <= t0 - t0 + Z.of_nat (length c)) by lia.
  destruct (softcarrier_loop_deadline c (S (length (clock (set_clock c s)))) L 0 0
              false t0 (set_clock c s) t0 eq_refl H1 H2 H3 H4 Hlt Hsort Hspan H5 H6)
    as (t & pre & tf & c' & R & U & P & D).
  exists t, pre, tf, c'. rewrite R. repeat split; try assumption; lia.
Qed.

(** X5: on a clock that advances (unsigned long readings that increase
    strictly, fewer than 2^64 nanoseconds from the first to the last) and
    has [L] readings left after the first, a software-carrier pulse of [L]
    microseconds started at reading [t0] ends at the first reading [tf]
    that is at or past [t0 + L], every reading before it being short of
    the deadline, and returns the overshoot [tf - t0 - L], which is never
    negative; it changes nothing but the trace, which it extends, and the
    clock. *)
Theorem send_pulse_softcarrier_deadline (L t0 : Z) (c : list Z) (s : state) :
  clock s = t0 :: c -> ticking (t0 :: c) ->
  0 <= L < 2 ^ 31 -> L <= Z.of_nat (length c) ->
  exists t pre tf c',
    send_pulse_softcarrier L s
    = Some (tf - t0 - L, set_clock c' (set_trace (trace s ++ t) s))
    /\ t0 :: c = pre ++ tf :: c'
    /\ Forall (fun x => x < t0 + L) pre
    /\ t0 + L <= tf
    /\ 0 <= tf - t0 - L.
Proof. apply send_pulse_softcarrier_overshoot. Qed.

(** X5 at 38 kHz on a wall clock that reads 1793318400000000 and then
    13 microseconds more at every reading: a pulse of 5 microseconds ends
    at the first reading at or past 1793318400000005 *)
Lemma send_pulse_softcarrier_deadline_witness :
  exists t pre tf c',
    send_pulse_softcarrier 5 wall_clock_state
    = Some (tf - 1793318400000000 - 5,
            set_clock c' (set_trace (trace wall_clock_state ++ t) wall_clock_state))
    /\ 1793318400000000
         :: map (fun k => 1793318400000000 + 13 * Z.of_nat k) (seq 1 7)
       = pre ++ tf :: c'
    /\ Forall (fun x => x < 1793318400000000 + 5) pre
    /\ 1793318400000000 + 5 <= tf
    /\ 0 <= tf - 1793318400000000 - 5.
Proof.
  apply send_pulse_softcarrier_deadline.
  - reflexivity.
  - unfold ticking, spans. cbn. change (2 ^ 64) with 18446744073709551616.
    split; repeat (first [lia | constructor]).
  - change (2 ^ 31) with 2147483648. lia.
  - cbn. lia.
Defined.




End Deadline.

(** ** Receive Decoder: every branch *)

Section DecoderBranches.

Lemma tv_before_delta (tv last : timeval) :
  tv_normal tv -> tv_normal last ->
  (tv_before tv last = true <-> delta_us tv last < 0).
Proof.
  unfold tv_normal, tv_before, delta_us. intros N L.
  rewrite orb_true_iff, andb_true_iff, !Z.ltb_lt, Z.eqb_eq. lia.
Qed.

(** X6: for normalised timestamps, [irq_handler]'s test for a clock that
    jumped backwards (seconds first, then microseconds) holds exactly when
    the elapsed time in microseconds is negative. *)
Theorem tv_before_iff_negative_delta (tv last : timeval) :
  tv_normal tv -> tv_normal last ->
  (tv_before tv last = true <-> delta_us tv last < 0).
Proof. apply tv_before_delta. Qed.

(** X6 from 10 s and 5 microseconds back to 9 s and 999999 microseconds *)
Lemma tv_before_iff_negative_delta_witness :
  tv_before {| tv_sec := 9; tv_usec := 999999 |} {| tv_sec := 10; tv_usec := 5 |} = true
  <-> delta_us {| tv_sec := 9; tv_usec := 999999 |} {| tv_sec := 10; tv_usec := 5 |} < 0.
Proof.
  apply tv_before_iff_negative_delta; unfold tv_normal; cbn; lia.
Defined.

Lemma long_small (x : Z) : - 2 ^ 62 <= x <= 2 ^ 62 -> to_long x = x.
Proof.
  intros H. apply to_long_id. unfold is_long.
  change (2 ^ 62) with 4611686018427387904 in H.
  change (2 ^ 63) with 9223372036854775808. lia.
Qed.

Lemma deltv_exact (tv last : timeval) :
  tv_in_range tv -> tv_in_range last ->
  lsub (tv_sec tv) (tv_sec last) = tv_sec tv - tv_sec last.
Proof.
  unfold tv_in_range. intros [A _] [B _]. apply long_small.
  change (2 ^ 62) with 4611686018427387904 in *. lia.
Qed.

(** the three branches of [irq_data], by what they yield *)
Lemma irq_data_cases (signal : Z) (tv : timeval) (s : state) :
  tv_in_range tv -> tv_in_range (lasttv s) ->
  (tv_before tv (lasttv s) || (15 <? tv_sec tv - tv_sec (lasttv s)) = true
   /\ fst (irq_data signal tv s) = PULSE_MASK)
  \/ (tv_before tv (lasttv s) || (15 <? tv_sec tv - tv_sec (lasttv s)) = false
      /\ irq_data signal tv s = (delta_us tv (lasttv s), s)
      /\ 0 <= delta_us tv (lasttv s) <= 15999999).
Proof.
  intros R L. unfold irq_data. cbv zeta. rewrite (deltv_exact tv (lasttv s) R L).
  destruct (tv_before tv (lasttv s)) eqn:B; [left; now split|].
  destruct (Z.ltb_spec 15 (tv_sec tv - tv_sec (lasttv s))) as [G|G].
  - left. split; [reflexivity|].
    now destruct (negb (truthy (Z.lxor signal (sense s)))).
  - right. split; [reflexivity|].
    assert (N : tv_normal tv) by apply R.
    assert (N' : tv_normal (lasttv s)) by apply L.
    assert (P : ~ delta_us tv (lasttv s) < 0).
    { intros D. apply (tv_before_delta tv (lasttv s) N N') in D. congruence. }
    unfold tv_normal, delta_us in *.
    assert (E2 : lmul (tv_sec tv - tv_sec (lasttv s)) 1000000
                 = (tv_sec tv - tv_sec (lasttv s)) * 1000000).
    { apply long_small. change (2 ^ 62) with 4611686018427387904. lia. }
    assert (E3 : lsub (tv_usec tv) (tv_usec (lasttv s))
                 = tv_usec tv - tv_usec (lasttv s)).
    { apply long_small. change (2 ^ 62) with 4611686018427387904. lia. }
    rewrite E2, E3. unfold ladd.
    rewrite long_small by (change (2 ^ 62) with 4611686018427387904; lia).
    rewrite to_int_id by (unfold is_int; change (2 ^ 31) with 2147483648; lia).
    split; [reflexivity | lia].
Qed.

Lemma lor_pulse_bit_bound (data : Z) :
  0 <= data <= PULSE_MASK -> 0 <= Z.lor data PULSE_BIT <= Z.lor PULSE_MASK PULSE_BIT.
Proof.
  intros H. split.
  - apply Z.lor_nonneg. unfold PULSE_BIT. lia.
  - pose proof (Z.add_lor_land data PULSE_BIT) as A.
    assert (0 <= Z.land data PULSE_BIT) by (apply Z.land_nonneg; lia).
    change (Z.lor PULSE_MASK PULSE_BIT) with (PULSE_MASK + PULSE_BIT). lia.
Qed.

Lemma tagged_wf (signal sns data : Z) :
  0 <= data <= PULSE_MASK -> record_wf (tagged signal sns data).
Proof.
  intros H. unfold record_wf, tagged. destruct (truthy (Z.lxor signal sns)).
  - change (Z.lor PULSE_MASK PULSE_BIT) with 33554431. unfold PULSE_MASK in H. lia.
  - now apply lor_pulse_bit_bound.
Qed.

(** X7: for timestamps in range, the record [irq_handler] hands to the Noise
    Filter always is a well-formed record, and its magnitude is PULSE_MASK
    when the clock jumped backwards or the seconds differ by more than 15,
    and the elapsed microseconds otherwise; as the idle test looks at whole
    seconds only, an exact magnitude can be as large as 15,999,999. *)
Theorem irq_record_magnitude (signal : Z) (tv : timeval) (s : state) :
  tv_in_range tv -> tv_in_range (lasttv s) ->
  record_wf (irq_record signal tv s)
  /\ record_magnitude (irq_record signal tv s)
     = (if tv_before tv (lasttv s) || (15 <? tv_sec tv - tv_sec (lasttv s))
        then PULSE_MASK else delta_us tv (lasttv s))
  /\ 0 <= record_magnitude (irq_record signal tv s) <= PULSE_MASK
  /\ (record_magnitude (irq_record signal tv s) <> PULSE_MASK ->
      record_magnitude (irq_record signal tv s) <= 15999999).
Proof.
  intros R L. unfold irq_record.
  destruct (irq_data_cases signal tv s R L) as [[C D]|(C & D & B)]; rewrite C.
  - destruct (irq_data signal tv s) as [data s1]. cbn [fst] in D. subst data.
    assert (M : 0 <= PULSE_MASK <= PULSE_MASK) by (unfold PULSE_MASK; lia).
    destruct (tagged_record signal (sense s1) PULSE_MASK M) as [E _].
    split; [now apply tagged_wf|]. rewrite E.
    split; [reflexivity|]. split; [unfold PULSE_MASK; lia | congruence].
  - rewrite D.
    assert (M : 0 <= delta_us tv (lasttv s) <= PULSE_MASK) by (unfold PULSE_MASK; lia).
    destruct (tagged_record signal (sense s) _ M) as [E _].
    split; [now apply tagged_wf|]. rewrite E.
    split; [reflexivity|]. split; [unfold PULSE_MASK; lia | lia].
Qed.

(** X7 on an edge 15 s and 999999 microseconds after the last one *)
Lemma irq_record_magnitude_witness :
  record_magnitude
    (irq_record 0 {| tv_sec := 15; tv_usec := 999999 |} active_low_state)
  = 15999999.
Proof.
  refine (proj1 (proj2 (irq_record_magnitude 0 {| tv_sec := 15; tv_usec := 999999 |}
                          active_low_state _ _))).
  - unfold tv_in_range. cbn. change (2 ^ 62) with 4611686018427387904. lia.
  - unfold tv_in_range. cbn. change (2 ^ 62) with 4611686018427387904. lia.
Defined.

(** X8: when the seconds of an edge are more than 15 past the last edge,
    the record is a SPACE of maximum magnitude whatever the line level: if
    the level equals the sense (a pulse where a space must be) the sense is
    flipped first, to 1 from 0 and to 0 from anything else, otherwise it
    is kept; the edge's timestamp becomes the last one. *)
Theorem irq_handler_idle_gap (signal : Z) (tv : timeval) (s : state) :
  sense s <> -1 ->
  tv_in_range tv -> tv_in_range (lasttv s) ->
  15 < tv_sec tv - tv_sec (lasttv s) ->
  irq_record signal tv s = PULSE_MASK
  /\ record_is_pulse (irq_record signal tv s) = false
  /\ sense (irq_handler signal tv s)
     = (if signal =? sense s then (if sense s =? 0 then 1 else 0) else sense s)
  /\ lasttv (irq_handler signal tv s) = tv.
Proof.
  intros Hs R L G.
  assert (B : tv_before tv (lasttv s) = false).
  { destruct (tv_before tv (lasttv s)) eqn:B; [|reflexivity].
    apply tv_before_delta in B; try apply R; try apply L.
    unfold delta_us, tv_in_range in *. lia. }
  assert (X : truthy (Z.lxor signal (sense s)) = negb (signal =? sense s)).
  { unfold truthy. f_equal. destruct (Z.eqb_spec signal (sense s)) as [E|E].
    - apply Z.eqb_eq. now apply Z.lxor_eq_0_iff.
    - apply Z.eqb_neq. intros Z0. apply Z.lxor_eq in Z0. contradiction. }
  assert (D : irq_data signal tv s
              = if signal =? sense s
                then (PULSE_MASK,
                      set_sense (if sense s =? 0 then 1 else 0)
                        (printk "AIEEEE: %d %d %lx %lx %lx %lx" (tv_args signal s tv) s))
                else (PULSE_MASK, s)).
  { unfold irq_data. cbv zeta. rewrite B, (deltv_exact tv (lasttv s) R L).
    destruct (Z.ltb_spec 15 (tv_sec tv - tv_sec (lasttv s))); [|lia].
    rewrite X, negb_involutive. destruct (signal =? sense s); [|reflexivity].
    unfold truthy. now destruct (sense s =? 0). }
  assert (Rec : irq_record signal tv s = PULSE_MASK).
  { unfold irq_record. rewrite D. unfold tagged.
    destruct (Z.eqb_spec signal (sense s)) as [E|E].
    - cbn [sense set_sense]. rewrite E.
      destruct (Z.eqb_spec (sense s) 0) as [Z0|NZ].
      + rewrite Z0. reflexivity.
      + rewrite Z.lxor_0_r. unfold truthy. apply Z.eqb_neq in NZ. now rewrite NZ.
    - now rewrite X. }
  split; [exact Rec|]. split; [now rewrite Rec|].
  unfold irq_handler. rewrite (sense_cases s Hs), D.
  destruct (signal =? sense s); cbn [sense lasttv emit set_trace set_lasttv];
    rewrite sense_frbwrite; split; reflexivity.
Qed.

(** X8 on an active-low receiver whose line reads high, as at rest, 20 s
    after the last edge: the sense is flipped to active high *)
Lemma irq_handler_idle_gap_witness :
  irq_record 1 {| tv_sec := 20; tv_usec := 0 |} active_low_state = PULSE_MASK
  /\ record_is_pulse (irq_record 1 {| tv_sec := 20; tv_usec := 0 |} active_low_state)
     = false
  /\ sense (irq_handler 1 {| tv_sec := 20; tv_usec := 0 |} active_low_state) = 0
  /\ lasttv (irq_handler 1 {| tv_sec := 20; tv_usec := 0 |} active_low_state)
     = {| tv_sec := 20; tv_usec := 0 |}.
Proof.
  apply (irq_handler_idle_gap 1 {| tv_sec := 20; tv_usec := 0 |} active_low_state).
  - discriminate.
  - unfold tv_in_range. cbn. change (2 ^ 62) with 4611686018427387904. lia.
  - unfold tv_in_range. cbn. change (2 ^ 62) with 4611686018427387904. lia.
  - cbn. lia.
Defined.

End DecoderBranches.

(** ** Noise Filter and Ring Buffer: what the receive path keeps *)

Section ReceivePath.

Lemma frb_dprintk (t : string) (a : list Z) (s : state) : frb (dprintk t a s) = frb s.
Proof. unfold dprintk, printk, emit. now destruct (debug (cfg s)). Qed.

Lemma frb_rbwrite (l : Z) (s : state) : frb (rbwrite l s) = frb s.
Proof.
  unfold rbwrite. destruct (lirc_buffer_full (rbuf s)).
  - apply frb_dprintk.
  - reflexivity.
Qed.

Lemma no_pulse_bit_small (l : Z) :
  record_wf l -> truthy (Z.land l PULSE_BIT) = false -> 0 <= l <= PULSE_MASK.
Proof.
  unfold record_wf, truthy. intros W B.
  apply negb_false_iff, Z.eqb_eq in B.
  assert (E : Z.land l (Z.lor PULSE_MASK PULSE_BIT) = l).
  { change (Z.lor PULSE_MASK PULSE_BIT) with (Z.ones 25) in *.
    rewrite Z.land_ones by lia. apply Z.mod_small.
    rewrite Z.ones_equiv in W. lia. }
  rewrite Z.land_lor_distr_r, B, Z.lor_0_r in E.
  rewrite <- E. change PULSE_MASK with (Z.ones 24).
  rewrite Z.land_ones by lia.
  pose proof (Z.mod_pos_bound l (2 ^ 24) ltac:(lia)).
  rewrite Z.ones_equiv. lia.
Qed.

Lemma magnitude_range (l : Z) : 0 <= Z.land l PULSE_MASK <= PULSE_MASK.
Proof.
  change PULSE_MASK with (Z.ones 24). rewrite Z.land_ones by lia.
  pose proof (Z.mod_pos_bound l (2 ^ 24) ltac:(lia)).
  rewrite Z.ones_equiv. lia.
Qed.

(** X9: [frbwrite] keeps the filter's statics in shape for every
    well-formed record: the filter is unarmed with no pulse pending, or
    armed (ptr = 1) on a space above 20000 and at most PULSE_MASK with a
    pending pulse total between 0 and 250. *)
Theorem frbwrite_keeps_filter_ok (l : Z) (s : state) :
  filter_ok (frb s) -> record_wf l -> filter_ok (frb (frbwrite l s)).
Proof.
  intros F W. pose proof (magnitude_range l) as M.
  unfold PULSE_MASK in M. unfold frbwrite. cbv zeta.
  destruct F as [[P0 Z0]|(P1 & S & Pu)].
  - rewrite P0. cbn [Z.ltb Z.compare andb Z.eqb].
    destruct (truthy (Z.land l PULSE_BIT)) eqn:B; cbn [negb].
    + rewrite frb_rbwrite. now left.
    + destruct (Z.ltb_spec 20000 l).
      * cbn [frb set_frb]. right. cbn [ptr space pulse].
        pose proof (no_pulse_bit_small l W B). repeat split; unfold PULSE_MASK in *; lia.
      * rewrite frb_rbwrite. now left.
  - rewrite P1. cbn [Z.ltb Z.compare andb Z.eqb]. unfold PULSE_MASK in *.
    destruct (truthy (Z.land l PULSE_BIT)) eqn:B; cbn [negb].
    + rewrite (to_int_id (pulse (frb s) + Z.land l 16777215))
        by (unfold is_int; change (2 ^ 31) with 2147483648; lia).
      destruct (Z.ltb_spec 250 (pulse (frb s) + Z.land l 16777215)).
      * cbn [frb set_frb]. now left.
      * cbn [frb set_frb]. right. cbn [ptr space pulse]. repeat split; unfold PULSE_MASK in *; lia.
    + pose proof (no_pulse_bit_small l W B) as Sm. unfold PULSE_MASK in Sm.
      destruct (Z.ltb_spec 20000 l).
      * cbn [frb set_frb]. right. cbn [ptr space pulse].
        rewrite (to_int_id (space (frb s) + pulse (frb s)))
          by (unfold is_int; change (2 ^ 31) with 2147483648; lia).
        destruct (Z.ltb_spec 16777215 (space (frb s) + pulse (frb s)));
          (rewrite to_int_id
             by (unfold is_int; change (2 ^ 31) with 2147483648; lia));
          match goal with
          | |- context [if ?b then _ else _] => destruct b eqn:C
          end; try apply Z.ltb_lt in C; try apply Z.ltb_ge in C;
          repeat split; unfold PULSE_MASK in *; lia.
      * rewrite frb_rbwrite. cbn [frb set_frb]. now left.
Qed.

(** X9 from the reset state on a long space *)
Lemma frbwrite_keeps_filter_ok_witness :
  filter_ok (frb (frbwrite 25000 initial_state)).
Proof.
  apply frbwrite_keeps_filter_ok.
  - left. split; reflexivity.
  - unfold record_wf. cbn. lia.
Defined.

Lemma buffer_extends_refl (b : lirc_buffer) : buffer_extends 0 b b.
Proof.
  unfold buffer_extends. repeat split; try tauto.
  exists []. now rewrite app_nil_r.
Qed.

Lemma buffer_extends_trans (j k : nat) (a b c : lirc_buffer) :
  buffer_extends j a b -> buffer_extends k b c -> buffer_extends (j + k) a c.
Proof.
  intros (S1 & C1 & O1 & (x & F1 & L1) & B1) (S2 & C2 & O2 & (y & F2 & L2) & B2).
  unfold buffer_extends. repeat split; try congruence.
  - exists (x ++ y). rewrite F2, F1, <- app_assoc, length_app. split; [reflexivity | lia].
  - intros H. apply B2, B1, H.
Qed.

Lemma buffer_extends_more (j k : nat) (a b : lirc_buffer) :
  (j <= k)%nat -> buffer_extends j a b -> buffer_extends k a b.
Proof.
  intros Hjk (S1 & C1 & O1 & (x & F1 & L1) & B1).
  unfold buffer_extends. repeat split; try assumption.
  exists x. split; [assumption | lia].
Qed.

Lemma rbwrite_extends (l : Z) (s : state) :
  buffer_extends 1 (rbuf s) (rbuf (rbwrite l s)).
Proof.
  destruct (lirc_buffer_full (rbuf s)) eqn:E.
  - rewrite rbwrite_full, rbuf_dprintk by assumption.
    apply (buffer_extends_more 0); [lia | apply buffer_extends_refl].
  - rewrite rbwrite_room by assumption. cbn [rbuf set_rbuf].
    unfold buffer_extends, buf_push, lirc_buffer_len. cbn.
    repeat split.
    + exists [l]. split; [reflexivity | cbn; lia].
    + intros _. unfold lirc_buffer_full, lirc_buffer_len in E.
      apply Z.leb_gt in E. rewrite length_app. cbn [length]. lia.
Qed.

Lemma frbwrite_extends (l : Z) (s : state) :
  buffer_extends 3 (rbuf s) (rbuf (frbwrite l s)).
Proof.
  unfold frbwrite. cbv zeta.
  repeat match goal with
         | |- context [if ?c then _ else _] => destruct c
         end;
    cbn [rbuf set_frb];
    first
      [ apply (buffer_extends_more 0); [lia | apply buffer_extends_refl]
      | apply (buffer_extends_more 1); [lia | apply rbwrite_extends]
      | apply (buffer_extends_more (1 + 1)); [lia|];
        eapply buffer_extends_trans; apply rbwrite_extends
      | apply (buffer_extends_more (1 + 1 + 1)); [lia|];
        eapply buffer_extends_trans;
        [eapply buffer_extends_trans; apply rbwrite_extends|];
        apply (rbwrite_extends l (set_frb _ _)) ].
Qed.

(** X10: whatever the edge, [irq_handler] only appends to the Ring Buffer:
    the records stored before stay in place and in order, at most three
    records are added, the capacity and the overflow flag are untouched,
    and a buffer that held no more than its capacity still does. *)
Theorem irq_handler_appends_only (signal : Z) (tv : timeval) (s : state) :
  buf_size (rbuf (irq_handler signal tv s)) = buf_size (rbuf s)
  /\ buf_overflow (rbuf (irq_handler signal tv s)) = buf_overflow (rbuf s)
  /\ (exists added,
        buf_fifo (rbuf (irq_handler signal tv s)) = buf_fifo (rbuf s) ++ added
        /\ (length added <= 3)%nat)
  /\ (lirc_buffer_len (rbuf s) <= buf_size (rbuf s) ->
      lirc_buffer_len (rbuf (irq_handler signal tv s))
      <= buf_size (rbuf (irq_handler signal tv s))).
Proof.
  assert (E : buffer_extends 3 (rbuf s) (rbuf (irq_handler signal tv s))).
  { unfold irq_handler. destruct (negb (sense s =? -1)).
    - destruct (irq_data signal tv s) as [data s1] eqn:D.
      cbn [rbuf emit set_trace set_lasttv].
      assert (R : rbuf s1 = rbuf s).
      { unfold irq_data in D. cbv zeta in D.
        repeat match type of D with
               | context [if ?c then _ else _] => destruct c
               end;
          injection D as _ <-; reflexivity. }
      rewrite <- R. apply frbwrite_extends.
    - apply (buffer_extends_more 0); [lia | apply buffer_extends_refl]. }
  destruct E as (S1 & _ & O1 & A & B). repeat split; assumption.
Qed.

(** X10 on the driver's buffer filled to capacity: an edge leaves it at
    capacity *)
Lemma irq_handler_appends_only_witness :
  lirc_buffer_len
    (rbuf (irq_handler 0 {| tv_sec := 0; tv_usec := 500 |} (set_sense 1 full_state)))
  <= buf_size
       (rbuf (irq_handler 0 {| tv_sec := 0; tv_usec := 500 |} (set_sense 1 full_state))).
Proof.
  refine (proj2 (proj2 (proj2 (irq_handler_appends_only 0
                                 {| tv_sec := 0; tv_usec := 500 |}
                                 (set_sense 1 full_state)))) _).
  vm_compute. discriminate.
Defined.

Lemma magnitude_total_app (a b : list Z) :
  magnitude_total (a ++ b) = magnitude_total a + magnitude_total b.
Proof. induction a as [|r a IH]; cbn [app magnitude_total]; lia. Qed.

Lemma rbwrite_with_room (l : Z) (s : state) :
  (1 <= room (rbuf s))%nat ->
  rbwrite l s = set_rbuf (buf_push l (rbuf s)) s
  /\ room (rbuf (rbwrite l s)) = (room (rbuf s) - 1)%nat.
Proof.
  intros R.
  assert (N : lirc_buffer_full (rbuf s) = false).
  { destruct (lirc_buffer_full (rbuf s)) eqn:E; [|reflexivity].
    apply full_no_room in E. lia. }
  rewrite rbwrite_room by exact N. split; [reflexivity|].
  unfold room, buf_push. cbn. rewrite length_app. cbn [length]. lia.
Qed.

(** what one, and three, writes with room add to the stored magnitudes *)
Lemma rbwrite_magnitude (l : Z) (s : state) :
  (1 <= room (rbuf s))%nat ->
  magnitude_total (buf_fifo (rbuf (rbwrite l s)))
  = magnitude_total (buf_fifo (rbuf s)) + record_magnitude l
  /\ room (rbuf (rbwrite l s)) = (room (rbuf s) - 1)%nat
  /\ frb (rbwrite l s) = frb s.
Proof.
  intros R. destruct (rbwrite_with_room l s R) as [E Rm].
  split; [|split; [exact Rm | apply frb_rbwrite]].
  rewrite E. unfold buf_push. cbn. rewrite magnitude_total_app. cbn. lia.
Qed.

Lemma flush_magnitude (a b c : Z) (f : frb_static) (s : state) :
  (3 <= room (rbuf s))%nat ->
  magnitude_total
    (buf_fifo (rbuf (rbwrite c (set_frb f (rbwrite b (rbwrite a s))))))
  = magnitude_total (buf_fifo (rbuf s))
    + record_magnitude a + record_magnitude b + record_magnitude c.
Proof.
  intros R.
  destruct (rbwrite_magnitude a s) as (M1 & R1 & _); [lia|].
  destruct (rbwrite_magnitude b (rbwrite a s)) as (M2 & R2 & _); [lia|].
  destruct (rbwrite_magnitude c (set_frb f (rbwrite b (rbwrite a s))))
    as (M3 & _ & _); [cbn [rbuf set_frb]; lia|].
  rewrite M3. cbn [rbuf set_frb]. lia.
Qed.

(** X11: with the filter's statics in shape, room for three records and
    no saturation (the pending time plus the record's magnitude is at most
    PULSE_MASK), [frbwrite] neither loses nor adds time: the magnitudes
    stored in the buffer plus the time the filter holds back grow by
    exactly the magnitude of the record fed in. *)
Theorem frbwrite_conserves_time (l : Z) (s : state) :
  filter_ok (frb s) -> record_wf l -> (3 <= room (rbuf s))%nat ->
  filter_pending (frb s) + record_magnitude l <= PULSE_MASK ->
  magnitude_total (buf_fifo (rbuf (frbwrite l s))) + filter_pending (frb (frbwrite l s))
  = magnitude_total (buf_fifo (rbuf s)) + filter_pending (frb s) + record_magnitude l.
Proof.
  intros F W R Sat. pose proof (magnitude_range l) as M.
  unfold filter_pending, record_magnitude in *. unfold frbwrite. cbv zeta.
  destruct F as [[P0 Z0]|(P1 & S & Pu)].
  - rewrite P0 in *. cbn [Z.ltb Z.compare andb Z.eqb] in *.
    destruct (truthy (Z.land l PULSE_BIT)) eqn:B; cbn [negb].
    + destruct (rbwrite_magnitude l s) as (M1 & _ & Fr); [lia|].
      rewrite M1, Fr, P0. cbn [Z.eqb]. unfold record_magnitude. lia.
    + pose proof (no_pulse_bit_small l W B) as Sm.
      destruct (Z.ltb_spec 20000 l).
      * cbn [frb set_frb rbuf ptr space pulse]. change (to_uint (0 + 1)) with 1.
        cbn [Z.eqb]. rewrite land_mask_small by assumption. lia.
      * destruct (rbwrite_magnitude l s) as (M1 & _ & Fr); [lia|].
        rewrite M1, Fr, P0. cbn [Z.eqb]. unfold record_magnitude. lia.
  - rewrite P1 in *. cbn [Z.ltb Z.compare andb Z.eqb] in *.
    destruct (truthy (Z.land l PULSE_BIT)) eqn:B; cbn [negb].
    + rewrite (to_int_id (pulse (frb s) + Z.land l PULSE_MASK))
        by (unfold is_int, PULSE_MASK in *; change (2 ^ 31) with 2147483648; lia).
      destruct (Z.ltb_spec 250 (pulse (frb s) + Z.land l PULSE_MASK)).
      * cbn [frb set_frb rbuf ptr space pulse Z.eqb].
        destruct (rbwrite_magnitude (space (frb s)) s) as (M1 & R1 & _); [lia|].
        destruct (rbwrite_magnitude
                    (Z.lor (pulse (frb s) + Z.land l PULSE_MASK) PULSE_BIT)
                    (rbwrite (space (frb s)) s)) as (M2 & _ & _); [lia|].
        rewrite M2, M1. unfold record_magnitude.
        rewrite lor_bit_magnitude, !land_mask_small by lia. lia.
      * cbn [frb set_frb rbuf ptr space pulse Z.eqb]. lia.
    + pose proof (no_pulse_bit_small l W B) as Sm.
      rewrite (land_mask_small l Sm) in *.
      destruct (Z.ltb_spec 20000 l).
      * cbn [frb set_frb rbuf ptr space pulse Z.eqb].
        rewrite (to_int_id (space (frb s) + pulse (frb s)))
          by (unfold is_int, PULSE_MASK in *; change (2 ^ 31) with 2147483648; lia).
        destruct (Z.ltb_spec PULSE_MASK (space (frb s) + pulse (frb s))); [lia|].
        rewrite (to_int_id (space (frb s) + pulse (frb s) + l))
          by (unfold is_int, PULSE_MASK in *; change (2 ^ 31) with 2147483648; lia).
        destruct (Z.ltb_spec PULSE_MASK (space (frb s) + pulse (frb s) + l)); lia.
      * rewrite frb_rbwrite. cbn [frb set_frb ptr Z.eqb].
        rewrite flush_magnitude by assumption. unfold record_magnitude.
        rewrite lor_bit_magnitude, !land_mask_small by lia. lia.
Qed.

(** X11 on the filter armed by SPACE 25000 with PULSE 100 pending: a short
    space of 1000 flushes them and 26100 microseconds are accounted for *)
Lemma frbwrite_conserves_time_witness :
  magnitude_total
    (buf_fifo (rbuf (frbwrite 1000
                       (frbwrite (Z.lor 100 PULSE_BIT) (frbwrite 25000 initial_state)))))
  + filter_pending
      (frb (frbwrite 1000
              (frbwrite (Z.lor 100 PULSE_BIT) (frbwrite 25000 initial_state))))
  = 26100.
Proof.
  refine (eq_trans
            (frbwrite_conserves_time 1000
               (frbwrite (Z.lor 100 PULSE_BIT) (frbwrite 25000 initial_state)) _ _ _ _)
            _).
  - right. repeat split; vm_compute; first [reflexivity | discriminate].
  - unfold record_wf. split; vm_compute; discriminate.
  - vm_compute. lia.
  - vm_compute. discriminate.
  - reflexivity.
Defined.

End ReceivePath.

(** ** Receive Decoder: from one edge to the next *)

Section Edges.

Lemma irq_data_sense (signal : Z) (tv : timeval) (s : state) :
  sense s <> -1 -> sense (snd (irq_data signal tv s)) <> -1.
Proof.
  intros H. unfold irq_data. cbv zeta.
  repeat match goal with
         | |- context [if ?c then _ else _] => destruct c
         end;
    cbn [snd sense printk emit set_trace set_sense]; try assumption; discriminate.
Qed.

Lemma irq_handler_after (signal : Z) (tv : timeval) (s : state) :
  sense s <> -1 ->
  sense (irq_handler signal tv s) <> -1 /\ lasttv (irq_handler signal tv s) = tv.
Proof.
  intros H. unfold irq_handler. rewrite (sense_cases s H).
  pose proof (irq_data_sense signal tv s H) as L.
  destruct (irq_data signal tv s) as [data s1]. cbn [snd] in L.
  cbn [sense lasttv emit set_trace set_lasttv]. now rewrite sense_frbwrite.
Qed.

(** X12: a calibrated decoder stays calibrated and remembers the edge it
    handled, so the record of the next edge, when the clock did not go back
    and at most 15,000,000 microseconds passed, carries exactly the time
    between the two edges, tagged SPACE when the new level XOR the sense is
    non-zero and PULSE otherwise. *)
Theorem irq_handler_consecutive_edges
    (signal1 signal2 : Z) (tv1 tv2 : timeval) (s : state) :
  sense s <> -1 ->
  tv_normal tv1 -> tv_normal tv2 ->
  tv_before tv2 tv1 = false -> delta_us tv2 tv1 <= 15000000 ->
  let s1 := irq_handler signal1 tv1 s in
  sense s1 <> -1
  /\ lasttv s1 = tv1
  /\ record_magnitude (irq_record signal2 tv2 s1) = delta_us tv2 tv1
  /\ record_is_pulse (irq_record signal2 tv2 s1)
     = negb (truthy (Z.lxor signal2 (sense s1))).
Proof.
  intros H N1 N2 B D s1.
  destruct (irq_handler_after signal1 tv1 s H) as [Live Last]. fold s1 in Live, Last.
  split; [exact Live|]. split; [exact Last|].
  assert (N1' : tv_normal (lasttv s1)) by now rewrite Last.
  assert (B' : tv_before tv2 (lasttv s1) = false) by now rewrite Last.
  assert (D' : delta_us tv2 (lasttv s1) <= 15000000) by now rewrite Last.
  destruct (irq_data_interval signal2 tv2 s1 N2 N1' B' D') as [E P].
  unfold irq_record. rewrite E, Last in *.
  apply tagged_record. unfold PULSE_MASK. lia.
Qed.

(** X12 on an active-low receiver: the line falls at 1 s and rises 560
    microseconds later, which closes a pulse of 560 *)
Lemma irq_handler_consecutive_edges_witness :
  record_magnitude
    (irq_record 1 {| tv_sec := 1; tv_usec := 560 |}
       (irq_handler 0 {| tv_sec := 1; tv_usec := 0 |} active_low_state))
  = 560
  /\ record_is_pulse
       (irq_record 1 {| tv_sec := 1; tv_usec := 560 |}
          (irq_handler 0 {| tv_sec := 1; tv_usec := 0 |} active_low_state))
     = true.
Proof.
  refine (proj2 (proj2 (irq_handler_consecutive_edges 0 1
                          {| tv_sec := 1; tv_usec := 0 |}
                          {| tv_sec := 1; tv_usec := 560 |}
                          active_low_state _ _ _ _ _))).
  - discriminate.
  - unfold tv_normal. cbn. lia.
  - unfold tv_normal. cbn. lia.
  - reflexivity.
  - vm_compute. discriminate.
Defined.

End Edges.

(** ** Control operations and the carrier *)

Section CarrierControl.

(** within the ranges of the control operations an update is refused and
    changes nothing, or is accepted and leaves valid parameters *)
Lemma init_timing_params_valid (d f : Z) (s : state) :
  1 <= d <= 100 -> 0 < f <= 500000 ->
  init_timing_params d f s = (- EINVAL, s)
  \/ (fst (init_timing_params d f s) = 0
      /\ carrier_valid (car (snd (init_timing_params d f s)))
      /\ duty_cycle (car (snd (init_timing_params d f s))) = d
      /\ freq (car (snd (init_timing_params d f s))) = f).
Proof.
  intros Hd Hf.
  assert (Ud : is_uint d) by (unfold is_uint; change (2 ^ 32) with 4294967296; lia).
  assert (Uf : is_uint f) by (unfold is_uint; change (2 ^ 32) with 4294967296; lia).
  assert (Pf : 0 < f) by lia. assert (Dl : d <= 100) by lia.
  rewrite init_timing_params_cases by assumption.
  destruct (Z.leb_spec (checked_pulse d f) LIRC_TRANSMITTER_LATENCY) as [|Cp];
    [now left|].
  destruct (Z.leb_spec (checked_space d f) LIRC_TRANSMITTER_LATENCY) as [|Cs];
    [now left|].
  right. cbn [orb fst snd]. rewrite car_dprintk.
  cbn [car set_car]. split; [reflexivity|]. split; [|split; reflexivity].
  destruct (derived_space_width_small_duty d f Ud Uf Pf Dl) as [S C].
  rewrite checked_pulse_eq in Cp by assumption.
  unfold carrier_valid. cbn [freq duty_cycle period pulse_width space_width].
  rewrite derived_period_eq, derived_pulse_width_eq by assumption.
  repeat split; lia.
Qed.

Lemma lirc_ioctl_carrier (cmd : ioctl_cmd) (user : Z + Z) (fop : Z) (s : state) :
  carrier_valid (car s) ->
  carrier_off_request cmd user = false ->
  carrier_valid (car (snd (lirc_ioctl cmd user fop s))).
Proof.
  intros V Off. pose proof V as (Hd & Hf & _).
  destruct cmd; cbn [lirc_ioctl]; cbv zeta.
  - cbn [snd]. now rewrite car_dprintk.
  - destruct user as [e|v]; [|destruct (negb (v =? LIRC_MODE_PULSE))];
      cbn [snd]; now rewrite car_dprintk.
  - cbn [snd]. now rewrite car_dprintk.
  - destruct user as [e|v]; [cbn [snd]; now rewrite car_dprintk|].
    destruct (Z.leb_spec v 0); [cbn [orb snd]; now rewrite car_dprintk|].
    destruct (Z.ltb_spec 100 v); [cbn [orb snd]; now rewrite car_dprintk|].
    cbn [orb]. rewrite car_dprintk.
    match goal with
    | |- context [init_timing_params v ?f ?t] =>
        destruct (init_timing_params_valid v f t) as [->|(_ & W & _)];
        try lia; [cbn [snd]; now rewrite car_dprintk | exact W]
    end.
  - destruct user as [e|v]; [cbn [snd]; now rewrite car_dprintk|].
    cbn [carrier_off_request] in Off. apply Z.eqb_neq in Off.
    destruct (Z.ltb_spec 500000 v); [cbn [orb snd]; now rewrite car_dprintk|].
    destruct (Z.ltb_spec v 0); [cbn [orb snd]; now rewrite car_dprintk|].
    cbn [orb]. rewrite car_dprintk.
    match goal with
    | |- context [init_timing_params ?d v ?t] =>
        destruct (init_timing_params_valid d v t) as [->|(_ & W & _)];
        try lia; [cbn [snd]; now rewrite car_dprintk | exact W]
    end.
  - destruct user as [e|v]; [cbn [snd]; now rewrite car_dprintk|].
    match goal with
    | |- context [if ?b then _ else _] => destruct b
    end; cbn [snd car set_tx_mask]; now rewrite car_dprintk.
  - cbn [snd]. now rewrite car_dprintk.
Qed.

(** X13: valid carrier parameters (duty cycle 1..100, frequency
    1..500000, period = 1e9 / frequency, pulse_width = period * duty_cycle /
    100, pulse_width + space_width = period, both widths above the latency)
    stay valid under every control operation, accepted or refused, except
    the one that switches the carrier off. *)
Theorem lirc_ioctl_keeps_carrier_valid
    (cmd : ioctl_cmd) (user : Z + Z) (fop : Z) (s : state) :
  carrier_valid (car s) ->
  carrier_off_request cmd user = false ->
  carrier_valid (car (snd (lirc_ioctl cmd user fop s))).
Proof. apply lirc_ioctl_carrier. Qed.

(** X13 after the defaults were set up: duty cycle 30 is accepted at 38 kHz
    and the parameters are valid *)
Lemma lirc_ioctl_keeps_carrier_valid_witness :
  carrier_valid
    (car (snd (lirc_ioctl LIRC_SET_SEND_DUTY_CYCLE (inr 30) 0 carrier_state))).
Proof.
  apply lirc_ioctl_keeps_carrier_valid.
  - unfold carrier_valid. cbn. repeat split; try lia; reflexivity.
  - reflexivity.
Defined.

(** X14: switching the carrier off stores the duty cycle INVALID, that is
    4294967295 as an unsigned int, and switching it on again at any
    frequency from 1 to 500000 passes both guards with that duty cycle: the
    operation returns 0 and leaves a pulse_width larger than the period,
    so the parameters are not valid. *)
Theorem lirc_ioctl_carrier_off_then_on (f fop fop' : Z) (s : state) :
  0 < f <= 500000 ->
  let off := lirc_ioctl LIRC_SET_SEND_CARRIER (inr 0) fop s in
  let on := lirc_ioctl LIRC_SET_SEND_CARRIER (inr f) fop' (snd off) in
  fst off = 0
  /\ freq (car (snd off)) = 0
  /\ duty_cycle (car (snd off)) = 4294967295
  /\ fst on = 0
  /\ freq (car (snd on)) = f
  /\ duty_cycle (car (snd on)) = 4294967295
  /\ period (car (snd on)) = 1000000000 / f
  /\ period (car (snd on)) < pulse_width (car (snd on))
  /\ ~ carrier_valid (car (snd on)).
Proof.
  intros Hf off on.
  assert (Uf : is_uint f) by (unfold is_uint; change (2 ^ 32) with 4294967296; lia).
  assert (Ud : is_uint 4294967295)
    by (unfold is_uint; change (2 ^ 32) with 4294967296; lia).
  assert (Pf : 0 < f) by lia.
  assert (Off : off = (0, dprintk "in init_timing_params, freq=%d pulse=%ld, space=%ld"
                            [0; to_long (to_ulong INVALID); to_long (to_ulong INVALID)]
                            (set_car {| freq := 0; duty_cycle := to_uint INVALID;
                                        period := to_ulong INVALID;
                                        pulse_width := to_ulong INVALID;
                                        space_width := to_ulong INVALID |}
                               (dprintk "SET_SEND_CARRIER" [] s)))) by reflexivity.
  assert (D : duty_cycle (car (snd off)) = 4294967295).
  { rewrite Off. cbn [snd]. now rewrite car_dprintk. }
  assert (F : freq (car (snd off)) = 0).
  { rewrite Off. cbn [snd]. now rewrite car_dprintk. }
  split; [now rewrite Off|]. split; [exact F|]. split; [exact D|].
  destruct (base_period f Uf Pf) as [_ B].
  assert (P : 2000 <= 1000000000 / f) by (apply Z.div_le_lower_bound; lia).
  assert (On : on = init_timing_params 4294967295 f (dprintk "SET_SEND_CARRIER" [] (snd off))).
  { subst on. cbn [lirc_ioctl]. cbv zeta.
    destruct (Z.ltb_spec 500000 f); [lia|]. destruct (Z.ltb_spec f 0); [lia|].
    cbn [orb]. now rewrite car_dprintk, D. }
  rewrite On, init_timing_params_cases by assumption.
  assert (Cp : checked_pulse 4294967295 f = 1000000000 / f * 4294967295 / 100)
    by now apply checked_pulse_eq.
  assert (Cs : checked_space 4294967295 f = 1000000000 / f * 101 / 100).
  { rewrite checked_space_eq by assumption. reflexivity. }
  assert (Q1 : 1000000000 / f * 42949672 <= 1000000000 / f * 4294967295 / 100).
  { apply Z.div_le_lower_bound; lia. }
  assert (Q2 : 1000000000 / f <= 1000000000 / f * 101 / 100).
  { apply Z.div_le_lower_bound; lia. }
  unfold LIRC_TRANSMITTER_LATENCY.
  destruct (Z.leb_spec (checked_pulse 4294967295 f) 50); [lia|].
  destruct (Z.leb_spec (checked_space 4294967295 f) 50); [lia|].
  cbn [orb fst snd]. rewrite car_dprintk.
  cbn [car set_car freq duty_cycle period pulse_width].
  rewrite derived_period_eq, derived_pulse_width_eq by assumption.
  repeat split; try lia.
  intros (Hd & _). cbn [duty_cycle] in Hd. lia.
Qed.

(** X14 at 38 kHz from the initial statics *)
Lemma lirc_ioctl_carrier_off_then_on_witness :
  fst (lirc_ioctl LIRC_SET_SEND_CARRIER (inr 38000) 0
         (snd (lirc_ioctl LIRC_SET_SEND_CARRIER (inr 0) 0 initial_state))) = 0
  /\ duty_cycle
       (car (snd (lirc_ioctl LIRC_SET_SEND_CARRIER (inr 38000) 0
                    (snd (lirc_ioctl LIRC_SET_SEND_CARRIER (inr 0) 0 initial_state)))))
     = 4294967295.
Proof.
  destruct (lirc_ioctl_carrier_off_then_on 38000 0 0 initial_state)
    as (_ & _ & _ & R & _ & D & _).
  - lia.
  - split; [exact R | exact D].
Defined.

End CarrierControl.

(** ** Control operations: what they leave alone *)

Section ControlFrame.

Lemma control_frame_refl (s : state) : control_frame s s.
Proof.
  exists (car s), (tx_mask s), []. repeat split.
  rewrite app_nil_r. now destruct s.
Qed.

Lemma control_frame_dprintk (t : string) (a : list Z) (s x : state) :
  control_frame s x -> control_frame s (dprintk t a x).
Proof.
  intros (c & m & logs & -> & P & Q). unfold dprintk, printk, emit.
  cbn [cfg set_trace set_tx_mask set_car trace].
  destruct (debug (cfg s)) eqn:D.
  - exists c, m, (logs ++ [Printk t a]). split; [|split].
    + now rewrite <- app_assoc.
    + rewrite forallb_app, P. reflexivity.
    + intros H. congruence.
  - exists c, m, logs. split; [reflexivity | split; [assumption|]].
    intros _. now apply Q.
Qed.

Lemma control_frame_set_car (c : carrier) (s x : state) :
  control_frame s x -> control_frame s (set_car c x).
Proof.
  intros (c0 & m & logs & -> & P & Q). exists c, m, logs. repeat split; assumption.
Qed.

Lemma control_frame_set_tx_mask (m : Z) (s x : state) :
  control_frame s x -> control_frame s (set_tx_mask m x).
Proof.
  intros (c & m0 & logs & -> & P & Q). exists c, m, logs. repeat split; assumption.
Qed.

Lemma control_frame_init_timing_params (d f : Z) (s x : state) :
  control_frame s x -> control_frame s (snd (init_timing_params d f x)).
Proof.
  intros H. unfold init_timing_params. cbv zeta.
  repeat match goal with
         | |- context [if ?c then _ else _] => destruct c
         end;
    cbn [snd]; try assumption;
    apply control_frame_dprintk, control_frame_set_car, H.
Qed.

(** X15: no control operation drives an output line, waits, or touches the
    receive path: whatever the command, the value read and the outcome,
    [lirc_ioctl] changes at most the carrier parameters and the transmit
    mask, and appends only log lines to the trace, none when debugging is
    off. *)
Theorem lirc_ioctl_frame (cmd : ioctl_cmd) (user : Z + Z) (fop : Z) (s : state) :
  exists c m logs,
    snd (lirc_ioctl cmd user fop s)
    = set_trace (trace s ++ logs) (set_tx_mask m (set_car c s))
    /\ forallb is_printk logs = true
    /\ (debug (cfg s) = false -> logs = []).
Proof.
  change (control_frame s (snd (lirc_ioctl cmd user fop s))).
  pose proof (control_frame_refl s) as R.
  destruct cmd; cbn [lirc_ioctl]; cbv zeta;
    try (destruct user as [e|v]);
    repeat match goal with
           | |- context [if ?c then _ else _] => destruct c
           end;
    cbn [snd];
    repeat first
      [ assumption
      | apply control_frame_init_timing_params
      | apply control_frame_set_tx_mask
      | apply control_frame_dprintk ].
Qed.

(** X15 on a duty-cycle request with debugging off: the trace is what it
    was *)
Lemma lirc_ioctl_frame_witness :
  exists c m,
    snd (lirc_ioctl LIRC_SET_SEND_DUTY_CYCLE (inr 30) 0 carrier_state)
    = set_trace (trace carrier_state) (set_tx_mask m (set_car c carrier_state)).
Proof.
  destruct (lirc_ioctl_frame LIRC_SET_SEND_DUTY_CYCLE (inr 30) 0 carrier_state)
    as (c & m & logs & E & _ & Q).
  exists c, m. rewrite E, (Q eq_refl), app_nil_r. reflexivity.
Defined.

End ControlFrame.

(** ** Opening the device *)

Section Open.

(** the carrier parameters [init_timing_params] leaves depend on the state
    only through the carrier parameters it finds *)
Lemma init_timing_params_car (d f : Z) (s x : state) :
  car x = car s ->
  fst (init_timing_params d f x) = fst (init_timing_params d f s)
  /\ car (snd (init_timing_params d f x)) = car (snd (init_timing_params d f s)).
Proof.
  intros C. unfold init_timing_params. cbv zeta.
  repeat match goal with
         | |- context [if ?c then _ else _] => destruct c
         end; cbn [fst snd]; rewrite ?car_dprintk; cbn [car set_car]; now split.
Qed.

(** X16: [set_use_inc] stamps the last edge with the current time and
    reports -EBUSY and -EINVAL from request_irq, the carrier parameters
    left alone; every other result, a failure included, is taken for
    success: 0 is returned and the carrier parameters are those
    [init_timing_params] leaves when called on the current duty cycle and
    frequency, whose own result is dropped.  So with a duty cycle of 1..100
    and a frequency of 1..500000 the parameters are either refused and
    kept as they were or valid for that duty cycle and frequency, valid
    parameters are kept as they are, and the statics as initialised (duty
    cycle 50, 38 kHz) give period 26315, pulse_width 13157, space_width
    13158. *)
Theorem set_use_inc_outcome (tv : timeval) (request_irq : Z) (s : state) :
  let r := set_use_inc tv request_irq s in
  lasttv (snd r) = tv
  /\ fst r = (if (request_irq =? - EBUSY) || (request_irq =? - EINVAL)
              then request_irq else 0)
  /\ (fst r <> 0 -> car (snd r) = car s)
  /\ (fst r = 0 ->
      car (snd r)
      = car (snd (init_timing_params (duty_cycle (car s)) (freq (car s)) s))
      /\ (1 <= duty_cycle (car s) <= 100 -> 0 < freq (car s) <= 500000 ->
          car (snd r) = car s
          \/ (carrier_valid (car (snd r))
              /\ duty_cycle (car (snd r)) = duty_cycle (car s)
              /\ freq (car (snd r)) = freq (car s)))
      /\ (carrier_valid (car s) -> car (snd r) = car s)
      /\ (duty_cycle (car s) = 50 -> freq (car s) = 38000 ->
          carrier_valid (car (snd r))
          /\ period (car (snd r)) = 26315
          /\ pulse_width (car (snd r)) = 13157
          /\ space_width (car (snd r)) = 13158)).
Proof.
  intros r. subst r. unfold set_use_inc. cbv zeta.
  destruct (Z.eqb_spec request_irq (- EBUSY)) as [->|N1].
  { cbn [orb fst snd lasttv car printk emit set_trace set_lasttv].
    split; [reflexivity|]. split; [reflexivity|]. split; [intros _; reflexivity|].
    intros H. discriminate H. }
  destruct (Z.eqb_spec request_irq (- EINVAL)) as [->|N2].
  { cbn [orb fst snd lasttv car printk emit set_trace set_lasttv].
    split; [reflexivity|]. split; [reflexivity|]. split; [intros _; reflexivity|].
    intros H. discriminate H. }
  cbn [orb].
  match goal with
  | |- context [init_timing_params ?d ?f ?x] =>
      pose proof (control_frame_init_timing_params d f (set_lasttv tv s) x) as Fr;
      pose proof (init_timing_params_car d f s x) as [_ Cs];
      destruct (init_timing_params d f x) as [res s3] eqn:I
  end.
  { now rewrite car_dprintk. }
  cbn [fst snd] in *. clear I.
  assert (CD : car (dprintk "Interrupt %d obtained" [irq_num (set_lasttv tv s)]
                      (set_lasttv tv s)) = car s) by now rewrite car_dprintk.
  rewrite CD in *. clear CD. cbn [car set_lasttv] in *.
  split.
  { destruct Fr as (c & m & logs & -> & _).
    + apply control_frame_dprintk, control_frame_refl.
    + reflexivity. }
  split; [reflexivity|]. split; [intros H; now contradiction H|].
  intros _. rewrite Cs. clear Cs Fr.
  split; [reflexivity|]. split; [|split].
  - intros Hd Hf.
    destruct (init_timing_params_valid (duty_cycle (car s)) (freq (car s)) s Hd Hf)
      as [->|(_ & V & D & F)]; [now left | right; now split].
  - intros V. pose proof V as (Hd & Hf & Pe & Pw & Sw & _).
    destruct (init_timing_params_valid (duty_cycle (car s)) (freq (car s)) s Hd Hf)
      as [->|(_ & V' & D & F)]; [reflexivity|].
    destruct V' as (_ & _ & Pe' & Pw' & Sw' & _).
    rewrite D, F in *.
    destruct (car (snd (init_timing_params (duty_cycle (car s)) (freq (car s)) s)))
      as [f' d' p' pw' sw'].
    destruct (car s) as [f d p pw sw].
    cbn [freq duty_cycle period pulse_width space_width] in *.
    subst. f_equal; lia.
  - intros D F. rewrite D, F.
    rewrite init_timing_params_cases by lia.
    change (checked_pulse 50 38000 <=? LIRC_TRANSMITTER_LATENCY) with false.
    change (checked_space 50 38000 <=? LIRC_TRANSMITTER_LATENCY) with false.
    cbn [orb snd]. rewrite car_dprintk. cbn [car set_car].
    change (derived_period 38000) with 26315.
    change (derived_pulse_width 50 38000) with 13157.
    change (derived_space_width 50 38000) with 13158.
    unfold carrier_valid, LIRC_TRANSMITTER_LATENCY.
    cbn [freq duty_cycle period pulse_width space_width].
    repeat split; try lia; reflexivity.
Qed.

(** X16 on the initial statics, request_irq failing with -ENOMEM (-12) *)
Lemma set_use_inc_outcome_witness :
  fst (set_use_inc {| tv_sec := 7; tv_usec := 0 |} (-12) initial_state) = 0
  /\ period (car (snd (set_use_inc {| tv_sec := 7; tv_usec := 0 |} (-12) initial_state)))
     = 26315.
Proof.
  destruct (set_use_inc_outcome {| tv_sec := 7; tv_usec := 0 |} (-12) initial_state)
    as (_ & R & _ & V).
  split; [exact R|].
  destruct (V R) as (_ & _ & _ & W).
  destruct (W eq_refl eq_refl) as (_ & P & _). exact P.
Defined.

End Open.

(** ** Setting up the port *)

Section Port.

Lemma probe_fold_trace (get : nat -> Z) (idx : list nat) :
  forall (nlow nhigh : Z) (acc : state),
    snd (fold_left
           (fun '(nlow, nhigh, acc) i =>
              let '(nlow', nhigh') :=
                if truthy (get i) then (to_int (nlow + 1), nhigh)
                else (nlow, to_int (nhigh + 1)) in
              (nlow', nhigh', msleep 40 acc))
           idx (nlow, nhigh, acc))
    = set_trace (trace acc ++ repeat (Msleep 40) (length idx)) acc.
Proof.
  induction idx as [|i idx IH]; intros nlow nhigh acc; cbn [fold_left length repeat].
  - cbn [snd]. now rewrite app_nil_r, set_trace_same.
  - destruct (truthy (get i)); rewrite IH; unfold msleep; rewrite emit_frame;
      cbn [trace set_trace]; rewrite set_trace_twice, <- app_assoc; reflexivity.
Qed.

Lemma probe_votes_trace (get : nat -> Z) (s : state) :
  probe_votes get s
  = (high_samples get, low_samples get,
     set_trace (trace s ++ repeat (Msleep 40) 9) s).
Proof.
  destruct (probe_votes_counts get s) as (s' & E & _).
  pose proof (probe_fold_trace get (seq 0 9) 0 0 s) as T.
  fold (probe_votes get s) in T. rewrite E in T. cbn [snd] in T.
  rewrite E, T. reflexivity.
Qed.

(** X17: [init_port] first searches gpiolib for the chip, which drives no
    line and, with debugging on, logs one line for every chip
    [is_right_chip] is called on: the chips up to the first whose label
    compares equal, and a second time all of them when none does and the
    device has a device-tree node.  Without the chip [init_port] then logs
    the failure and returns -ENODEV, nothing but the trace changed.  With
    it, [init_port] returns 0, records the interrupt number, drives every
    configured output line, enabled or not, to the idle level before
    anything else but the search, and leaves a sense that is never -1: a
    sense given at load time is kept without a single sleep or probe, an
    undetermined one is voted on after sleeping 500 ms and nine times
    40 ms.  All else in the trace are log lines. *)
Theorem init_port_outcomes (lib : gpiolib) (node : bool) (to_irq : Z)
    (get : nat -> Z) (s : state) :
  let r := init_port lib node to_irq get s in
  let finds := find_log lib node s in
  forallb is_printk finds = true
  /\ (debug (cfg s) = false -> finds = [])
  /\ (chip_found lib = false ->
      r = (- ENODEV,
           set_trace (trace s ++ finds ++ [Printk "gpio chip not found!" []]) s))
  /\ (chip_found lib = true ->
      fst r = 0
      /\ irq_num (snd r) = to_irq
      /\ sense (snd r) <> -1
      /\ sense (snd r)
         = (if sense s =? -1
            then (if low_samples get <=? high_samples get then 1 else 0)
            else sense s)
      /\ exists logs final,
           trace (snd r)
           = trace s
             ++ finds
             ++ map (fun i => GpioSet (out_pin s i) (invert (cfg s))) (tx_range_int s)
             ++ logs
             ++ (if sense s =? -1 then Msleep 500 :: repeat (Msleep 40) 9 else [])
             ++ [final]
           /\ forallb is_printk (logs ++ [final]) = true).
Proof.
  cbv zeta. destruct (find_log_printk lib node s) as [P Q].
  split; [exact P|]. split; [exact Q|]. split.
  { intros F. now apply init_port_missing. }
  intros F. rewrite init_port_found by exact F. cbv zeta.
  set (finds := find_log lib node s).
  rewrite set_all_trace. unfold all_sets.
  cbn [cfg trace set_trace]. rewrite set_trace_twice.
  change (map (fun i => GpioSet (out_pin (set_trace (trace s ++ finds) s) i)
                          (invert (cfg s)))
            (tx_range_int (set_trace (trace s ++ finds) s)))
    with (map (fun i => GpioSet (out_pin s i) (invert (cfg s))) (tx_range_int s)).
  set (sets := map (fun i => GpioSet (out_pin s i) (invert (cfg s))) (tx_range_int s)).
  rewrite sense_dprintk. cbn [sense set_irq_num set_trace].
  rewrite (dprintk_frame "to_irq %d"), dprintk_trace.
  cbn [cfg trace set_irq_num set_trace].
  set (logs := if debug (cfg s) then [Printk "to_irq %d" [to_irq]] else []).
  assert (L : forallb is_printk logs = true) by (subst logs; now destruct (debug (cfg s))).
  destruct (Z.eqb_spec (sense s) (-1)) as [Auto|Manual].
  - rewrite probe_votes_trace. cbn [fst snd sense irq_num trace cfg printk emit msleep
                                    set_trace set_sense set_irq_num].
    split; [reflexivity|]. split; [reflexivity|].
    split; [destruct (low_samples get <=? high_samples get); discriminate|].
    split; [reflexivity|].
    eexists logs, _. split.
    + rewrite <- !app_assoc. cbn [app]. reflexivity.
    + rewrite forallb_app, L. reflexivity.
  - cbn [fst snd sense irq_num trace cfg printk emit set_trace set_irq_num].
    split; [reflexivity|]. split; [reflexivity|]. split; [exact Manual|].
    split; [reflexivity|].
    eexists logs, _. split.
    + rewrite <- !app_assoc. cbn [app]. reflexivity.
    + rewrite forallb_app, L. reflexivity.
Qed.

(** X17 on a machine without the Tegra's chip: -ENODEV and one log line;
    and with it, on the initial statics: the interrupt number is recorded
    and the sense voted on *)
Lemma init_port_outcomes_witness :
  init_port other_lib false 7 five_high_four_low initial_state
  = (- ENODEV, set_trace [Printk "gpio chip not found!" []] initial_state)
  /\ irq_num (snd (init_port tegra_lib false 7 five_high_four_low initial_state)) = 7
  /\ sense (snd (init_port tegra_lib false 7 five_high_four_low initial_state)) = 1.
Proof.
  destruct (init_port_outcomes other_lib false 7 five_high_four_low initial_state)
    as (_ & _ & Missing & _).
  destruct (init_port_outcomes tegra_lib false 7 five_high_four_low initial_state)
    as (_ & _ & _ & Found).
  split; [exact (Missing eq_refl)|].
  destruct (Found eq_refl) as (_ & I & _ & S & _).
  split; [exact I | exact S].
Defined.

End Port.

(** ** Loading and unloading the module *)

Section ModuleCode.

Lemma counts_eq (a b c d a' b' c' d' : Z) :
  a = a' -> b = b' -> c = c' -> d = d' -> (a, b, c, d) = (a', b', c', d').
Proof. now intros -> -> -> ->. Qed.

Lemma held_app (a b : list platform_event) :
  held (a ++ b) = held_plus (held a) (held b).
Proof.
  induction a as [|e a IH]; cbn [app held].
  - destruct (held b) as [[[x y] z] w]. cbn [held_plus]. apply counts_eq; lia.
  - rewrite IH. destruct (held a) as [[[x y] z] w].
    destruct (held b) as [[[x' y'] z'] w']. cbn [held_plus].
    destruct e; cbn [held_plus]; apply counts_eq; lia.
Qed.

Lemma held_call (e : platform_event) (p : platform) :
  held (calls (call e p)) = held_plus (held (calls p)) (held [e]).
Proof. unfold call. cbn [calls]. apply held_app. Qed.

(** normalises the count of a run of calls on top of [calls p] *)
Ltac count_held :=
  unfold call; cbn [calls of_node]; repeat rewrite held_app; cbn [held];
  repeat match goal with
         | |- context [held (calls ?p)] =>
             is_var p; destruct (held (calls p)) as [[[? ?] ?] ?]
         end;
  cbn [held_plus]; apply counts_eq; lia.

Lemma lirc_tegra_init_counts (env : init_env) (s : state) (p : platform) :
  let r := lirc_tegra_init env s p in
  (fst (fst r) = 0
   <-> 0 <= buffer_init_result env
       /\ driver_register_result env = 0
       /\ (node_found env = true
           \/ (device_alloc_ok env = true /\ device_add_result env = 0)))
  /\ (fst (fst r) <> 0 -> held (calls (snd r)) = held (calls p))
  /\ (fst (fst r) = 0 ->
      held (calls (snd r))
      = held_plus (held (calls p)) (1, 1, if node_found env then 0 else 1, 0)
      /\ of_node (snd r) = node_found env
      /\ rbuf (snd (fst r)) = lirc_buffer_init 4 RBUF_LEN).
Proof.
  cbv zeta. unfold lirc_tegra_init, truthy, ENOMEM. cbv zeta.
  destruct (Z.ltb_spec (buffer_init_result env) 0) as [B|B].
  { cbn [fst snd]. split; [|split].
    - split; [discriminate | lia].
    - reflexivity.
    - discriminate. }
  destruct (Z.eqb_spec (driver_register_result env) 0) as [D|D]; cbn [negb].
  2:{ cbn [fst snd]. split; [|split].
      - split; [contradiction | tauto].
      - intros _. count_held.
      - contradiction. }
  destruct (node_found env) eqn:N.
  { cbn [fst snd]. split; [|split].
    - split; [tauto | reflexivity].
    - intros H. now contradiction H.
    - intros _. split; [|split; reflexivity]. count_held. }
  destruct (device_alloc_ok env) eqn:A; cbn [negb].
  2:{ cbn [fst snd]. split; [|split].
      - split; [discriminate|]. intros (_ & _ & [H|[H _]]); discriminate.
      - intros _. count_held.
      - discriminate. }
  destruct (Z.eqb_spec (device_add_result env) 0) as [Ad|Ad]; cbn [negb].
  - cbn [fst snd]. split; [|split].
    + split; [tauto | reflexivity].
    + intros H. now contradiction H.
    + intros _. split; [|split; reflexivity]. count_held.
  - cbn [fst snd]. split; [|split].
    + split; [contradiction|]. intros (_ & _ & [H|[_ H]]); [discriminate | contradiction].
    + intros _. count_held.
    + contradiction.
Qed.

(** X18: [lirc_tegra_init] returns 0 exactly when the buffer was set up,
    the platform driver registered and the device found in the device tree
    or else allocated and added.  When it fails, whatever it had acquired
    is released again before it returns (the counts of held buffers,
    drivers and devices are what they were); when it succeeds it holds one
    buffer, one driver and, without a device-tree node, one device, and
    the receive buffer is empty with RBUF_LEN slots of 4 bytes. *)
Theorem lirc_tegra_init_balance (env : init_env) (s : state) (p : platform) :
  let r := lirc_tegra_init env s p in
  (fst (fst r) = 0
   <-> 0 <= buffer_init_result env
       /\ driver_register_result env = 0
       /\ (node_found env = true
           \/ (device_alloc_ok env = true /\ device_add_result env = 0)))
  /\ (fst (fst r) <> 0 -> held (calls (snd r)) = held (calls p))
  /\ (fst (fst r) = 0 ->
      held (calls (snd r))
      = held_plus (held (calls p)) (1, 1, if node_found env then 0 else 1, 0)
      /\ of_node (snd r) = node_found env
      /\ rbuf (snd (fst r)) = lirc_buffer_init 4 RBUF_LEN).
Proof. apply lirc_tegra_init_counts. Qed.

(** X18 when adding the platform device fails with -19 *)
Lemma lirc_tegra_init_balance_witness :
  fst (fst (lirc_tegra_init
              {| buffer_init_result := 0; driver_register_result := 0;
                 node_found := false; device_alloc_ok := true;
                 device_add_result := -19 |} initial_state fresh)) = -19
  /\ held (calls (snd (lirc_tegra_init
                         {| buffer_init_result := 0; driver_register_result := 0;
                            node_found := false; device_alloc_ok := true;
                            device_add_result := -19 |} initial_state fresh)))
     = (0, 0, 0, 0).
Proof.
  split; [reflexivity|].
  refine (proj1 (proj2 (lirc_tegra_init_balance
                          {| buffer_init_result := 0; driver_register_result := 0;
                             node_found := false; device_alloc_ok := true;
                             device_add_result := -19 |} initial_state fresh)) _).
  discriminate.
Defined.

Lemma init_port_fst (lib : gpiolib) (node : bool) (to_irq : Z) (get : nat -> Z)
    (s : state) :
  fst (init_port lib node to_irq get s) = if chip_found lib then 0 else - ENODEV.
Proof.
  destruct (chip_found lib) eqn:F.
  - rewrite init_port_found by exact F. cbv zeta.
    match goal with
    | |- context [if ?b then _ else _] => destruct b
    end; [|reflexivity].
    rewrite probe_votes_trace. reflexivity.
  - now rewrite init_port_missing.
Qed.

Lemma init_port_cfg_sense (lib : gpiolib) (node : bool) (to_irq : Z) (get : nat -> Z)
    (s : state) :
  chip_found lib = true ->
  cfg (snd (init_port lib node to_irq get s)) = cfg s
  /\ sense (snd (init_port lib node to_irq get s)) <> -1.
Proof.
  intros F. rewrite init_port_found by exact F. cbv zeta.
  rewrite sense_dprintk, set_all_trace. cbn [sense set_irq_num set_trace].
  destruct (Z.eqb_spec (sense s) (-1)) as [A|M].
  - rewrite probe_votes_trace.
    cbn [snd cfg sense printk emit msleep set_trace set_sense].
    rewrite cfg_dprintk. cbn [cfg set_irq_num set_trace].
    split; [reflexivity|]. destruct (low_samples get <=? high_samples get); discriminate.
  - cbn [snd cfg sense printk emit set_trace]. rewrite cfg_dprintk, sense_dprintk.
    cbn [cfg sense set_irq_num set_trace]. now split.
Qed.

Lemma lirc_tegra_init_cfg (env : init_env) (s : state) (p : platform) :
  cfg (snd (fst (lirc_tegra_init env s p))) = cfg s.
Proof.
  unfold lirc_tegra_init. cbv zeta.
  repeat match goal with
         | |- context [if ?c then _ else _] => destruct c
         end; reflexivity.
Qed.

Lemma log_out_pins_sense (s : state) : sense (log_out_pins s) = sense s.
Proof.
  unfold log_out_pins. generalize (tx_range_int s). intros idx. revert s.
  induction idx as [|i idx IH]; intros s; cbn [fold_left]; [reflexivity|].
  now rewrite IH, sense_dprintk.
Qed.

Lemma lirc_tegra_exit_held (p : platform) :
  held (calls (lirc_tegra_exit p))
  = held_plus (held (calls p)) (-1, -1, if of_node p then 0 else -1, 0).
Proof.
  unfold lirc_tegra_exit. cbv zeta. destruct (of_node p); cbn [negb]; count_held.
Qed.

Lemma driver_features_cfg (can : lirc_can) (s s' : state) :
  cfg s' = cfg s -> driver_features can s' = driver_features can s.
Proof. unfold driver_features. now intros ->. Qed.

Lemma lirc_tegra_init_module_cases
    (can : lirc_can) (env : init_env) (lib : gpiolib) (to_irq : Z)
    (get : nat -> Z) (register_result : Z) (s : state) (p : platform)
    (d : lirc_driver) :
  let r := lirc_tegra_init_module can env lib to_irq get register_result s p d in
  let code := fst (fst (fst r)) in
  (code = 0
   <-> fst (fst (lirc_tegra_init env s p)) = 0 /\ chip_found lib = true
       /\ 0 <= register_result)
  /\ (code <> 0 -> held (calls (snd (fst r))) = held (calls p))
  /\ (fst (fst (lirc_tegra_init env s p)) = 0 -> chip_found lib = true ->
      register_result < 0 -> code = - EIO)
  /\ (code = 0 ->
      held (calls (snd (fst r)))
      = held_plus (held (calls p)) (1, 1, if node_found env then 0 else 1, 1)
      /\ minor (snd r) = register_result
      /\ features (snd r) = driver_features can s
      /\ sense (snd (fst (fst r))) <> -1).
Proof.
  cbv zeta. unfold lirc_tegra_init_module.
  pose proof (lirc_tegra_init_counts env s p) as (I0 & Ifail & Iok).
  pose proof (lirc_tegra_init_cfg env s p) as Ic.
  destruct (lirc_tegra_init env s p) as [[result s1] p1].
  cbn [fst snd] in *. unfold truthy.
  destruct (Z.eqb_spec result 0) as [R|R]; cbn [negb fst snd].
  2:{ split; [|split; [|split]].
      - split; [contradiction | tauto].
      - intros _. now apply Ifail.
      - contradiction.
      - contradiction. }
  destruct (Iok R) as (H1 & On & _). clear Ifail Iok I0.
  pose proof (init_port_fst lib (of_node p1) to_irq get s1) as Pf.
  destruct (chip_found lib) eqn:G.
  2:{ destruct (init_port lib (of_node p1) to_irq get s1) as [res s2].
      cbn [fst] in Pf. subst res.
      unfold ENODEV. cbn [Z.ltb Z.opp Z.compare fst snd].
      split; [|split; [|split]].
      - split; [discriminate|]. intros (_ & H & _). discriminate H.
      - intros _. rewrite lirc_tegra_exit_held, H1, On.
        destruct (held (calls p)) as [[[? ?] ?] ?]. cbn [held_plus].
        destruct (node_found env); apply counts_eq; lia.
      - discriminate.
      - discriminate. }
  pose proof (init_port_cfg_sense lib (of_node p1) to_irq get s1 G) as [Pc Ps].
  destruct (init_port lib (of_node p1) to_irq get s1) as [res s2].
  cbn [fst snd] in *. subst res.
  cbn [Z.ltb Z.compare minor features].
  destruct (Z.ltb_spec register_result 0) as [Neg|Pos]; cbn [fst snd].
  - unfold EIO. split; [|split; [|split]].
    + split; [discriminate | lia].
    + intros _. rewrite lirc_tegra_exit_held, H1, On.
      destruct (held (calls p)) as [[[? ?] ?] ?]. cbn [held_plus].
      destruct (node_found env); apply counts_eq; lia.
    + reflexivity.
    + discriminate.
  - split; [|split; [|split]].
    + split; [tauto | reflexivity].
    + intros H. now contradiction H.
    + lia.
    + intros _. cbn [minor features]. split; [|split; [reflexivity | split]].
      * unfold call. cbn [calls]. rewrite held_app, H1. cbn [held].
        destruct (held (calls p)) as [[[? ?] ?] ?]. cbn [held_plus].
        destruct (node_found env); apply counts_eq; lia.
      * apply driver_features_cfg. congruence.
      * rewrite log_out_pins_sense, !sense_dprintk. exact Ps.
Qed.

(** X19: [lirc_tegra_init_module] returns 0 exactly when [lirc_tegra_init]
    succeeded, the GPIO chip was found and lirc_register_driver did not
    return a negative number; a failed registration is reported as -EIO
    whatever lirc_register_driver returned.  On every failure all that was
    acquired is released again; on success one buffer, one platform driver,
    one lirc registration and, without a device-tree node, one platform
    device are held, the minor is the one registered, the features are those
    of the configuration, and the sense is determined. *)
Theorem lirc_tegra_init_module_outcome
    (can : lirc_can) (env : init_env) (lib : gpiolib) (to_irq : Z)
    (get : nat -> Z) (register_result : Z) (s : state) (p : platform)
    (d : lirc_driver) :
  let r := lirc_tegra_init_module can env lib to_irq get register_result s p d in
  let code := fst (fst (fst r)) in
  (code = 0
   <-> fst (fst (lirc_tegra_init env s p)) = 0 /\ chip_found lib = true
       /\ 0 <= register_result)
  /\ (code <> 0 -> held (calls (snd (fst r))) = held (calls p))
  /\ (fst (fst (lirc_tegra_init env s p)) = 0 -> chip_found lib = true ->
      register_result < 0 -> code = - EIO)
  /\ (code = 0 ->
      held (calls (snd (fst r)))
      = held_plus (held (calls p)) (1, 1, if node_found env then 0 else 1, 1)
      /\ minor (snd r) = register_result
      /\ features (snd r) = driver_features can s
      /\ sense (snd (fst (fst r))) <> -1).
Proof. apply lirc_tegra_init_module_cases. Qed.

(** X19 when lirc_register_driver fails with -12 on a machine without a
    device-tree node: the module reports -EIO and holds nothing *)
Lemma lirc_tegra_init_module_outcome_witness :
  fst (fst (fst (lirc_tegra_init_module lirc_h (all_fine false) tegra_lib 7
                   five_high_four_low (-12) initial_state fresh initial_driver)))
  = - EIO
  /\ held (calls (snd (fst (lirc_tegra_init_module lirc_h (all_fine false) tegra_lib 7
                              five_high_four_low (-12) initial_state fresh
                              initial_driver))))
     = (0, 0, 0, 0).
Proof.
  destruct (lirc_tegra_init_module_outcome lirc_h (all_fine false) tegra_lib 7
              five_high_four_low (-12) initial_state fresh initial_driver)
    as (_ & Fail & Eio & _).
  assert (E : fst (fst (fst (lirc_tegra_init_module lirc_h (all_fine false) tegra_lib 7
                               five_high_four_low (-12) initial_state fresh
                               initial_driver))) = - EIO).
  { apply Eio; [reflexivity | reflexivity | lia]. }
  split; [exact E|].
  refine (eq_trans (Fail _) _); [|reflexivity].
  rewrite E. discriminate.
Defined.

Lemma advertises_own (f bit : Z) :
  bit <> 0 -> Z.land f bit = 0 -> advertises (Z.lor f bit) bit = true.
Proof.
  intros N Z0. unfold advertises, truthy.
  rewrite Z.land_lor_distr_l, Z0, Z.land_diag, Z.lor_0_l.
  apply negb_true_iff, Z.eqb_neq, N.
Qed.

Lemma advertises_other (f bit other : Z) :
  Z.land other bit = 0 -> advertises (Z.lor f other) bit = advertises f bit.
Proof.
  intros Z0. unfold advertises. now rewrite Z.land_lor_distr_l, Z0, Z.lor_0_r.
Qed.

Lemma advertises_none (bit : Z) : advertises 0 bit = false.
Proof. unfold advertises. now rewrite Z.land_0_l. Qed.

(** X20: whatever the capability values are, as long as no two share a bit
    and none is zero, the features [lirc_tegra_init_module] builds advertise
    duty-cycle and carrier control exactly when the software carrier is on,
    sending exactly when at least one transmitter is configured, the
    transmitter mask exactly when more than one is, and receiving exactly
    when the input pin is not INVALID. *)
Theorem driver_features_bits (can : lirc_can) (s : state) :
  can_distinct can ->
  let f := driver_features can s in
  advertises f (LIRC_CAN_SET_SEND_DUTY_CYCLE can) = softcarrier (cfg s)
  /\ advertises f (LIRC_CAN_SET_SEND_CARRIER can) = softcarrier (cfg s)
  /\ advertises f (LIRC_CAN_SEND_PULSE can) = (0 <? n_transmitters (cfg s))
  /\ advertises f (LIRC_CAN_SET_TRANSMITTER_MASK can) = (1 <? n_transmitters (cfg s))
  /\ advertises f (LIRC_CAN_REC_MODE2 can) = negb (gpio_in_pin (cfg s) =? INVALID).
Proof.
  unfold can_distinct. cbv zeta.
  intros ((N1 & N2 & N3 & N4 & N5) & (A12 & A13 & A14 & A15) & (A23 & A24 & A25)
          & (A34 & A35) & A45).
  pose proof A12 as B12. pose proof A13 as B13. pose proof A14 as B14.
  pose proof A15 as B15. pose proof A23 as B23. pose proof A24 as B24.
  pose proof A25 as B25. pose proof A34 as B34. pose proof A35 as B35.
  pose proof A45 as B45.
  rewrite Z.land_comm in B12, B13, B14, B15, B23, B24, B25, B34, B35, B45.
  unfold driver_features. cbv zeta.
  destruct (softcarrier (cfg s)), (0 <? n_transmitters (cfg s)),
    (1 <? n_transmitters (cfg s)), (negb (gpio_in_pin (cfg s) =? INVALID));
    repeat split;
    repeat first
      [ apply advertises_none
      | rewrite advertises_other by assumption
      | apply advertises_own;
        [assumption
        | rewrite ?Z.land_lor_distr_l, ?Z.land_0_l, ?B12, ?B13, ?B14, ?B15, ?B23, ?B24,
            ?B25, ?B34, ?B35, ?B45, ?A12, ?A13, ?A14, ?A15, ?A23, ?A24, ?A25, ?A34,
            ?A35, ?A45; reflexivity ] ].
Qed.

(** X20 with the values of the LIRC ABI on the default configuration: one
    transmitter, so sending is advertised and the transmitter mask is not *)
Lemma driver_features_bits_witness :
  advertises (driver_features lirc_h initial_state) (LIRC_CAN_SEND_PULSE lirc_h) = true
  /\ advertises (driver_features lirc_h initial_state)
       (LIRC_CAN_SET_TRANSMITTER_MASK lirc_h) = false.
Proof.
  assert (D : can_distinct lirc_h).
  { unfold can_distinct. cbn. repeat split; discriminate. }
  destruct (driver_features_bits lirc_h initial_state D) as (_ & _ & S & M & _).
  split; [exact S | exact M].
Defined.

Lemma gpio_free_held (pins : list nat) (f : nat -> Z) (p : platform) :
  held (calls (fold_left (fun acc i => call (GpioFree (f i)) acc) pins p))
  = held (calls p)
  /\ of_node (fold_left (fun acc i => call (GpioFree (f i)) acc) pins p) = of_node p.
Proof.
  revert p. induction pins as [|i pins IH]; intros p; cbn [fold_left]; [now split|].
  destruct (IH (call (GpioFree (f i)) p)) as [H O]. rewrite H, O. split; [|reflexivity].
  count_held.
Qed.

Lemma lirc_tegra_init_of_node (env : init_env) (s : state) (p : platform) :
  fst (fst (lirc_tegra_init env s p)) = 0 ->
  of_node (snd (lirc_tegra_init env s p)) = node_found env.
Proof. intros H. now apply (lirc_tegra_init_counts env s p). Qed.

(** X21: loading and then unloading the module leaves nothing held: after
    [lirc_tegra_init_module] has returned 0, [lirc_tegra_exit_module] gives
    back the lirc registration, the buffer, the platform driver and, without
    a device-tree node, the platform device, so the counts of held
    resources are what they were before loading. *)
Theorem module_load_unload_balance
    (can : lirc_can) (env : init_env) (lib : gpiolib) (to_irq : Z)
    (get : nat -> Z) (register_result : Z) (s : state) (p : platform)
    (d : lirc_driver) :
  let r := lirc_tegra_init_module can env lib to_irq get register_result s p d in
  fst (fst (fst r)) = 0 ->
  held (calls (snd (lirc_tegra_exit_module (snd (fst (fst r))) (snd (fst r)) (snd r))))
  = held (calls p).
Proof.
  cbv zeta. intros Ok.
  destruct (lirc_tegra_init_module_cases can env lib to_irq get register_result
              s p d) as (Iff & _ & _ & Good).
  cbv zeta in Iff, Good. destruct (Good Ok) as (H & M & _). clear Good.
  apply Iff in Ok. destruct Ok as (I0 & G & Pos).
  assert (On : of_node (snd (fst (lirc_tegra_init_module can env lib to_irq get
                                     register_result s p d))) = node_found env).
  { unfold lirc_tegra_init_module.
    pose proof (lirc_tegra_init_of_node env s p I0) as O.
    destruct (lirc_tegra_init env s p) as [[result s1] p1]. cbn [fst snd] in *.
    subst result. cbn [truthy Z.eqb negb].
    pose proof (init_port_fst lib (of_node p1) to_irq get s1) as Pf.
    rewrite G in Pf.
    destruct (init_port lib (of_node p1) to_irq get s1) as [res s2].
    cbn [fst] in Pf. subst res.
    cbn [Z.ltb Z.compare minor].
    destruct (Z.ltb_spec register_result 0); [lia|]. cbn [fst snd call of_node].
    exact O. }
  set (r := lirc_tegra_init_module can env lib to_irq get register_result s p d)
    in *.
  unfold lirc_tegra_exit_module. cbv zeta. cbn [snd].
  destruct (gpio_free_held (tx_range_int (snd (fst (fst r))))
              (out_pin (snd (fst (fst r))))
              (call (LircUnregister (minor (snd r))) (snd (fst r)))) as [Hf Of].
  rewrite lirc_tegra_exit_held. cbn [call of_node calls].
  rewrite Of. cbn [call of_node]. rewrite On.
  rewrite held_app, Hf, held_call, H. cbn [held].
  destruct (held (calls p)) as [[[? ?] ?] ?]. cbn [held_plus].
  destruct (node_found env); apply counts_eq; lia.
Qed.

(** X21 on a machine without a device-tree node where everything succeeds *)
Lemma module_load_unload_balance_witness :
  held (calls (snd (lirc_tegra_exit_module
                      (snd (fst (fst (lirc_tegra_init_module lirc_h (all_fine false)
                                        tegra_lib 7 five_high_four_low 3
                                        initial_state fresh initial_driver))))
                      (snd (fst (lirc_tegra_init_module lirc_h (all_fine false)
                                   tegra_lib 7 five_high_four_low 3 initial_state
                                   fresh initial_driver)))
                      (snd (lirc_tegra_init_module lirc_h (all_fine false) tegra_lib 7
                              five_high_four_low 3 initial_state fresh
                              initial_driver)))))
  = (0, 0, 0, 0).
Proof.
  apply (module_load_unload_balance lirc_h (all_fine false) tegra_lib 7
           five_high_four_low 3
           initial_state fresh initial_driver).
  reflexivity.
Defined.

End ModuleCode.
